(** * Lifecycle host of the peer-to-peer node: node.go, api.go, service.go
    and the HTTP handler stack, embedded as Rocq functions.

    Go values are embedded as follows.
    - [string] is a Rocq [string] (a sequence of bytes); [int] is [Z].
    - [error] is [option Error]: [None] is Go's [nil].
    - A pointer field that may be [nil] is an [option].
    - [map[reflect.Type]Service] is an association list with unique keys
      kept in insertion order; a [range] over it visits the entries in an
      order picked by the environment (the Go language leaves it open).
    - [http.Handler] is an inductive type with one constructor per
      implementation found in the source.
    - Methods of [*Node] run in a small state-and-trace monad: they
      transform the [Node] record and emit the calls they make on the
      outside world (services, peer-transport server, listeners, files).
    The read/write mutex [n.lock] is taken for the whole body of every
    method modelled here, so each method is one atomic step. *)

From Stdlib Require Import String Ascii List Bool Arith ZArith Lia.
From Stdlib Require Import Permutation DecimalString.
Import ListNotations.
Local Open Scope string_scope.
Local Open Scope list_scope.

Set Implicit Arguments.

(** ** Package [strings] on byte strings *)

Module GoStrings.

(** [strings.ToLower] on ASCII text: a byte in [A-Z] becomes the byte in
    [a-z], every other byte is returned as it is.  On strings with bytes
    above 127 Go's function folds Unicode letters as well, so the node and
    the handlers below take [strings.ToLower] from their environment; this
    function is the one the example worlds put there. *)
Definition lowerByte (c : ascii) : ascii :=
  let n := nat_of_ascii c in
  if ((65 <=? n) && (n <=? 90))%nat then ascii_of_nat (n + 32) else c.

Fixpoint ToLower (s : string) : string :=
  match s with
  | EmptyString => EmptyString
  | String c r => String (lowerByte c) (ToLower r)
  end.

(** White space as [strings.TrimSpace] sees it in ASCII:
    tab, line feed, vertical tab, form feed, carriage return, space. *)
Definition isSpace (c : ascii) : bool :=
  let n := nat_of_ascii c in
  (((9 <=? n) && (n <=? 13)) || (n =? 32))%nat.

Fixpoint trimLeft (s : string) : string :=
  match s with
  | EmptyString => EmptyString
  | String c r => if isSpace c then trimLeft r else s
  end.

Fixpoint trimRight (s : string) : string :=
  match s with
  | EmptyString => EmptyString
  | String c r =>
      match trimRight r with
      | EmptyString => if isSpace c then EmptyString else String c EmptyString
      | r' => String c r'
      end
  end.

Definition TrimSpace (s : string) : string := trimRight (trimLeft s).

(** [strings.Split(s, sep)] for a one-byte separator: the pieces between
    the separators, always at least one piece. *)
Fixpoint Split (s : string) (sep : ascii) : list string :=
  match s with
  | EmptyString => [EmptyString]
  | String c r =>
      if Ascii.eqb c sep then EmptyString :: Split r sep
      else match Split r sep with
           | piece :: more => String c piece :: more
           | [] => [String c EmptyString]
           end
  end.

Fixpoint HasPrefix (s p : string) : bool :=
  match p, s with
  | EmptyString, _ => true
  | String a p', String b s' => Ascii.eqb a b && HasPrefix s' p'
  | String _ _, EmptyString => false
  end.

(** [strings.Contains(s, substr)] *)
Fixpoint Contains (s sub : string) : bool :=
  HasPrefix s sub ||
  match s with
  | EmptyString => false
  | String _ r => Contains r sub
  end.

(** [strings.ContainsAny(s, chars)] *)
Fixpoint ContainsAny (s : string) (chars : list ascii) : bool :=
  match s with
  | EmptyString => false
  | String c r => existsb (Ascii.eqb c) chars || ContainsAny r chars
  end.

Definition HasSuffix (s suf : string) : bool :=
  let ls := String.length s in
  let lf := String.length suf in
  (lf <=? ls)%nat && String.eqb (substring (ls - lf) lf s) suf.

(** [fmt.Sprintf("%s:%d", host, port)] *)
Definition hostPort (host : string) (port : Z) : string :=
  host ++ ":" ++ NilZero.string_of_int (Z.to_int port).

End GoStrings.

(** ** Errors *)

(** Modelled from the spec: the error values of errors.go, which is not
    among the sources.  The sentinels and error types are those node.go
    and api.go name (the error taxonomy of the specification);
    [ErrorString] stands for every error made by [errors.New],
    [fmt.Errorf] or a collaborator. *)

#[warnings="-register-all"] Inductive Error : Type :=
| ErrDatadirUsed
| ErrNodeStopped
| ErrNodeRunning
| ErrServiceUnknown
| DuplicateServiceError (Kind : string)
| StopError (Services : list (string * Error))
| ErrorString (msg : string).

(** [reflect.Type] of a service: the name of its concrete type. *)
Definition ReflectType := string.

(** ** Package [rpc] as far as the node uses it *)

Module rpc.

(** The receiver object behind an API namespace. *)
Inductive Receiver : Type :=
| PrivateAdminAPI
| PublicAdminAPI
| DebugHandler
| PublicWeb3API
| ServiceReceiver (name : string).

Record API : Type := {
  Namespace : string;
  Version : string;
  Service : Receiver;
  Public : bool
}.

(** [*rpc.Server]: the (namespace, receiver) pairs registered so far. *)
Record Server : Type := { registered : list (string * Receiver) }.

Definition NewServer : Server := {| registered := [] |}.

Definition HTTPTimeouts := (Z * Z * Z)%type.

End rpc.

(** ** Package [p2p] as far as the node uses it *)

Module p2p.

Definition Protocol := string.

Record Config : Type := {
  PrivateKey : option string;
  Name : string;
  StaticNodes : option (list string);
  TrustedNodes : option (list string);
  NodeDatabase : string;
  ListenAddr : string
}.

(** The zero value of [Config]. *)
Definition zeroConfig : Config :=
  {| PrivateKey := None; Name := ""; StaticNodes := None;
     TrustedNodes := None; NodeDatabase := ""; ListenAddr := "" |}.

(** [p2p.Server{Config: ..., Protocols: ...}] *)
Record Server : Type := {
  SrvConfig : Config;
  Protocols : list Protocol
}.

End p2p.

(** ** config.go and defaults.go *)

Record Config : Type := {
  Name : string;
  DataDir : string;
  P2P : p2p.Config;
  IPCPath : string;
  HTTPHost : string;
  HTTPPort : Z;
  HTTPCors : list string;
  HTTPVirtualHosts : list string;
  HTTPModules : list string;
  HTTPTimeouts : rpc.HTTPTimeouts;
  WSHost : string;
  WSPort : Z;
  WSOrigins : list string;
  WSModules : list string;
  WSExposeAll : bool
}.

Definition datadirDefaultKeyStore : string := "keystore".
Definition DefaultHTTPHost : string := "localhost".
Definition DefaultHTTPPort : Z := 8545.
Definition DefaultWSHost : string := "localhost".
Definition DefaultWSPort : Z := 8546.

Definition Config_HTTPEndpoint (c : Config) : string :=
  if String.eqb (HTTPHost c) "" then ""
  else GoStrings.hostPort (HTTPHost c) (HTTPPort c).

Definition Config_WSEndpoint (c : Config) : string :=
  if String.eqb (WSHost c) "" then ""
  else GoStrings.hostPort (WSHost c) (WSPort c).

(** [filepath.Join] of two clean, non-empty elements. *)
Definition filepath_Join (a b : string) : string := a ++ "/" ++ b.

(** ** service.go *)

(** The [Service] interface.  [svcTypeOf] is what [reflect.TypeOf] gives
    for the value; [svcStart] and [svcStop] give the error the call
    returns. *)
Record Service : Type := {
  svcTypeOf : ReflectType;
  svcProtocols : list p2p.Protocol;
  svcAPIs : list rpc.API;
  svcStart : p2p.Server -> option Error;
  svcStop : option Error
}.

(** [map[reflect.Type]Service] *)
Definition ServiceMap := list (ReflectType * Service).

Section GoMap.
Variable V : Type.

Fixpoint mapGet (m : list (string * V)) (k : string) : option V :=
  match m with
  | [] => None
  | (k', v) :: r => if String.eqb k' k then Some v else mapGet r k
  end.

Definition mapHas (m : list (string * V)) (k : string) : bool :=
  match mapGet m k with Some _ => true | None => false end.

(** [m[k] = v]: overwrite the entry of [k], or add a new one. *)
Fixpoint mapSet (m : list (string * V)) (k : string) (v : V)
  : list (string * V) :=
  match m with
  | [] => [(k, v)]
  | (k', v') :: r =>
      if String.eqb k' k then (k, v) :: r else (k', v') :: mapSet r k v
  end.

Definition mapKeys (m : list (string * V)) : list string := map fst m.
End GoMap.

Record ServiceContext : Type := {
  ctxServices : ServiceMap;
  ctxConfig : Config
}.

(** [ServiceContext.Service]: the service of the requested type built
    earlier in this pass. *)
Definition ServiceContext_Service (ctx : ServiceContext) (kind : ReflectType)
  : Error + Service :=
  match mapGet (ctxServices ctx) kind with
  | Some running => inr running
  | None => inl ErrServiceUnknown
  end.

(** [ServiceConstructor]: returns the service or the construction error. *)
Definition ServiceConstructor := ServiceContext -> Error + Service.

(** ** [http.Handler] values built by the node *)

Inductive Handler : Type :=
| RPCHandler (srv : rpc.Server)
| WebsocketHandler (srv : rpc.Server) (allowedOrigins : list string)
| corsHandler (allowedOrigins : list string) (next : Handler)
| virtualHostHandler (vhosts : list string) (next : Handler)
| gzipHandler (next : Handler)
| websocketUpgradeHandler (h ws : Handler).

(** [*http.Server] *)
Record HTTPServer : Type := {
  hsHandler : Handler;
  hsAddr : string
}.

(** ** The [Node] struct *)

Record Node : Type := {
  config : Config;
  ephemeralKeystore : string;
  instanceDirLock : option string;
  serverConfig : p2p.Config;
  server : option p2p.Server;
  serviceFuncs : list ServiceConstructor;
  services : option ServiceMap;
  rpcAPIs : list rpc.API;
  inprocHandler : option rpc.Server;
  ipcEndpoint : string;
  ipcListener : option string;
  ipcHandler : option rpc.Server;
  httpEndpoint : string;
  httpWhitelist : list string;
  httpListenerAddr : option string;
  httpServer : option HTTPServer;
  httpHandler : option rpc.Server;
  wsEndpoint : string;
  wsListenerAddr : option string;
  wsHTTPServer : option HTTPServer;
  wsHandler : option rpc.Server;
  stop : option bool
}.

(** Assignments to single fields, [n.f = v]. *)

Definition set_instanceDirLock (v : option string) (n : Node) : Node :=
  {| config := config n; ephemeralKeystore := ephemeralKeystore n;
     instanceDirLock := v; serverConfig := serverConfig n;
     server := server n; serviceFuncs := serviceFuncs n;
     services := services n; rpcAPIs := rpcAPIs n;
     inprocHandler := inprocHandler n; ipcEndpoint := ipcEndpoint n;
     ipcListener := ipcListener n; ipcHandler := ipcHandler n;
     httpEndpoint := httpEndpoint n; httpWhitelist := httpWhitelist n;
     httpListenerAddr := httpListenerAddr n; httpServer := httpServer n;
     httpHandler := httpHandler n; wsEndpoint := wsEndpoint n;
     wsListenerAddr := wsListenerAddr n; wsHTTPServer := wsHTTPServer n;
     wsHandler := wsHandler n; stop := stop n |}.

Definition set_serverConfig (v : p2p.Config) (n : Node) : Node :=
  {| config := config n; ephemeralKeystore := ephemeralKeystore n;
     instanceDirLock := instanceDirLock n; serverConfig := v;
     server := server n; serviceFuncs := serviceFuncs n;
     services := services n; rpcAPIs := rpcAPIs n;
     inprocHandler := inprocHandler n; ipcEndpoint := ipcEndpoint n;
     ipcListener := ipcListener n; ipcHandler := ipcHandler n;
     httpEndpoint := httpEndpoint n; httpWhitelist := httpWhitelist n;
     httpListenerAddr := httpListenerAddr n; httpServer := httpServer n;
     httpHandler := httpHandler n; wsEndpoint := wsEndpoint n;
     wsListenerAddr := wsListenerAddr n; wsHTTPServer := wsHTTPServer n;
     wsHandler := wsHandler n; stop := stop n |}.

Definition set_server (v : option p2p.Server) (n : Node) : Node :=
  {| config := config n; ephemeralKeystore := ephemeralKeystore n;
     instanceDirLock := instanceDirLock n; serverConfig := serverConfig n;
     server := v; serviceFuncs := serviceFuncs n; services := services n;
     rpcAPIs := rpcAPIs n; inprocHandler := inprocHandler n;
     ipcEndpoint := ipcEndpoint n; ipcListener := ipcListener n;
     ipcHandler := ipcHandler n; httpEndpoint := httpEndpoint n;
     httpWhitelist := httpWhitelist n;
     httpListenerAddr := httpListenerAddr n; httpServer := httpServer n;
     httpHandler := httpHandler n; wsEndpoint := wsEndpoint n;
     wsListenerAddr := wsListenerAddr n; wsHTTPServer := wsHTTPServer n;
     wsHandler := wsHandler n; stop := stop n |}.

Definition set_serviceFuncs (v : list ServiceConstructor) (n : Node) : Node :=
  {| config := config n; ephemeralKeystore := ephemeralKeystore n;
     instanceDirLock := instanceDirLock n; serverConfig := serverConfig n;
     server := server n; serviceFuncs := v; services := services n;
     rpcAPIs := rpcAPIs n; inprocHandler := inprocHandler n;
     ipcEndpoint := ipcEndpoint n; ipcListener := ipcListener n;
     ipcHandler := ipcHandler n; httpEndpoint := httpEndpoint n;
     httpWhitelist := httpWhitelist n;
     httpListenerAddr := httpListenerAddr n; httpServer := httpServer n;
     httpHandler := httpHandler n; wsEndpoint := wsEndpoint n;
     wsListenerAddr := wsListenerAddr n; wsHTTPServer := wsHTTPServer n;
     wsHandler := wsHandler n; stop := stop n |}.

Definition set_services (v : option ServiceMap) (n : Node) : Node :=
  {| config := config n; ephemeralKeystore := ephemeralKeystore n;
     instanceDirLock := instanceDirLock n; serverConfig := serverConfig n;
     server := server n; serviceFuncs := serviceFuncs n; services := v;
     rpcAPIs := rpcAPIs n; inprocHandler := inprocHandler n;
     ipcEndpoint := ipcEndpoint n; ipcListener := ipcListener n;
     ipcHandler := ipcHandler n; httpEndpoint := httpEndpoint n;
     httpWhitelist := httpWhitelist n;
     httpListenerAddr := httpListenerAddr n; httpServer := httpServer n;
     httpHandler := httpHandler n; wsEndpoint := wsEndpoint n;
     wsListenerAddr := wsListenerAddr n; wsHTTPServer := wsHTTPServer n;
     wsHandler := wsHandler n; stop := stop n |}.

Definition set_rpcAPIs (v : list rpc.API) (n : Node) : Node :=
  {| config := config n; ephemeralKeystore := ephemeralKeystore n;
     instanceDirLock := instanceDirLock n; serverConfig := serverConfig n;
     server := server n; serviceFuncs := serviceFuncs n;
     services := services n; rpcAPIs := v; inprocHandler := inprocHandler n;
     ipcEndpoint := ipcEndpoint n; ipcListener := ipcListener n;
     ipcHandler := ipcHandler n; httpEndpoint := httpEndpoint n;
     httpWhitelist := httpWhitelist n;
     httpListenerAddr := httpListenerAddr n; httpServer := httpServer n;
     httpHandler := httpHandler n; wsEndpoint := wsEndpoint n;
     wsListenerAddr := wsListenerAddr n; wsHTTPServer := wsHTTPServer n;
     wsHandler := wsHandler n; stop := stop n |}.

Definition set_inprocHandler (v : option rpc.Server) (n : Node) : Node :=
  {| config := config n; ephemeralKeystore := ephemeralKeystore n;
     instanceDirLock := instanceDirLock n; serverConfig := serverConfig n;
     server := server n; serviceFuncs := serviceFuncs n;
     services := services n; rpcAPIs := rpcAPIs n; inprocHandler := v;
     ipcEndpoint := ipcEndpoint n; ipcListener := ipcListener n;
     ipcHandler := ipcHandler n; httpEndpoint := httpEndpoint n;
     httpWhitelist := httpWhitelist n;
     httpListenerAddr := httpListenerAddr n; httpServer := httpServer n;
     httpHandler := httpHandler n; wsEndpoint := wsEndpoint n;
     wsListenerAddr := wsListenerAddr n; wsHTTPServer := wsHTTPServer n;
     wsHandler := wsHandler n; stop := stop n |}.

Definition set_ipcListener (v : option string) (n : Node) : Node :=
  {| config := config n; ephemeralKeystore := ephemeralKeystore n;
     instanceDirLock := instanceDirLock n; serverConfig := serverConfig n;
     server := server n; serviceFuncs := serviceFuncs n;
     services := services n; rpcAPIs := rpcAPIs n;
     inprocHandler := inprocHandler n; ipcEndpoint := ipcEndpoint n;
     ipcListener := v; ipcHandler := ipcHandler n;
     httpEndpoint := httpEndpoint n; httpWhitelist := httpWhitelist n;
     httpListenerAddr := httpListenerAddr n; httpServer := httpServer n;
     httpHandler := httpHandler n; wsEndpoint := wsEndpoint n;
     wsListenerAddr := wsListenerAddr n; wsHTTPServer := wsHTTPServer n;
     wsHandler := wsHandler n; stop := stop n |}.

Definition set_ipcHandler (v : option rpc.Server) (n : Node) : Node :=
  {| config := config n; ephemeralKeystore := ephemeralKeystore n;
     instanceDirLock := instanceDirLock n; serverConfig := serverConfig n;
     server := server n; serviceFuncs := serviceFuncs n;
     services := services n; rpcAPIs := rpcAPIs n;
     inprocHandler := inprocHandler n; ipcEndpoint := ipcEndpoint n;
     ipcListener := ipcListener n; ipcHandler := v;
     httpEndpoint := httpEndpoint n; httpWhitelist := httpWhitelist n;
     httpListenerAddr := httpListenerAddr n; httpServer := httpServer n;
     httpHandler := httpHandler n; wsEndpoint := wsEndpoint n;
     wsListenerAddr := wsListenerAddr n; wsHTTPServer := wsHTTPServer n;
     wsHandler := wsHandler n; stop := stop n |}.

Definition set_httpEndpoint (v : string) (n : Node) : Node :=
  {| config := config n; ephemeralKeystore := ephemeralKeystore n;
     instanceDirLock := instanceDirLock n; serverConfig := serverConfig n;
     server := server n; serviceFuncs := serviceFuncs n;
     services := services n; rpcAPIs := rpcAPIs n;
     inprocHandler := inprocHandler n; ipcEndpoint := ipcEndpoint n;
     ipcListener := ipcListener n; ipcHandler := ipcHandler n;
     httpEndpoint := v; httpWhitelist := httpWhitelist n;
     httpListenerAddr := httpListenerAddr n; httpServer := httpServer n;
     httpHandler := httpHandler n; wsEndpoint := wsEndpoint n;
     wsListenerAddr := wsListenerAddr n; wsHTTPServer := wsHTTPServer n;
     wsHandler := wsHandler n; stop := stop n |}.

Definition set_httpListenerAddr (v : option string) (n : Node) : Node :=
  {| config := config n; ephemeralKeystore := ephemeralKeystore n;
     instanceDirLock := instanceDirLock n; serverConfig := serverConfig n;
     server := server n; serviceFuncs := serviceFuncs n;
     services := services n; rpcAPIs := rpcAPIs n;
     inprocHandler := inprocHandler n; ipcEndpoint := ipcEndpoint n;
     ipcListener := ipcListener n; ipcHandler := ipcHandler n;
     httpEndpoint := httpEndpoint n; httpWhitelist := httpWhitelist n;
     httpListenerAddr := v; httpServer := httpServer n;
     httpHandler := httpHandler n; wsEndpoint := wsEndpoint n;
     wsListenerAddr := wsListenerAddr n; wsHTTPServer := wsHTTPServer n;
     wsHandler := wsHandler n; stop := stop n |}.

Definition set_httpServer (v : option HTTPServer) (n : Node) : Node :=
  {| config := config n; ephemeralKeystore := ephemeralKeystore n;
     instanceDirLock := instanceDirLock n; serverConfig := serverConfig n;
     server := server n; serviceFuncs := serviceFuncs n;
     services := services n; rpcAPIs := rpcAPIs n;
     inprocHandler := inprocHandler n; ipcEndpoint := ipcEndpoint n;
     ipcListener := ipcListener n; ipcHandler := ipcHandler n;
     httpEndpoint := httpEndpoint n; httpWhitelist := httpWhitelist n;
     httpListenerAddr := httpListenerAddr n; httpServer := v;
     httpHandler := httpHandler n; wsEndpoint := wsEndpoint n;
     wsListenerAddr := wsListenerAddr n; wsHTTPServer := wsHTTPServer n;
     wsHandler := wsHandler n; stop := stop n |}.

Definition set_httpHandler (v : option rpc.Server) (n : Node) : Node :=
  {| config := config n; ephemeralKeystore := ephemeralKeystore n;
     instanceDirLock := instanceDirLock n; serverConfig := serverConfig n;
     server := server n; serviceFuncs := serviceFuncs n;
     services := services n; rpcAPIs := rpcAPIs n;
     inprocHandler := inprocHandler n; ipcEndpoint := ipcEndpoint n;
     ipcListener := ipcListener n; ipcHandler := ipcHandler n;
     httpEndpoint := httpEndpoint n; httpWhitelist := httpWhitelist n;
     httpListenerAddr := httpListenerAddr n; httpServer := httpServer n;
     httpHandler := v; wsEndpoint := wsEndpoint n;
     wsListenerAddr := wsListenerAddr n; wsHTTPServer := wsHTTPServer n;
     wsHandler := wsHandler n; stop := stop n |}.

Definition set_wsEndpoint (v : string) (n : Node) : Node :=
  {| config := config n; ephemeralKeystore := ephemeralKeystore n;
     instanceDirLock := instanceDirLock n; serverConfig := serverConfig n;
     server := server n; serviceFuncs := serviceFuncs n;
     services := services n; rpcAPIs := rpcAPIs n;
     inprocHandler := inprocHandler n; ipcEndpoint := ipcEndpoint n;
     ipcListener := ipcListener n; ipcHandler := ipcHandler n;
     httpEndpoint := httpEndpoint n; httpWhitelist := httpWhitelist n;
     httpListenerAddr := httpListenerAddr n; httpServer := httpServer n;
     httpHandler := httpHandler n; wsEndpoint := v;
     wsListenerAddr := wsListenerAddr n; wsHTTPServer := wsHTTPServer n;
     wsHandler := wsHandler n; stop := stop n |}.

Definition set_wsListenerAddr (v : option string) (n : Node) : Node :=
  {| config := config n; ephemeralKeystore := ephemeralKeystore n;
     instanceDirLock := instanceDirLock n; serverConfig := serverConfig n;
     server := server n; serviceFuncs := serviceFuncs n;
     services := services n; rpcAPIs := rpcAPIs n;
     inprocHandler := inprocHandler n; ipcEndpoint := ipcEndpoint n;
     ipcListener := ipcListener n; ipcHandler := ipcHandler n;
     httpEndpoint := httpEndpoint n; httpWhitelist := httpWhitelist n;
     httpListenerAddr := httpListenerAddr n; httpServer := httpServer n;
     httpHandler := httpHandler n; wsEndpoint := wsEndpoint n;
     wsListenerAddr := v; wsHTTPServer := wsHTTPServer n;
     wsHandler := wsHandler n; stop := stop n |}.

Definition set_wsHTTPServer (v : option HTTPServer) (n : Node) : Node :=
  {| config := config n; ephemeralKeystore := ephemeralKeystore n;
     instanceDirLock := instanceDirLock n; serverConfig := serverConfig n;
     server := server n; serviceFuncs := serviceFuncs n;
     services := services n; rpcAPIs := rpcAPIs n;
     inprocHandler := inprocHandler n; ipcEndpoint := ipcEndpoint n;
     ipcListener := ipcListener n; ipcHandler := ipcHandler n;
     httpEndpoint := httpEndpoint n; httpWhitelist := httpWhitelist n;
     httpListenerAddr := httpListenerAddr n; httpServer := httpServer n;
     httpHandler := httpHandler n; wsEndpoint := wsEndpoint n;
     wsListenerAddr := wsListenerAddr n; wsHTTPServer := v;
     wsHandler := wsHandler n; stop := stop n |}.

Definition set_wsHandler (v : option rpc.Server) (n : Node) : Node :=
  {| config := config n; ephemeralKeystore := ephemeralKeystore n;
     instanceDirLock := instanceDirLock n; serverConfig := serverConfig n;
     server := server n; serviceFuncs := serviceFuncs n;
     services := services n; rpcAPIs := rpcAPIs n;
     inprocHandler := inprocHandler n; ipcEndpoint := ipcEndpoint n;
     ipcListener := ipcListener n; ipcHandler := ipcHandler n;
     httpEndpoint := httpEndpoint n; httpWhitelist := httpWhitelist n;
     httpListenerAddr := httpListenerAddr n; httpServer := httpServer n;
     httpHandler := httpHandler n; wsEndpoint := wsEndpoint n;
     wsListenerAddr := wsListenerAddr n; wsHTTPServer := wsHTTPServer n;
     wsHandler := v; stop := stop n |}.

Definition set_stop (v : option bool) (n : Node) : Node :=
  {| config := config n; ephemeralKeystore := ephemeralKeystore n;
     instanceDirLock := instanceDirLock n; serverConfig := serverConfig n;
     server := server n; serviceFuncs := serviceFuncs n;
     services := services n; rpcAPIs := rpcAPIs n;
     inprocHandler := inprocHandler n; ipcEndpoint := ipcEndpoint n;
     ipcListener := ipcListener n; ipcHandler := ipcHandler n;
     httpEndpoint := httpEndpoint n; httpWhitelist := httpWhitelist n;
     httpListenerAddr := httpListenerAddr n; httpServer := httpServer n;
     httpHandler := httpHandler n; wsEndpoint := wsEndpoint n;
     wsListenerAddr := wsListenerAddr n; wsHTTPServer := wsHTTPServer n;
     wsHandler := wsHandler n; stop := v |}.

(** ** Calls on the outside world

    Every call a method makes on a collaborator that changes something
    outside the [Node] struct is recorded, in program order. *)

Inductive Transport : Type := InProc | IPC | HTTP | WS.

Inductive Event : Type :=
| EvMkdirAll (dir : string)
    (** [os.MkdirAll] created the directory *)
| EvFlock (path : string)
    (** [fileutil.Flock] took the lock *)
| EvRelease (path : string)
    (** [Release] was called on the lock *)
| EvConstruct (i : nat) (produced : option ReflectType)
    (** the i-th constructor was called; it returned a service of that
        type, or an error *)
| EvServerStart (ok : bool)
    (** [running.Start()] was called; [ok] tells whether it returned nil *)
| EvServerStop
    (** [Stop()] was called on the peer-transport server *)
| EvServiceStart (kind : ReflectType) (ok : bool)
    (** [Start] was called on the service of that type; [ok] tells whether
        it returned nil *)
| EvServiceStop (kind : ReflectType)
    (** [Stop] was called on the service of that type *)
| EvListen (t : Transport) (endpoint : string)
    (** a listener was bound for that transport *)
| EvListenerClose (t : Transport)
    (** [Close] (IPC) or [Shutdown] (HTTP, WS) on the listener or server *)
| EvHandlerStop (t : Transport)
    (** [Stop()] on the transport's [*rpc.Server] *)
| EvCloseStop
    (** [close(n.stop)] *)
| EvRemoveAll (path : string)
| EvLogError (msg : string) (ctx : list string).

(** The [range] loops over the service map, one per place in the source. *)
Inductive RangeSite : Type :=
| RangeProtocols   (* node.go, Start: collecting the protocols *)
| RangeStart       (* node.go, Start: starting the services *)
| RangeRollback    (* node.go, Start: stopping after startRPC failed *)
| RangeAPIs        (* node.go, startRPC: collecting the APIs *)
| RangeStop.       (* node.go, Stop: stopping the services *)

(** What the collaborators answer.  Everything the node calls outside
    this package, and the order of map iteration, is read from here. *)
Record Env : Type := {
  (* os, path/filepath, fileutil *)
  progname : string;
  os_MkdirAll : string -> option Error;
  fileutil_Flock : string -> option Error;
  Release : string -> option Error;
  os_RemoveAll : string -> option Error;
  filepath_Abs : string -> Error + string;
  (* errors.go *)
  convertFileLockError : Error -> Error;
  (* config.go, functions that read files or the platform *)
  Config_NodeKey : Config -> string;
  Config_NodeName : Config -> string;
  Config_StaticNodes : Config -> option (list string);
  Config_TrustedNodes : Config -> option (list string);
  Config_NodeDB : Config -> string;
  Config_IPCEndpoint : Config -> string;
  makeAccountManager : Config -> Error + string;
  (* p2p *)
  p2p_Server_Start : p2p.Server -> option Error;
  (* rpc *)
  rpc_RegisterName : string -> rpc.Receiver -> option Error;
  rpc_StartIPCEndpoint : string -> list rpc.API -> Error + rpc.Server;
  (* net *)
  net_Listen : Transport -> string -> Error + string;
  (* strings *)
  strings_ToLower : string -> string;
  (* the Go runtime *)
  rangeOrder : RangeSite -> ServiceMap -> ServiceMap
}.

(** Go visits every entry of a map once, in an order of its choosing. *)
Definition EnvOK (e : Env) : Prop :=
  forall site m, Permutation (rangeOrder e site m) m.

(** [Config.name] *)
Definition Config_name (e : Env) (c : Config) : string :=
  if String.eqb (Name c) "" then progname e else Name c.

(** ** The monad of node methods: state of the struct, trace of calls *)

Definition M (A : Type) : Type := Node -> A * Node * list Event.

Definition ret {A} (a : A) : M A := fun n => (a, n, []).

Definition bind {A B} (m : M A) (k : A -> M B) : M B :=
  fun n =>
    match m n with
    | (a, n1, t1) =>
        match k a n1 with
        | (b, n2, t2) => (b, n2, t1 ++ t2)
        end
    end.

Definition get : M Node := fun n => (n, n, []).
Definition modify (f : Node -> Node) : M unit := fun n => (tt, f n, []).
Definition emit (ev : Event) : M unit := fun n => (tt, n, [ev]).
Definition emits (evs : list Event) : M unit := fun n => (tt, n, evs).

Declare Scope node_scope.
Delimit Scope node_scope with node.
Notation "x <- m ;; k" := (bind m (fun x => k))
  (at level 61, m at next level, right associativity) : node_scope.
Notation "m ;; k" := (bind m (fun _ => k))
  (at level 61, right associativity) : node_scope.
Local Open Scope node_scope.

(** Result, final struct and trace of running a method. *)
Definition result {A} (r : A * Node * list Event) : A := fst (fst r).
Definition final {A} (r : A * Node * list Event) : Node := snd (fst r).
Definition trace {A} (r : A * Node * list Event) : list Event := snd r.

Definition isSome {A} (o : option A) : bool :=
  match o with Some _ => true | None => false end.

(** ** The HTTP handler stack (rpcstack) *)

Record Request : Type := {
  Host : string;
  Header : list (string * string)
}.

(** [r.Header.Get(key)]: the first value stored under the key, or [""]. *)
Fixpoint Header_Get (h : list (string * string)) (key : string) : string :=
  match h with
  | [] => ""
  | (k, v) :: r => if String.eqb k key then v else Header_Get r key
  end.

(** What a handler does to its [http.ResponseWriter], in program order. *)
Inductive WOp : Type :=
| HeaderSet (key value : string)
| HeaderDel (key : string)
| WriteHeader (status : Z)
| Write (b : string)
| GzipWrite (b : string)
| GzipClose
| LogDebug (msg : string).

Definition StatusForbidden : Z := 403.

(** Collaborators of the handler stack at request time: packages [net]
    and [strings] ([req_ToLower] is [strings.ToLower]), the cors library
    and the handlers served by [*rpc.Server]. *)
Record HTTPEnv : Type := {
  req_ToLower : string -> string;
  net_SplitHostPort : string -> Error + (string * string);
  net_ParseIP : string -> bool;
  cors_Handler :
    list string -> (Request -> list WOp) -> Request -> list WOp;
  rpc_ServeHTTP : rpc.Server -> Request -> list WOp;
  rpc_ServeWS : rpc.Server -> list string -> Request -> list WOp
}.

(** [http.Error(w, msg, code)] *)
Definition http_Error (msg : string) (code : Z) : list WOp :=
  [ HeaderSet "Content-Type" "text/plain; charset=utf-8";
    HeaderSet "X-Content-Type-Options" "nosniff";
    WriteHeader code;
    Write (msg ++ String (ascii_of_nat 10) "") ].

(** The writes of the wrapped handler as they pass through
    [gzipResponseWriter]. *)
Definition gzipResponseWriter (op : WOp) : list WOp :=
  match op with
  | WriteHeader status => [HeaderDel "Content-Length"; WriteHeader status]
  | Write b => [GzipWrite b]
  | other => [other]
  end.

(** [ToLower] is [strings.ToLower]. *)
Definition isWebsocket (ToLower : string -> string) (r : Request) : bool :=
  String.eqb (ToLower (Header_Get (Header r) "Upgrade")) "websocket"
  && String.eqb (ToLower (Header_Get (Header r) "Connection")) "upgrade".

Definition setHas (s : list string) (k : string) : bool :=
  existsb (String.eqb k) s.

(** The host the virtual-host check looks up: [r.Host] without its port. *)
Definition hostOnly (x : HTTPEnv) (r : Request) : string :=
  match net_SplitHostPort x (Host r) with
  | inr (host, _) => host
  | inl _ => Host r
  end.

Fixpoint ServeHTTP (x : HTTPEnv) (h : Handler) (r : Request) : list WOp :=
  match h with
  | RPCHandler srv => rpc_ServeHTTP x srv r
  | WebsocketHandler srv origins => rpc_ServeWS x srv origins r
  | corsHandler allowed next => cors_Handler x allowed (ServeHTTP x next) r
  | virtualHostHandler vhosts next =>
      if String.eqb (Host r) "" then ServeHTTP x next r
      else
        let host := hostOnly x r in
        if net_ParseIP x host then ServeHTTP x next r
        else if setHas vhosts "*" then ServeHTTP x next r
        else if setHas vhosts host then ServeHTTP x next r
        else http_Error "invalid host specified" StatusForbidden
  | gzipHandler next =>
      if negb (GoStrings.Contains (Header_Get (Header r) "Accept-Encoding") "gzip")
      then ServeHTTP x next r
      else
        [HeaderSet "Content-Encoding" "gzip"]
        ++ flat_map gzipResponseWriter (ServeHTTP x next r)
        ++ [GzipClose]
  | websocketUpgradeHandler h' ws =>
      if isWebsocket (req_ToLower x) r
      then ServeHTTP x ws r ++ [LogDebug "serving websocket request"]
      else ServeHTTP x h' r
  end.

Definition newCorsHandler (srv : Handler) (allowedOrigins : list string)
  : Handler :=
  if (length allowedOrigins =? 0)%nat then srv
  else corsHandler allowedOrigins srv.

(** [ToLower] is [strings.ToLower]. *)
Definition newVHostHandler (ToLower : string -> string)
  (vhosts : list string) (next : Handler) : Handler :=
  virtualHostHandler (map ToLower vhosts) next.

Definition newGzipHandler (next : Handler) : Handler := gzipHandler next.

Definition NewHTTPHandlerStack (ToLower : string -> string) (srv : Handler)
  (cors vhosts : list string) : Handler :=
  let handler := newCorsHandler srv cors in
  let handler := newVHostHandler ToLower vhosts handler in
  newGzipHandler handler.

Definition NewWebsocketUpgradeHandler (h ws : Handler) : Handler :=
  websocketUpgradeHandler h ws.

(** ** Endpoints *)

(** [srv.RegisterName(name, receiver)] *)
Definition RegisterName (e : Env) (srv : rpc.Server) (name : string)
  (receiver : rpc.Receiver) : Error + rpc.Server :=
  match rpc_RegisterName e name receiver with
  | Some err => inl err
  | None => inr {| rpc.registered := rpc.registered srv ++ [(name, receiver)] |}
  end.

Definition namespaces (apis : list rpc.API) : list string :=
  map rpc.Namespace apis.

(** Modelled from the spec: [checkModuleAvailability] of endpoints.go,
    which is not among the sources.  It returns the requested namespaces
    that are absent from the available API set, and the available
    namespaces. *)
Definition checkModuleAvailability (modules : list string)
  (apis : list rpc.API) : list string * list string :=
  (filter (fun name => negb (setHas (namespaces apis) name)) modules,
   nodup string_dec (namespaces apis)).

(** The map [whitelist] built from the module list. *)
Definition makeWhitelist (modules : list string) : list (string * bool) :=
  fold_left (fun w module => mapSet w module true) modules [].

(** [whitelist[name]]: [false] when the key is absent. *)
Definition whitelistGet (whitelist : list (string * bool)) (name : string)
  : bool :=
  match mapGet whitelist name with Some b => b | None => false end.

(** The condition under which the loop registers an API. *)
Definition exposed (whitelist : list (string * bool)) (exposeAll : bool)
  (api : rpc.API) : bool :=
  exposeAll || whitelistGet whitelist (rpc.Namespace api)
  || ((length whitelist =? 0)%nat && rpc.Public api).

Fixpoint registerExposed (e : Env) (whitelist : list (string * bool))
  (exposeAll : bool) (apis : list rpc.API) (srv : rpc.Server)
  : option Error * rpc.Server :=
  match apis with
  | [] => (None, srv)
  | api :: rest =>
      if exposed whitelist exposeAll api then
        match RegisterName e srv (rpc.Namespace api) (rpc.Service api) with
        | inl err => (Some err, srv)
        | inr srv' => registerExposed e whitelist exposeAll rest srv'
        end
      else registerExposed e whitelist exposeAll rest srv
  end.

(** Returns the error, the server after the registrations made, and the
    lines logged. *)
Definition RegisterApisFromWhitelist (e : Env) (apis : list rpc.API)
  (modules : list string) (srv : rpc.Server) (exposeAll : bool)
  : option Error * rpc.Server * list Event :=
  let (bad, available) := checkModuleAvailability modules apis in
  let logged :=
    if (0 <? length bad)%nat
    then [EvLogError "Unavailable modules in HTTP API list" bad]
    else [] in
  (registerExposed e (makeWhitelist modules) exposeAll apis srv, logged).

(** Modelled from the spec: [StartHTTPEndpoint] of endpoints.go, which is
    not among the sources.  It binds a listener to the endpoint and serves
    the handler on it; it returns the server and the bound address. *)
Definition StartHTTPEndpoint (e : Env) (endpoint : string)
  (timeouts : rpc.HTTPTimeouts) (handler : Handler)
  : Error + (HTTPServer * string) :=
  match net_Listen e HTTP endpoint with
  | inl err => inl err
  | inr addr => inr ({| hsHandler := handler; hsAddr := addr |}, addr)
  end.

(** Modelled from the spec: [startWSEndpoint] of endpoints.go, which is
    not among the sources.  It binds a listener of its own to the
    endpoint and serves the WebSocket handler on it. *)
Definition startWSEndpoint (e : Env) (endpoint : string) (handler : Handler)
  : Error + (HTTPServer * string) :=
  match net_Listen e WS endpoint with
  | inl err => inl err
  | inr addr => inr ({| hsHandler := handler; hsAddr := addr |}, addr)
  end.

(** ** node.go *)

Definition set_DataDir (v : string) (c : Config) : Config :=
  {| Name := Name c; DataDir := v; P2P := P2P c; IPCPath := IPCPath c;
     HTTPHost := HTTPHost c; HTTPPort := HTTPPort c; HTTPCors := HTTPCors c;
     HTTPVirtualHosts := HTTPVirtualHosts c; HTTPModules := HTTPModules c;
     HTTPTimeouts := HTTPTimeouts c; WSHost := WSHost c; WSPort := WSPort c;
     WSOrigins := WSOrigins c; WSModules := WSModules c;
     WSExposeAll := WSExposeAll c |}.

(** [New]: a copy of the configuration is validated and the struct is
    filled in; every field not named in the literal has its zero value.
    The error texts are written without the quotation marks of the
    source. *)
Definition New (e : Env) (conf : Config) : Error + Node :=
  let absolute :=
    if negb (String.eqb (DataDir conf) "") then
      match filepath_Abs e (DataDir conf) with
      | inl err => inl err
      | inr absdatadir => inr (set_DataDir absdatadir conf)
      end
    else inr conf in
  match absolute with
  | inl err => inl err
  | inr conf =>
      if GoStrings.ContainsAny (Name conf) ["/"%char; "\"%char] then
        inl (ErrorString "Config.Name must not contain '/' or '\'")
      else if String.eqb (Name conf) datadirDefaultKeyStore then
        inl (ErrorString "Config.Name cannot be keystore")
      else if GoStrings.HasSuffix (Name conf) ".ipc" then
        inl (ErrorString "Config.Name cannot end in .ipc")
      else
        match makeAccountManager e conf with
        | inl err => inl err
        | inr ephemeral =>
            inr {| config := conf;
                   ephemeralKeystore := ephemeral;
                   instanceDirLock := None;
                   serverConfig := p2p.zeroConfig;
                   server := None;
                   serviceFuncs := [];
                   services := None;
                   rpcAPIs := [];
                   inprocHandler := None;
                   ipcEndpoint := Config_IPCEndpoint e conf;
                   ipcListener := None;
                   ipcHandler := None;
                   httpEndpoint := Config_HTTPEndpoint conf;
                   httpWhitelist := [];
                   httpListenerAddr := None;
                   httpServer := None;
                   httpHandler := None;
                   wsEndpoint := Config_WSEndpoint conf;
                   wsListenerAddr := None;
                   wsHTTPServer := None;
                   wsHandler := None;
                   stop := None |}
        end
  end.

Definition Register (constructor : ServiceConstructor) : M (option Error) :=
  n <- get ;;
  if isSome (server n) then ret (Some ErrNodeRunning)
  else
    modify (set_serviceFuncs (serviceFuncs n ++ [constructor])) ;;
    ret None.

Definition openDataDir (e : Env) : M (option Error) :=
  n <- get ;;
  if String.eqb (DataDir (config n)) "" then ret None
  else
    let instdir := filepath_Join (DataDir (config n)) (Config_name e (config n)) in
    match os_MkdirAll e instdir with
    | Some err => ret (Some err)
    | None =>
        emit (EvMkdirAll instdir) ;;
        match fileutil_Flock e (filepath_Join instdir "LOCK") with
        | Some err => ret (Some (convertFileLockError e err))
        | None =>
            emit (EvFlock (filepath_Join instdir "LOCK")) ;;
            modify (set_instanceDirLock (Some (filepath_Join instdir "LOCK"))) ;;
            ret None
        end
    end.

(** The peer-transport configuration [Start] stores in [n.serverConfig]. *)
Definition makeServerConfig (e : Env) (n : Node) : p2p.Config :=
  let c := P2P (config n) in
  {| p2p.PrivateKey := Some (Config_NodeKey e (config n));
     p2p.Name := Config_NodeName e (config n);
     p2p.StaticNodes :=
       match p2p.StaticNodes c with
       | None => Config_StaticNodes e (config n)
       | Some l => Some l
       end;
     p2p.TrustedNodes :=
       match p2p.TrustedNodes c with
       | None => Config_TrustedNodes e (config n)
       | Some l => Some l
       end;
     p2p.NodeDatabase :=
       if String.eqb (p2p.NodeDatabase c) "" then Config_NodeDB e (config n)
       else p2p.NodeDatabase c;
     p2p.ListenAddr := p2p.ListenAddr c |}.

(** The loop over [n.serviceFuncs]: builds the service map, or stops at
    the first constructor error or duplicate type. *)
Fixpoint constructServices (conf : Config) (i : nat)
  (funcs : list ServiceConstructor) (services : ServiceMap)
  : (Error + ServiceMap) * list Event :=
  match funcs with
  | [] => (inr services, [])
  | constructor :: rest =>
      let ctx := {| ctxServices := services; ctxConfig := conf |} in
      match constructor ctx with
      | inl err => (inl err, [EvConstruct i None])
      | inr service =>
          let kind := svcTypeOf service in
          if mapHas services kind then
            (inl (DuplicateServiceError kind), [EvConstruct i (Some kind)])
          else
            let r := constructServices conf (S i) rest
                       (mapSet services kind service) in
            (fst r, EvConstruct i (Some kind) :: snd r)
      end
  end.

(** [for _, kind := range started { services[kind].Stop() }]; every
    element of [started] is a key of [services]. *)
Definition stopStarted (services : ServiceMap) (started : list ReflectType)
  : list Event :=
  flat_map (fun kind => if mapHas services kind then [EvServiceStop kind] else [])
           started.

(** The loop that starts the services, with its rollback. *)
Fixpoint startServices (running : p2p.Server) (services : ServiceMap)
  (todo : ServiceMap) (started : list ReflectType)
  : option Error * list Event :=
  match todo with
  | [] => (None, [])
  | (kind, service) :: rest =>
      match svcStart service running with
      | Some err =>
          (Some err,
           EvServiceStart kind false
             :: stopStarted services started ++ [EvServerStop])
      | None =>
          let r := startServices running services rest (started ++ [kind]) in
          (fst r, EvServiceStart kind true :: snd r)
      end
  end.

(** [n.apis()]: the built-in APIs. *)
Definition apis : list rpc.API :=
  [ {| rpc.Namespace := "admin"; rpc.Version := "1.0";
       rpc.Service := rpc.PrivateAdminAPI; rpc.Public := false |};
    {| rpc.Namespace := "admin"; rpc.Version := "1.0";
       rpc.Service := rpc.PublicAdminAPI; rpc.Public := true |};
    {| rpc.Namespace := "debug"; rpc.Version := "1.0";
       rpc.Service := rpc.DebugHandler; rpc.Public := false |};
    {| rpc.Namespace := "web3"; rpc.Version := "1.0";
       rpc.Service := rpc.PublicWeb3API; rpc.Public := true |} ].

Fixpoint registerAll (e : Env) (apis : list rpc.API) (handler : rpc.Server)
  : Error + rpc.Server :=
  match apis with
  | [] => inr handler
  | api :: rest =>
      match RegisterName e handler (rpc.Namespace api) (rpc.Service api) with
      | inl err => inl err
      | inr handler' => registerAll e rest handler'
      end
  end.

Definition startInProc (e : Env) (apis : list rpc.API) : M (option Error) :=
  match registerAll e apis rpc.NewServer with
  | inl err => ret (Some err)
  | inr handler => modify (set_inprocHandler (Some handler)) ;; ret None
  end.

Definition stopInProc : M unit :=
  n <- get ;;
  match inprocHandler n with
  | Some _ => emit (EvHandlerStop InProc) ;; modify (set_inprocHandler None)
  | None => ret tt
  end.

Definition startIPC (e : Env) (apis : list rpc.API) : M (option Error) :=
  n <- get ;;
  if String.eqb (ipcEndpoint n) "" then ret None
  else
    match rpc_StartIPCEndpoint e (ipcEndpoint n) apis with
    | inl err => ret (Some err)
    | inr handler =>
        emit (EvListen IPC (ipcEndpoint n)) ;;
        modify (set_ipcListener (Some (ipcEndpoint n))) ;;
        modify (set_ipcHandler (Some handler)) ;;
        ret None
    end.

Definition stopIPC : M unit :=
  n <- get ;;
  (match ipcListener n with
   | Some _ => emit (EvListenerClose IPC) ;; modify (set_ipcListener None)
   | None => ret tt
   end) ;;
  n <- get ;;
  match ipcHandler n with
  | Some _ => emit (EvHandlerStop IPC) ;; modify (set_ipcHandler None)
  | None => ret tt
  end.

Definition startHTTP (e : Env) (endpoint : string) (apis : list rpc.API)
  (modules cors vhosts : list string) (timeouts : rpc.HTTPTimeouts)
  (wsOrigins : list string) : M (option Error) :=
  if String.eqb endpoint "" then ret None
  else
    let reg := RegisterApisFromWhitelist e apis modules rpc.NewServer false in
    let srv := snd (fst reg) in
    emits (snd reg) ;;
    match fst (fst reg) with
    | Some err => ret (Some err)
    | None =>
        n <- get ;;
        let handler :=
          NewHTTPHandlerStack (strings_ToLower e) (RPCHandler srv) cors vhosts in
        let handler :=
          if String.eqb (httpEndpoint n) (wsEndpoint n)
          then NewWebsocketUpgradeHandler handler (WebsocketHandler srv wsOrigins)
          else handler in
        match StartHTTPEndpoint e endpoint timeouts handler with
        | inl err => ret (Some err)
        | inr (httpServer, addr) =>
            emit (EvListen HTTP endpoint) ;;
            modify (set_httpEndpoint endpoint) ;;
            modify (set_httpListenerAddr (Some addr)) ;;
            modify (set_httpServer (Some httpServer)) ;;
            modify (set_httpHandler (Some srv)) ;;
            ret None
        end
    end.

Definition stopHTTP : M unit :=
  n <- get ;;
  (match httpServer n with
   | Some _ => emit (EvListenerClose HTTP)
   | None => ret tt
   end) ;;
  match httpHandler n with
  | Some _ => emit (EvHandlerStop HTTP) ;; modify (set_httpHandler None)
  | None => ret tt
  end.

Definition startWS (e : Env) (endpoint : string) (apis : list rpc.API)
  (modules wsOrigins : list string) (exposeAll : bool) : M (option Error) :=
  if String.eqb endpoint "" then ret None
  else
    let reg := RegisterApisFromWhitelist e apis modules rpc.NewServer exposeAll in
    let srv := snd (fst reg) in
    let handler := WebsocketHandler srv wsOrigins in
    emits (snd reg) ;;
    match fst (fst reg) with
    | Some err => ret (Some err)
    | None =>
        match startWSEndpoint e endpoint handler with
        | inl err => ret (Some err)
        | inr (httpServer, addr) =>
            emit (EvListen WS endpoint) ;;
            modify (set_wsEndpoint endpoint) ;;
            modify (set_wsListenerAddr (Some addr)) ;;
            modify (set_wsHTTPServer (Some httpServer)) ;;
            modify (set_wsHandler (Some srv)) ;;
            ret None
        end
    end.

Definition stopWS : M unit :=
  n <- get ;;
  (match wsHTTPServer n with
   | Some _ => emit (EvListenerClose WS)
   | None => ret tt
   end) ;;
  match wsHandler n with
  | Some _ => emit (EvHandlerStop WS) ;; modify (set_wsHandler None)
  | None => ret tt
  end.

Definition startRPC (e : Env) (services : ServiceMap) : M (option Error) :=
  let apis :=
    apis ++ flat_map (fun ks => svcAPIs (snd ks)) (rangeOrder e RangeAPIs services) in
  err <- startInProc e apis ;;
  match err with
  | Some err => ret (Some err)
  | None =>
  err <- startIPC e apis ;;
  match err with
  | Some err => stopInProc ;; ret (Some err)
  | None =>
  n <- get ;;
  err <- startHTTP e (httpEndpoint n) apis (HTTPModules (config n))
           (HTTPCors (config n)) (HTTPVirtualHosts (config n))
           (HTTPTimeouts (config n)) (WSOrigins (config n)) ;;
  match err with
  | Some err => stopIPC ;; stopInProc ;; ret (Some err)
  | None =>
  n <- get ;;
  err <- (if negb (String.eqb (httpEndpoint n) (wsEndpoint n))
          then startWS e (wsEndpoint n) apis (WSModules (config n))
                 (WSOrigins (config n)) (WSExposeAll (config n))
          else ret None) ;;
  match err with
  | Some err => stopHTTP ;; stopIPC ;; stopInProc ;; ret (Some err)
  | None => modify (set_rpcAPIs apis) ;; ret None
  end end end end.

Definition Start (e : Env) : M (option Error) :=
  n <- get ;;
  if isSome (server n) then ret (Some ErrNodeRunning)
  else
  err <- openDataDir e ;;
  match err with
  | Some err => ret (Some err)
  | None =>
  n <- get ;;
  modify (set_serverConfig (makeServerConfig e n)) ;;
  n <- get ;;
  let built := constructServices (config n) 0 (serviceFuncs n) [] in
  emits (snd built) ;;
  match fst built with
  | inl err => ret (Some err)
  | inr services =>
  let running :=
    {| p2p.SrvConfig := serverConfig n;
       p2p.Protocols :=
         flat_map (fun ks => svcProtocols (snd ks))
                  (rangeOrder e RangeProtocols services) |} in
  match p2p_Server_Start e running with
  | Some err =>
      emit (EvServerStart false) ;;
      ret (Some (convertFileLockError e err))
  | None =>
  emit (EvServerStart true) ;;
  let started :=
    startServices running services (rangeOrder e RangeStart services) [] in
  emits (snd started) ;;
  match fst started with
  | Some err => ret (Some err)
  | None =>
  err <- startRPC e services ;;
  match err with
  | Some err =>
      emits (map (fun ks => EvServiceStop (fst ks))
                 (rangeOrder e RangeRollback services)) ;;
      emit EvServerStop ;;
      ret (Some err)
  | None =>
      modify (set_services (Some services)) ;;
      modify (set_server (Some running)) ;;
      modify (set_stop (Some false)) ;;
      ret None
  end end end end end.

(** The loop of [Stop] over [n.services]: every service is stopped, the
    errors are gathered in [failure.Services]. *)
Fixpoint stopServices (todo : ServiceMap) (failure : list (string * Error))
  : list (string * Error) * list Event :=
  match todo with
  | [] => (failure, [])
  | (kind, service) :: rest =>
      let failure' :=
        match svcStop service with
        | Some err => mapSet failure kind err
        | None => failure
        end in
      let r := stopServices rest failure' in
      (fst r, EvServiceStop kind :: snd r)
  end.

Definition servicesOf (n : Node) : ServiceMap :=
  match services n with Some m => m | None => [] end.

Definition Stop (e : Env) : M (option Error) :=
  n <- get ;;
  if negb (isSome (server n)) then ret (Some ErrNodeStopped)
  else
  stopWS ;;
  stopHTTP ;;
  stopIPC ;;
  modify (set_rpcAPIs []) ;;
  let stopped := stopServices (rangeOrder e RangeStop (servicesOf n)) [] in
  let failure := fst stopped in
  emits (snd stopped) ;;
  emit EvServerStop ;;
  modify (set_services None) ;;
  modify (set_server None) ;;
  (match instanceDirLock n with
   | Some lock =>
       emit (EvRelease lock) ;;
       (match Release e lock with
        | Some err => emit (EvLogError "Can't release datadir lock" [])
        | None => ret tt
        end) ;;
       modify (set_instanceDirLock None)
   | None => ret tt
   end) ;;
  emit EvCloseStop ;;
  modify (set_stop (Some true)) ;;
  keystoreErr <-
    (if negb (String.eqb (ephemeralKeystore n) "")
     then emit (EvRemoveAll (ephemeralKeystore n)) ;;
          ret (os_RemoveAll e (ephemeralKeystore n))
     else ret None) ;;
  if (0 <? length failure)%nat then ret (Some (StopError failure))
  else
    match keystoreErr with
    | Some err => ret (Some err)
    | None => ret None
    end.

Definition Restart (e : Env) : M (option Error) :=
  err <- Stop e ;;
  match err with
  | Some err => ret (Some err)
  | None =>
      err <- Start e ;;
      match err with
      | Some err => ret (Some err)
      | None => ret None
      end
  end.

(** [Node.Service]: the running service of the requested type. *)
Definition Node_Service (n : Node) (kind : ReflectType) : Error + Service :=
  if negb (isSome (server n)) then inl ErrNodeStopped
  else
    match mapGet (servicesOf n) kind with
    | Some running => inr running
    | None => inl ErrServiceUnknown
    end.

(** [Node.RPCHandler] *)
Definition Node_RPCHandler (n : Node) : Error + rpc.Server :=
  match inprocHandler n with
  | None => inl ErrNodeStopped
  | Some h => inr h
  end.

(** ** api.go: the administrative start and stop of HTTP and WebSocket *)

(** [for _, x := range strings.Split(s, ",")] appending
    [strings.TrimSpace(x)]. *)
Definition splitAndTrim (s : string) : list string :=
  map GoStrings.TrimSpace (GoStrings.Split s ","%char).

Definition StartRPC (e : Env) (host : option string) (port : option Z)
  (cors apis vhosts : option string) : M (bool * option Error) :=
  n <- get ;;
  if isSome (httpHandler n) then
    ret (false, Some (ErrorString ("HTTP RPC already running on " ++ httpEndpoint n)))
  else
    let host :=
      match host with
      | Some h => h
      | None =>
          if negb (String.eqb (HTTPHost (config n)) "") then HTTPHost (config n)
          else DefaultHTTPHost
      end in
    let port :=
      match port with
      | Some p => p
      | None => HTTPPort (config n)
      end in
    let allowedOrigins :=
      match cors with
      | Some c => splitAndTrim c
      | None => HTTPCors (config n)
      end in
    let allowedVHosts :=
      match vhosts with
      | Some _ => splitAndTrim host
      | None => HTTPVirtualHosts (config n)
      end in
    let modules :=
      match apis with
      | Some a => splitAndTrim a
      | None => httpWhitelist n
      end in
    err <- startHTTP e (GoStrings.hostPort host port) (rpcAPIs n) modules
             allowedOrigins allowedVHosts (HTTPTimeouts (config n))
             (WSOrigins (config n)) ;;
    match err with
    | Some err => ret (false, Some err)
    | None => ret (true, None)
    end.

Definition StopRPC : M (bool * option Error) :=
  n <- get ;;
  if negb (isSome (httpHandler n)) then
    ret (false, Some (ErrorString "HTTP RPC not running"))
  else
    stopHTTP ;;
    ret (true, None).

Definition StartWS (e : Env) (host : option string) (port : option Z)
  (allowedOrigins apis : option string) : M (bool * option Error) :=
  n <- get ;;
  if isSome (wsHandler n) then
    ret (false, Some (ErrorString ("WebSocket RPC already running on " ++ wsEndpoint n)))
  else
    let host :=
      match host with
      | Some h => h
      | None =>
          if negb (String.eqb (WSHost (config n)) "") then WSHost (config n)
          else DefaultWSHost
      end in
    let port :=
      match port with
      | Some p => p
      | None => WSPort (config n)
      end in
    let origins :=
      match allowedOrigins with
      | Some o => splitAndTrim o
      | None => WSOrigins (config n)
      end in
    let modules :=
      match apis with
      | Some a => splitAndTrim a
      | None => WSModules (config n)
      end in
    err <- startWS e (GoStrings.hostPort host port) (rpcAPIs n) modules origins
             (WSExposeAll (config n)) ;;
    match err with
    | Some err => ret (false, Some err)
    | None => ret (true, None)
    end.

Definition StopWS : M (bool * option Error) :=
  n <- get ;;
  if negb (isSome (wsHandler n)) then
    ret (false, Some (ErrorString "WebSocket RPC not running"))
  else
    stopWS ;;
    ret (true, None).

(** ** Calls on a node and the states they reach *)

Inductive Call : Type :=
| CallRegister (constructor : ServiceConstructor)
| CallStart
| CallStop
| CallRestart
| CallStartRPC (host : option string) (port : option Z)
    (cors apis vhosts : option string)
| CallStopRPC
| CallStartWS (host : option string) (port : option Z)
    (allowedOrigins apis : option string)
| CallStopWS.

(** The administrative start and stop of a single transport. *)
Definition isAdminCall (c : Call) : bool :=
  match c with
  | CallStartRPC _ _ _ _ _ | CallStopRPC
  | CallStartWS _ _ _ _ | CallStopWS => true
  | _ => false
  end.

(** The struct after a call. *)
Definition after (e : Env) (c : Call) (n : Node) : Node :=
  match c with
  | CallRegister constructor => final (Register constructor n)
  | CallStart => final (Start e n)
  | CallStop => final (Stop e n)
  | CallRestart => final (Restart e n)
  | CallStartRPC host port cors apis vhosts =>
      final (StartRPC e host port cors apis vhosts n)
  | CallStopRPC => final (StopRPC n)
  | CallStartWS host port allowedOrigins apis =>
      final (StartWS e host port allowedOrigins apis n)
  | CallStopWS => final (StopWS n)
  end.

(** States reached from [New] by any sequence of calls. *)
Inductive reachable : Node -> Prop :=
| reach_New (e : Env) (conf : Config) (n : Node) :
    New e conf = inr n -> reachable n
| reach_call (e : Env) (c : Call) (n : Node) :
    EnvOK e -> reachable n -> reachable (after e c n).

(** States reached when the administrative calls are made on a running
    node only. *)
Inductive reachableAdminRunning : Node -> Prop :=
| gated_New (e : Env) (conf : Config) (n : Node) :
    New e conf = inr n -> reachableAdminRunning n
| gated_call (e : Env) (c : Call) (n : Node) :
    EnvOK e -> reachableAdminRunning n ->
    (isAdminCall c = true -> isSome (server n) = true) ->
    reachableAdminRunning (after e c n).

(** No local-socket, HTTP or WebSocket endpoint is active. *)
Definition noExternalEndpoint (n : Node) : Prop :=
  ipcListener n = None /\ ipcHandler n = None /\
  httpHandler n = None /\ wsHandler n = None.

(** ** Concrete surroundings used in the examples *)

Module Demo.

(** A world in which every collaborator succeeds and maps are visited in
    insertion order. *)
Definition quiet : Env :=
  {| progname := "geth";
     os_MkdirAll := fun _ => None;
     fileutil_Flock := fun _ => None;
     Release := fun _ => None;
     os_RemoveAll := fun _ => None;
     filepath_Abs := fun p => inr p;
     convertFileLockError := fun err => err;
     Config_NodeKey := fun _ => "key";
     Config_NodeName := fun c => Name c;
     Config_StaticNodes := fun _ => None;
     Config_TrustedNodes := fun _ => None;
     Config_NodeDB := fun _ => "";
     Config_IPCEndpoint := fun c => IPCPath c;
     makeAccountManager := fun _ => inr "";
     p2p_Server_Start := fun _ => None;
     rpc_RegisterName := fun _ _ => None;
     rpc_StartIPCEndpoint := fun _ apis =>
       inr {| rpc.registered :=
                map (fun a => (rpc.Namespace a, rpc.Service a)) apis |};
     net_Listen := fun _ endpoint => inr endpoint;
     strings_ToLower := GoStrings.ToLower;
     rangeOrder := fun _ m => m |}.

(** The same world, except that the service-start loop visits the map in
    the reverse of insertion order. *)
Definition reversed : Env :=
  {| progname := progname quiet;
     os_MkdirAll := os_MkdirAll quiet;
     fileutil_Flock := fileutil_Flock quiet;
     Release := Release quiet;
     os_RemoveAll := os_RemoveAll quiet;
     filepath_Abs := filepath_Abs quiet;
     convertFileLockError := convertFileLockError quiet;
     Config_NodeKey := Config_NodeKey quiet;
     Config_NodeName := Config_NodeName quiet;
     Config_StaticNodes := Config_StaticNodes quiet;
     Config_TrustedNodes := Config_TrustedNodes quiet;
     Config_NodeDB := Config_NodeDB quiet;
     Config_IPCEndpoint := Config_IPCEndpoint quiet;
     makeAccountManager := makeAccountManager quiet;
     p2p_Server_Start := p2p_Server_Start quiet;
     rpc_RegisterName := rpc_RegisterName quiet;
     rpc_StartIPCEndpoint := rpc_StartIPCEndpoint quiet;
     net_Listen := net_Listen quiet;
     strings_ToLower := strings_ToLower quiet;
     rangeOrder := fun site m =>
       match site with RangeStart => rev m | _ => m end |}.

Definition p2pConfig : p2p.Config :=
  {| p2p.PrivateKey := None; p2p.Name := ""; p2p.StaticNodes := None;
     p2p.TrustedNodes := None; p2p.NodeDatabase := "";
     p2p.ListenAddr := ":30303" |}.

(** A configuration with a data directory and no external endpoint. *)
Definition conf : Config :=
  {| Name := "test"; DataDir := "/data"; P2P := p2pConfig; IPCPath := "";
     HTTPHost := ""; HTTPPort := DefaultHTTPPort; HTTPCors := [];
     HTTPVirtualHosts := ["localhost"]; HTTPModules := ["net"; "web3"];
     HTTPTimeouts := (30, 30, 120)%Z; WSHost := ""; WSPort := DefaultWSPort;
     WSOrigins := []; WSModules := ["net"; "web3"]; WSExposeAll := false |}.

(** A configuration whose instance name ends in ".ipc". *)
Definition badName : Config :=
  {| Name := "node.ipc"; DataDir := "/data"; P2P := p2pConfig; IPCPath := "";
     HTTPHost := ""; HTTPPort := DefaultHTTPPort; HTTPCors := [];
     HTTPVirtualHosts := []; HTTPModules := [];
     HTTPTimeouts := (30, 30, 120)%Z; WSHost := ""; WSPort := DefaultWSPort;
     WSOrigins := []; WSModules := []; WSExposeAll := false |}.

(** HTTP and WebSocket on the same address. *)
Definition sharedConf : Config :=
  {| Name := "test"; DataDir := ""; P2P := p2pConfig; IPCPath := "";
     HTTPHost := "127.0.0.1"; HTTPPort := 8545; HTTPCors := [];
     HTTPVirtualHosts := ["localhost"]; HTTPModules := [];
     HTTPTimeouts := (30, 30, 120)%Z; WSHost := "127.0.0.1"; WSPort := 8545;
     WSOrigins := []; WSModules := []; WSExposeAll := false |}.

Definition service (kind : string) (start stop : option Error) : Service :=
  {| svcTypeOf := kind; svcProtocols := [kind]; svcAPIs := [];
     svcStart := fun _ => start; svcStop := stop |}.

Definition healthy (kind : string) : ServiceConstructor :=
  fun _ => inr (service kind None None).

Definition failingStart (kind : string) : ServiceConstructor :=
  fun _ => inr (service kind (Some (ErrorString "boom")) None).

Definition failingConstructor : ServiceConstructor :=
  fun _ => inl (ErrorString "cannot build").

(** The node [New] returns for a configuration, or a blank one. *)
Definition node (c : Config) : Node :=
  match New quiet c with
  | inr n => n
  | inl _ =>
      {| config := c; ephemeralKeystore := ""; instanceDirLock := None;
         serverConfig := p2p.zeroConfig; server := None; serviceFuncs := [];
         services := None; rpcAPIs := []; inprocHandler := None;
         ipcEndpoint := ""; ipcListener := None; ipcHandler := None;
         httpEndpoint := ""; httpWhitelist := []; httpListenerAddr := None;
         httpServer := None; httpHandler := None; wsEndpoint := "";
         wsListenerAddr := None; wsHTTPServer := None; wsHandler := None;
         stop := None |}
  end.

(** The node after registering the given constructors. *)
Definition registered (c : Config) (funcs : list ServiceConstructor) : Node :=
  fold_left (fun n f => final (Register f n)) funcs (node c).

(** A running node with one service, and an idle one. *)
Definition idle : Node := node conf.

Definition running : Node :=
  after quiet CallStart (after quiet (CallRegister (healthy "A")) idle).

(** Healthy service A, then service B whose start fails. *)
Definition halfStarted : Node :=
  registered conf [healthy "A"; failingStart "B"].

(** One constructor, which returns an error. *)
Definition unbuildable : Node := registered conf [failingConstructor].

Definition failingStop (kind : string) : ServiceConstructor :=
  fun _ => inr (service kind None (Some (ErrorString "stuck"))).

(** A running node with healthy service A and service B whose stop fails. *)
Definition runningTwo : Node :=
  final (Start quiet (registered conf [healthy "A"; failingStop "B"])).

(** Two constructors that return services of the same type. *)
Definition duplicated : Node := registered conf [healthy "A"; healthy "A"].

(** The world of [quiet], except that the instance directory is locked by
    another process. *)
Definition locked : Env :=
  {| progname := progname quiet;
     os_MkdirAll := os_MkdirAll quiet;
     fileutil_Flock := fun _ => Some (ErrorString "resource temporarily unavailable");
     Release := Release quiet;
     os_RemoveAll := os_RemoveAll quiet;
     filepath_Abs := filepath_Abs quiet;
     convertFileLockError := fun _ => ErrDatadirUsed;
     Config_NodeKey := Config_NodeKey quiet;
     Config_NodeName := Config_NodeName quiet;
     Config_StaticNodes := Config_StaticNodes quiet;
     Config_TrustedNodes := Config_TrustedNodes quiet;
     Config_NodeDB := Config_NodeDB quiet;
     Config_IPCEndpoint := Config_IPCEndpoint quiet;
     makeAccountManager := makeAccountManager quiet;
     p2p_Server_Start := p2p_Server_Start quiet;
     rpc_RegisterName := rpc_RegisterName quiet;
     rpc_StartIPCEndpoint := rpc_StartIPCEndpoint quiet;
     net_Listen := net_Listen quiet;
     strings_ToLower := strings_ToLower quiet;
     rangeOrder := rangeOrder quiet |}.

(** The world of [quiet], except that the account manager works in an
    ephemeral keystore whose removal fails. *)
Definition stuckKeystore : Env :=
  {| progname := progname quiet;
     os_MkdirAll := os_MkdirAll quiet;
     fileutil_Flock := fileutil_Flock quiet;
     Release := Release quiet;
     os_RemoveAll := fun _ => Some (ErrorString "directory not empty");
     filepath_Abs := filepath_Abs quiet;
     convertFileLockError := convertFileLockError quiet;
     Config_NodeKey := Config_NodeKey quiet;
     Config_NodeName := Config_NodeName quiet;
     Config_StaticNodes := Config_StaticNodes quiet;
     Config_TrustedNodes := Config_TrustedNodes quiet;
     Config_NodeDB := Config_NodeDB quiet;
     Config_IPCEndpoint := Config_IPCEndpoint quiet;
     makeAccountManager := fun _ => inr "/tmp/go-ethereum-keystore";
     p2p_Server_Start := p2p_Server_Start quiet;
     rpc_RegisterName := rpc_RegisterName quiet;
     rpc_StartIPCEndpoint := rpc_StartIPCEndpoint quiet;
     net_Listen := net_Listen quiet;
     strings_ToLower := strings_ToLower quiet;
     rangeOrder := rangeOrder quiet |}.

(** A running node of that world, without a data directory, with the
    services the given constructors build. *)
Definition ephemeral (funcs : list ServiceConstructor) : Node :=
  match New stuckKeystore sharedConf with
  | inr n =>
      final (Start stuckKeystore
               (fold_left (fun n f => final (Register f n)) funcs n))
  | inl _ => idle
  end.

(** The world of [quiet], except that the WebSocket address is in use. *)
Definition wsBusy : Env :=
  {| progname := progname quiet;
     os_MkdirAll := os_MkdirAll quiet;
     fileutil_Flock := fileutil_Flock quiet;
     Release := Release quiet;
     os_RemoveAll := os_RemoveAll quiet;
     filepath_Abs := filepath_Abs quiet;
     convertFileLockError := convertFileLockError quiet;
     Config_NodeKey := Config_NodeKey quiet;
     Config_NodeName := Config_NodeName quiet;
     Config_StaticNodes := Config_StaticNodes quiet;
     Config_TrustedNodes := Config_TrustedNodes quiet;
     Config_NodeDB := Config_NodeDB quiet;
     Config_IPCEndpoint := Config_IPCEndpoint quiet;
     makeAccountManager := makeAccountManager quiet;
     p2p_Server_Start := p2p_Server_Start quiet;
     rpc_RegisterName := rpc_RegisterName quiet;
     rpc_StartIPCEndpoint := rpc_StartIPCEndpoint quiet;
     net_Listen := fun t endpoint =>
       match t with
       | WS => inl (ErrorString "address already in use")
       | _ => inr endpoint
       end;
     strings_ToLower := strings_ToLower quiet;
     rangeOrder := rangeOrder quiet |}.

(** HTTP and WebSocket on different ports, each with a module list. *)
Definition bothConf : Config :=
  {| Name := "test"; DataDir := "/data"; P2P := p2pConfig; IPCPath := "test.ipc";
     HTTPHost := "127.0.0.1"; HTTPPort := 8545; HTTPCors := [];
     HTTPVirtualHosts := ["localhost"]; HTTPModules := ["web3"];
     HTTPTimeouts := (30, 30, 120)%Z; WSHost := "127.0.0.1"; WSPort := 8546;
     WSOrigins := []; WSModules := ["debug"]; WSExposeAll := false |}.

End Demo.

(** ** Resources held after a trace

    What a trace has acquired and not yet given back: the instance lock,
    the started peer-transport server, started services, bound
    listeners.  A resource counts as given back once its releasing call
    ([Release], [Stop], [Close]) has been made, whatever that call
    returned. *)

Inductive Resource : Type :=
| RLock (path : string)
| RPeerServer
| RService (kind : ReflectType)
| RListener (t : Transport).

Definition Transport_eqb (a b : Transport) : bool :=
  match a, b with
  | InProc, InProc | IPC, IPC | HTTP, HTTP | WS, WS => true
  | _, _ => false
  end.

Definition Resource_eqb (a b : Resource) : bool :=
  match a, b with
  | RLock p, RLock q => String.eqb p q
  | RPeerServer, RPeerServer => true
  | RService k, RService l => String.eqb k l
  | RListener t, RListener u => Transport_eqb t u
  | _, _ => false
  end.

Definition release (r : Resource) (h : list Resource) : list Resource :=
  filter (fun r' => negb (Resource_eqb r' r)) h.

Definition holdStep (h : list Resource) (ev : Event) : list Resource :=
  match ev with
  | EvFlock p => h ++ [RLock p]
  | EvRelease p => release (RLock p) h
  | EvServerStart true => h ++ [RPeerServer]
  | EvServerStop => release RPeerServer h
  | EvServiceStart k true => h ++ [RService k]
  | EvServiceStop k => release (RService k) h
  | EvListen t _ => h ++ [RListener t]
  | EvListenerClose t => release (RListener t) h
  | _ => h
  end.

Definition heldFrom (h : list Resource) (tr : list Event) : list Resource :=
  fold_left holdStep tr h.

Definition held (tr : list Event) : list Resource := heldFrom [] tr.

(** The types of the services whose [Start] was called, in call order. *)
Definition startCalls (tr : list Event) : list ReflectType :=
  flat_map (fun ev => match ev with EvServiceStart k _ => [k] | _ => [] end) tr.

(** The types of the services whose [Stop] was called, in call order. *)
Definition stopCalls (tr : list Event) : list ReflectType :=
  flat_map (fun ev => match ev with EvServiceStop k => [k] | _ => [] end) tr.

(** The types the constructors returned, in construction order. *)
Definition constructed (tr : list Event) : list ReflectType :=
  flat_map (fun ev => match ev with EvConstruct _ (Some k) => [k] | _ => [] end) tr.

(** The listeners a trace bound for one transport. *)
Definition listens (t : Transport) (tr : list Event) : list string :=
  flat_map (fun ev =>
              match ev with
              | EvListen u ep => if Transport_eqb t u then [ep] else []
              | _ => []
              end) tr.

(** A small [net] package and toy handlers for the examples on the
    handler stack: hosts are split at their last colon, and only dotted
    IPv4 literals count as IP addresses. *)

Module DemoHTTP.

Fixpoint splitLastColon (s : string) : option (string * string) :=
  match s with
  | EmptyString => None
  | String c r =>
      match splitLastColon r with
      | Some (h, p) => Some (String c h, p)
      | None => if Ascii.eqb c ":"%char then Some (EmptyString, r) else None
      end
  end.

Definition isDigit (c : ascii) : bool :=
  let n := nat_of_ascii c in ((48 <=? n) && (n <=? 57))%nat.

Fixpoint allDigits (s : string) : bool :=
  match s with
  | EmptyString => true
  | String c r => isDigit c && allDigits r
  end.

Fixpoint decimal (s : string) (acc : nat) : nat :=
  match s with
  | EmptyString => acc
  | String c r => decimal r (10 * acc + (nat_of_ascii c - 48))
  end.

Definition isOctet (s : string) : bool :=
  negb (String.eqb s "") && (String.length s <=? 3)%nat && allDigits s
  && (decimal s 0 <=? 255)%nat.

Definition parseIPv4 (s : string) : bool :=
  let parts := GoStrings.Split s "."%char in
  (length parts =? 4)%nat && forallb isOctet parts.

Definition env : HTTPEnv :=
  {| req_ToLower := GoStrings.ToLower;
     net_SplitHostPort := fun hostport =>
       match splitLastColon hostport with
       | Some hp => inr hp
       | None => inl (ErrorString "missing port in address")
       end;
     net_ParseIP := parseIPv4;
     cors_Handler := fun _ next r => HeaderSet "Vary" "Origin" :: next r;
     rpc_ServeHTTP := fun _ _ => [WriteHeader 200; Write "rpc"];
     rpc_ServeWS := fun _ _ _ => [WriteHeader 101] |}.

Definition srv : Handler := RPCHandler rpc.NewServer.

(** An HTTP/1.0 request without a Host header. *)
Definition noHost : Request := {| Host := ""; Header := [] |}.

(** A request for a foreign host from a client that accepts gzip. *)
Definition foreign : Request :=
  {| Host := "evil.example:8545"; Header := [("Accept-Encoding", "gzip")] |}.

Definition upgrade : Request :=
  {| Host := "localhost:8545";
     Header := [("Connection", "Upgrade"); ("Upgrade", "WebSocket")] |}.

End DemoHTTP.

(** ** Vocabulary of the statements *)

(** The virtual-host check as the handler makes it: a request is rejected
    when it names a host, the host without its port is no IP literal, the
    set has no wildcard entry and the host is not in the set. *)
Definition vhostRejects (x : HTTPEnv) (vhosts : list string) (r : Request)
  : bool :=
  negb (String.eqb (Host r) "")
  && negb (net_ParseIP x (hostOnly x r))
  && negb (setHas vhosts "*")
  && negb (setHas vhosts (hostOnly x r)).

(** The rejection condition as the specification words it, without the
    exemption of requests that name no host. *)
Definition specRejects (x : HTTPEnv) (vhosts : list string) (r : Request)
  : bool :=
  negb (net_ParseIP x (hostOnly x r))
  && negb (setHas vhosts "*")
  && negb (setHas vhosts (hostOnly x r)).

(** Only instance locks are held. *)
Definition onlyLocks (h : list Resource) : Prop :=
  forall r, In r h -> exists p, r = RLock p.

(** The construction loop emits constructor calls only. *)
Definition isConstruct (ev : Event) : bool :=
  match ev with EvConstruct _ _ => true | _ => false end.

(** The peer-transport server [Start] builds for a service map. *)
Definition runningServer (e : Env) (n : Node) (services : ServiceMap)
  : p2p.Server :=
  {| p2p.SrvConfig := serverConfig n;
     p2p.Protocols :=
       flat_map (fun ks => svcProtocols (snd ks))
                (rangeOrder e RangeProtocols services) |}.

(** The lines [RegisterApisFromWhitelist] logs hold no resource and call
    no service. *)
Definition isLog (ev : Event) : bool :=
  match ev with EvLogError _ _ => true | _ => false end.

(** What [stopIPC], [stopHTTP] and [stopWS] emit: the listener or server
    is closed when the first field is set, the handler is stopped when
    the second is. *)
Definition stopEvents (hasListener hasHandler : bool) (t : Transport)
  : list Event :=
  (if hasListener then [EvListenerClose t] else [])
  ++ (if hasHandler then [EvHandlerStop t] else []).

(** The handler [startHTTP] serves: the HTTP stack, behind the WebSocket
    upgrade switch when both endpoints of the node are the same string. *)
Definition httpStack (e : Env) (n : Node) (srv : rpc.Server)
  (cors vhosts wsOrigins : list string) : Handler :=
  if String.eqb (httpEndpoint n) (wsEndpoint n)
  then NewWebsocketUpgradeHandler
         (NewHTTPHandlerStack (strings_ToLower e) (RPCHandler srv) cors vhosts)
         (WebsocketHandler srv wsOrigins)
  else NewHTTPHandlerStack (strings_ToLower e) (RPCHandler srv) cors vhosts.

(** The API list [startRPC] serves: the built-in APIs, then those of the
    services in the order the map is visited. *)
Definition allAPIs (e : Env) (services : ServiceMap) : list rpc.API :=
  apis ++ flat_map (fun ks => svcAPIs (snd ks)) (rangeOrder e RangeAPIs services).

(** No listener is held. *)
Definition noListener (h : list Resource) : Prop :=
  forall t, ~ In (RListener t) h.

(** The path of the lock file of the node's instance directory. *)
Definition lockPath (e : Env) (n : Node) : string :=
  filepath_Join (filepath_Join (DataDir (config n)) (Config_name e (config n)))
                "LOCK".

(** Events of the endpoint layer: listeners, handlers, log lines. *)
Definition isEndpointEvent (ev : Event) : bool :=
  match ev with
  | EvListen _ _ | EvListenerClose _ | EvHandlerStop _ | EvLogError _ _ => true
  | _ => false
  end.

(** The service-start loop emits service and peer-transport calls only. *)
Definition isLifecycleEvent (ev : Event) : bool :=
  match ev with
  | EvServiceStart _ _ | EvServiceStop _ | EvServerStart _ | EvServerStop => true
  | _ => false
  end.

(** What [Stop] does about the instance lock. *)
Definition lockEvents (e : Env) (n : Node) : list Event :=
  match instanceDirLock n with
  | Some lock =>
      EvRelease lock
      :: (if isSome (Release e lock)
          then [EvLogError "Can't release datadir lock" []]
          else [])
  | None => []
  end.

(** The error of removing the ephemeral keystore, if there is one. *)
Definition keystoreErr (e : Env) (n : Node) : option Error :=
  if negb (String.eqb (ephemeralKeystore n) "")
  then os_RemoveAll e (ephemeralKeystore n)
  else None.

Definition keystoreEvents (n : Node) : list Event :=
  if negb (String.eqb (ephemeralKeystore n) "")
  then [EvRemoveAll (ephemeralKeystore n)]
  else [].

(** The node [Stop] leaves behind. *)
Definition stoppedNode (n : Node) : Node :=
  set_stop (Some true)
    (set_instanceDirLock None
       (set_server None
          (set_services None
             (set_rpcAPIs []
                (set_ipcHandler None
                   (set_ipcListener None
                      (set_httpHandler None (set_wsHandler None n)))))))).

(** The virtual-host set a handler stack checks against, if it has a
    virtual-host check. *)
Fixpoint vhostsOf (h : Handler) : option (list string) :=
  match h with
  | virtualHostHandler vhosts _ => Some vhosts
  | gzipHandler next => vhostsOf next
  | corsHandler _ next => vhostsOf next
  | websocketUpgradeHandler h' _ => vhostsOf h'
  | RPCHandler _ | WebsocketHandler _ _ => None
  end.

(** The host [StartRPC] works with: its argument, or the configured host,
    or the default host. *)
Definition effectiveHTTPHost (n : Node) (host : option string) : string :=
  match host with
  | Some h => h
  | None =>
      if negb (String.eqb (HTTPHost (config n)) "") then HTTPHost (config n)
      else DefaultHTTPHost
  end.

(** The whitelist rule in the words of the specification: every API when
    [exposeAll] is set; else, with a non-empty module list, the APIs whose
    namespace is in the list; else the public APIs. *)
Definition whitelistRule (modules : list string) (exposeAll : bool)
  (api : rpc.API) : bool :=
  if exposeAll then true
  else
    match modules with
    | [] => rpc.Public api
    | _ :: _ => setHas modules (rpc.Namespace api)
    end.

(** The requested namespaces that no available API has. *)
Definition absentModules (modules : list string) (apis : list rpc.API)
  : list string :=
  filter (fun name => negb (setHas (namespaces apis) name)) modules.

(** An idle node has no external endpoint. *)
Definition idleClean (n : Node) : Prop :=
  isSome (server n) = false -> noExternalEndpoint n.

(** ** More of node.go, config.go and the handler stack *)

Definition isErrNodeStopped (err : Error) : bool :=
  match err with ErrNodeStopped => true | _ => false end.

(** [Node.Close]: stops the node, then closes the account manager.
    [accmanClose] is what [n.accman.Close()] returns and [format] renders
    [fmt.Errorf("%v", errs)]. *)
Definition Close (e : Env) (accmanClose : option Error)
  (format : list Error -> string) : M (option Error) :=
  err <- Stop e ;;
  let errs :=
    match err with
    | Some x => if negb (isErrNodeStopped x) then [x] else []
    | None => []
    end in
  let errs :=
    errs ++ match accmanClose with Some x => [x] | None => [] end in
  match errs with
  | [] => ret None
  | [x] => ret (Some x)
  | _ => ret (Some (ErrorString (format errs)))
  end.

(** [Node.Server] *)
Definition Node_Server (n : Node) : option p2p.Server := server n.

(** [Node.HTTPEndpoint]: the address of the listener when there is one,
    else the configured endpoint. *)
Definition Node_HTTPEndpoint (n : Node) : string :=
  match httpListenerAddr n with
  | Some addr => addr
  | None => httpEndpoint n
  end.

(** [Node.WSEndpoint] *)
Definition Node_WSEndpoint (n : Node) : string :=
  match wsListenerAddr n with
  | Some addr => addr
  | None => wsEndpoint n
  end.

(** The constructor calls of a trace, with what each returned. *)
Definition constructCalls (tr : list Event) : list (nat * option ReflectType) :=
  flat_map (fun ev => match ev with EvConstruct i o => [(i, o)] | _ => [] end) tr.

(** The node after registering the constructors of a list, one by one. *)
Definition registerAllOf (funcs : list ServiceConstructor) (n : Node) : Node :=
  fold_left (fun n f => final (Register f n)) funcs n.

(** [Config.instanceDir].  [join] is [filepath.Join]. *)
Definition Config_instanceDir (e : Env) (join : string -> string -> string)
  (c : Config) : string :=
  if String.eqb (DataDir c) "" then ""
  else join (DataDir c) (Config_name e c).

(** The table [isOldGethResource]: legacy resource names, and whether
    finding one warns. *)
Definition isOldGethResource : list (string * bool) :=
  [ ("chaindata", true); ("nodes", true); ("nodekey", true);
    ("static-nodes.json", false); ("trusted-nodes.json", false) ].

(** [Config.warnOnce] on the flag [w]: the new flag and the lines
    logged. *)
Definition warnOnce (w : bool) (msg : string) : bool * list string :=
  if w then (w, []) else (true, [msg]).

(** The flag and the lines logged after a run of [warnOnce] calls on the
    same flag. *)
Definition warnEach (w : bool) (msgs : list string) : bool * list string :=
  fold_left (fun st msg =>
               let r := warnOnce (fst st) msg in (fst r, snd st ++ snd r))
            msgs (w, []).

(** The file system and path functions [Config.ResolvePath] relies on:
    [filepath.IsAbs], [filepath.Join] and [common.FileExist]. *)
Record PathEnv : Type := {
  filepath_IsAbs : string -> bool;
  filepath_JoinOf : string -> string -> string;
  common_FileExist : string -> bool
}.

(** [Config.ResolvePath].  [warned] is the flag
    [c.oldGethResourceWarning]; the result is the path, the new flag and
    the warnings logged. *)
Definition Config_ResolvePath (e : Env) (fs : PathEnv)
  (c : Config) (warned : bool) (path : string)
  : string * bool * list string :=
  if filepath_IsAbs fs path then (path, warned, [])
  else if String.eqb (DataDir c) "" then ("", warned, [])
  else
    let instance :=
      filepath_JoinOf fs (Config_instanceDir e (filepath_JoinOf fs) c) path in
    match mapGet isOldGethResource path with
    | Some warn =>
        let oldpath :=
          if String.eqb (Config_name e c) "geth"
          then filepath_JoinOf fs (DataDir c) path
          else "" in
        if negb (String.eqb oldpath "") && common_FileExist fs oldpath then
          if warn then
            let r := warnOnce warned
                       ("Using deprecated resource file " ++ oldpath
                        ++ ", please move this file to the 'geth' subdirectory of datadir.") in
            (oldpath, fst r, snd r)
          else (oldpath, warned, [])
        else (instance, warned, [])
    | None => (instance, warned, [])
    end.

(** A run of [ResolvePath] calls on one [Config]: the paths returned, the
    flag at the end and all the warnings logged. *)
Fixpoint resolveEach (e : Env) (fs : PathEnv) (c : Config) (warned : bool)
  (paths : list string) : list string * bool * list string :=
  match paths with
  | [] => ([], warned, [])
  | path :: rest =>
      match Config_ResolvePath e fs c warned path with
      | (p, w, logs) =>
          match resolveEach e fs c w rest with
          | (ps, w', logs') => (p :: ps, w', logs ++ logs')
          end
      end
  end.

(** The prefix of named pipes on Windows. *)
Definition pipePrefix : string := "\\.\pipe\".

(** [Config.IPCEndpoint].  [goos] is [runtime.GOOS], [base] is
    [filepath.Base], [join] is [filepath.Join] and [tempDir] is
    [os.TempDir()]. *)
Definition Config_IPCEndpoint_on (goos : string) (base : string -> string)
  (join : string -> string -> string) (tempDir : string) (c : Config)
  : string :=
  if String.eqb (IPCPath c) "" then ""
  else if String.eqb goos "windows" then
    if GoStrings.HasPrefix (IPCPath c) pipePrefix then IPCPath c
    else pipePrefix ++ IPCPath c
  else if String.eqb (base (IPCPath c)) (IPCPath c) then
    if String.eqb (DataDir c) "" then join tempDir (IPCPath c)
    else join (DataDir c) (IPCPath c)
  else IPCPath c.

Definition set_IPCPath (v : string) (c : Config) : Config :=
  {| Name := Name c; DataDir := DataDir c; P2P := P2P c; IPCPath := v;
     HTTPHost := HTTPHost c; HTTPPort := HTTPPort c; HTTPCors := HTTPCors c;
     HTTPVirtualHosts := HTTPVirtualHosts c; HTTPModules := HTTPModules c;
     HTTPTimeouts := HTTPTimeouts c; WSHost := WSHost c; WSPort := WSPort c;
     WSOrigins := WSOrigins c; WSModules := WSModules c;
     WSExposeAll := WSExposeAll c |}.

(** The instance name passes the checks of [New]. *)
Definition validName (name : string) : bool :=
  negb (GoStrings.ContainsAny name ["/"%char; "\"%char])
  && negb (String.eqb name datadirDefaultKeyStore)
  && negb (GoStrings.HasSuffix name ".ipc").

(** The (namespace, receiver) pairs of an API list. *)
Definition registrations (apis : list rpc.API) : list (string * rpc.Receiver) :=
  map (fun api => (rpc.Namespace api, rpc.Service api)) apis.

(** A body write that bypasses the gzip writer. *)
Definition isPlainWrite (op : WOp) : bool :=
  match op with Write _ => true | _ => false end.

(** The body chunks of a response, compressed or not, in program order. *)
Definition payload (ops : list WOp) : list string :=
  flat_map (fun op => match op with
                      | Write b => [b]
                      | GzipWrite b => [b]
                      | _ => []
                      end) ops.

(** A request whose host is not in lower case. *)
Definition mixedCase : Request :=
  {| Host := "Node.Example:8545"; Header := [] |}.

(** A file system for the examples, with one legacy file in the data
    directory. *)
Definition demoPaths : PathEnv :=
  {| filepath_IsAbs := fun p => GoStrings.HasPrefix p "/";
     filepath_JoinOf := filepath_Join;
     common_FileExist := fun p => String.eqb p "/data/nodekey" |}.

(** The events of [openDataDir]: directory creation and locking. *)
Definition isFileEvent (ev : Event) : bool :=
  match ev with
  | EvMkdirAll _ | EvFlock _ => true
  | _ => false
  end.

(** What the properties below use of [strings.ToLower]: lower-casing a
    lower-cased string changes nothing, and only "*" lower-cases to "*". *)
Definition ToLowerOK (ToLower : string -> string) : Prop :=
  (forall s, ToLower (ToLower s) = ToLower s) /\
  (forall s, ToLower s = "*" -> s = "*").

(** * Properties *)

Example ToLower_ex : GoStrings.ToLower "WebSocket" = "websocket".
Proof. reflexivity. Qed.

Example Split_ex :
  GoStrings.Split "a, b,,c" ","%char = ["a"; " b"; ""; "c"].
Proof. reflexivity. Qed.

Example Split_empty_ex : GoStrings.Split "" ","%char = [""].
Proof. reflexivity. Qed.

Example TrimSpace_ex : GoStrings.TrimSpace "  a b  " = "a b".
Proof. reflexivity. Qed.

Example Contains_ex :
  GoStrings.Contains "deflate, gzip" "gzip" = true /\
  GoStrings.Contains "deflate" "gzip" = false.
Proof. split; reflexivity. Qed.

Example hostPort_ex : GoStrings.hostPort "localhost" 8545 = "localhost:8545".
Proof. reflexivity. Qed.

(** ** Lifecycle misuse *)

(** C8. A [Start] on a running node fails with [ErrNodeRunning], a [Stop]
    on an idle node fails with [ErrNodeStopped]; in both cases the struct
    is left as it was and no call is made on any collaborator. *)
Theorem lifecycle_misuse_rejected (e : Env) (running idle : Node) :
  isSome (server running) = true ->
  isSome (server idle) = false ->
  Start e running = (Some ErrNodeRunning, running, []) /\
  Stop e idle = (Some ErrNodeStopped, idle, []).
Proof.
  intros Hrun Hidle. split.
  - unfold Start, bind, get. rewrite Hrun. reflexivity.
  - unfold Stop, bind, get. rewrite Hidle. reflexivity.
Qed.

Lemma lifecycle_misuse_rejected_witness :
  Start Demo.quiet Demo.running = (Some ErrNodeRunning, Demo.running, []) /\
  Stop Demo.quiet Demo.idle = (Some ErrNodeStopped, Demo.idle, []).
Proof.
  apply (lifecycle_misuse_rejected Demo.quiet Demo.running Demo.idle);
    vm_compute; reflexivity.
Defined.

(** ** Go maps as association lists *)

Section GoMapFacts.
Variable V : Type.
Implicit Types (m : list (string * V)) (k : string) (v : V).

Lemma mapHas_In m k : mapHas m k = true <-> In k (mapKeys m).
Proof.
  unfold mapHas. induction m as [|[k' v'] m IH]; simpl.
  - split; [discriminate | tauto].
  - destruct (String.eqb_spec k' k) as [->|Hne].
    + split; auto.
    + rewrite IH. split; [auto | intros [H|H]; [congruence | exact H]].
Qed.

Lemma mapHas_false m k : mapHas m k = false <-> ~ In k (mapKeys m).
Proof.
  rewrite <- mapHas_In. destruct (mapHas m k); split; congruence.
Qed.

Lemma mapKeys_mapSet m k v :
  mapKeys (mapSet m k v) =
  if mapHas m k then mapKeys m else mapKeys m ++ [k].
Proof.
  unfold mapHas. induction m as [|[k' v'] m IH]; simpl; [reflexivity|].
  destruct (String.eqb_spec k' k) as [->|Hne]; simpl; [reflexivity|].
  rewrite IH. now destruct (mapGet m k).
Qed.

Lemma mapSet_NoDup m k v : NoDup (mapKeys m) -> NoDup (mapKeys (mapSet m k v)).
Proof.
  intros H. rewrite mapKeys_mapSet.
  destruct (mapHas m k) eqn:Hk; [exact H|].
  apply mapHas_false in Hk.
  apply NoDup_rev in H. rewrite <- (rev_involutive (mapKeys m ++ [k])).
  apply NoDup_rev. rewrite rev_app_distr. simpl. constructor; [|exact H].
  now rewrite <- in_rev.
Qed.

Lemma mapHas_mapSet m k k' v :
  mapHas (mapSet m k v) k' = String.eqb k k' || mapHas m k'.
Proof.
  apply eq_true_iff_eq. rewrite orb_true_iff, !mapHas_In, mapKeys_mapSet.
  destruct (mapHas m k) eqn:Hk.
  - apply mapHas_In in Hk. rewrite String.eqb_eq.
    split; [auto | intros [<-|H]; auto].
  - rewrite in_app_iff, String.eqb_eq. simpl. tauto.
Qed.

End GoMapFacts.

(** ** Resources held after a trace *)

Lemma heldFrom_app h t1 t2 :
  heldFrom h (t1 ++ t2) = heldFrom (heldFrom h t1) t2.
Proof. apply fold_left_app. Qed.

Lemma release_app r a b : release r (a ++ b) = release r a ++ release r b.
Proof. apply filter_app. Qed.

Lemma release_absent r h :
  (forall r', In r' h -> Resource_eqb r' r = false) -> release r h = h.
Proof.
  unfold release. induction h as [|x h IH]; simpl; intros H; [reflexivity|].
  rewrite (H x) by auto. simpl. f_equal. apply IH. auto.
Qed.

Lemma release_onlyLocks r h :
  onlyLocks h -> (forall p, r <> RLock p) -> release r h = h.
Proof.
  intros Hh Hr. apply release_absent. intros r' Hin.
  destruct (Hh r' Hin) as [p ->]. destruct r; try reflexivity.
  now elim (Hr path).
Qed.

(** Stopping every service of [ks] releases the services of [ks'] when
    each of them is among [ks]. *)
Lemma heldFrom_stop_services base ks ks' :
  onlyLocks base -> incl ks' ks ->
  heldFrom (base ++ RPeerServer :: map RService ks') (map EvServiceStop ks)
  = base ++ [RPeerServer].
Proof.
  intros Hbase. revert ks'. induction ks as [|k ks IH]; intros ks' Hincl.
  - destruct ks' as [|x ?]; [reflexivity | now elim (Hincl x (or_introl eq_refl))].
  - simpl. rewrite release_app, (release_onlyLocks (r:=RService k)) by (auto; discriminate).
    simpl. unfold release at 1. fold (release (RService k)).
    replace (filter (fun r' => negb (Resource_eqb r' (RService k))) (map RService ks'))
      with (map RService (filter (fun k' => negb (String.eqb k' k)) ks')).
    + apply IH. intros x Hx. apply filter_In in Hx as [Hx Hne].
      destruct (Hincl x Hx) as [->|]; [|assumption].
      now rewrite String.eqb_refl in Hne.
    + clear. induction ks' as [|x ks' IH]; simpl; [reflexivity|].
      destruct (String.eqb x k); simpl; now rewrite IH.
Qed.

(** ** The construction loop *)

Lemma constructServices_NoDup conf funcs : forall i m r t,
  constructServices conf i funcs m = (inr r, t) ->
  NoDup (mapKeys m) -> NoDup (mapKeys r).
Proof.
  induction funcs as [|c funcs IH]; simpl; intros i m r t H Hm.
  - now inversion H; subst.
  - destruct (c _) as [err|service]; [discriminate|].
    destruct (mapHas m (svcTypeOf service)); [discriminate|].
    destruct (constructServices conf (S i) funcs _) as [r' t'] eqn:E.
    simpl in H. inversion H; subst.
    eapply IH; [exact E|]. now apply mapSet_NoDup.
Qed.

(** The keys of the map built are the types the constructors returned, in
    construction order. *)
Lemma constructServices_keys conf funcs : forall i m r t,
  constructServices conf i funcs m = (inr r, t) ->
  mapKeys r = mapKeys m ++ constructed t.
Proof.
  induction funcs as [|c funcs IH]; simpl; intros i m r t H.
  - inversion H; subst. simpl. now rewrite app_nil_r.
  - destruct (c _) as [err|service]; [discriminate|].
    destruct (mapHas m (svcTypeOf service)) eqn:Hk; [discriminate|].
    destruct (constructServices conf (S i) funcs _) as [r' t'] eqn:E.
    simpl in H. inversion H; subst.
    rewrite (IH _ _ _ _ E), mapKeys_mapSet, Hk. simpl.
    now rewrite <- app_assoc.
Qed.

Lemma constructServices_events conf funcs : forall i m,
  forallb isConstruct (snd (constructServices conf i funcs m)) = true.
Proof.
  induction funcs as [|c funcs IH]; simpl; intros i m; [reflexivity|].
  destruct (c _) as [err|service]; [reflexivity|].
  destruct (mapHas m (svcTypeOf service)); [reflexivity|].
  simpl. apply IH.
Qed.

Lemma heldFrom_constructs t : forallb isConstruct t = true ->
  forall h, heldFrom h t = h.
Proof.
  induction t as [|ev t IH]; simpl; intros H h; [reflexivity|].
  apply andb_true_iff in H as [Hev Ht].
  destruct ev; try discriminate. simpl. now apply IH.
Qed.

Lemma calls_constructs t : forallb isConstruct t = true ->
  startCalls t = [] /\ stopCalls t = [] /\
  (forall u, listens u t = []).
Proof.
  induction t as [|ev t IH]; simpl; intros H; [auto|].
  apply andb_true_iff in H as [Hev Ht].
  destruct ev; try discriminate. simpl. now apply IH.
Qed.

(** Two constructor calls that returned the same type: the loop stopped
    on the second with [DuplicateServiceError]. *)
Lemma constructServices_duplicate conf funcs : forall i m,
  let r := constructServices conf i funcs m in
  (forall a o, In (EvConstruct a o) (snd r) -> i <= a) /\
  (forall a k, In (EvConstruct a (Some k)) (snd r) -> mapHas m k = true ->
               fst r = inl (DuplicateServiceError k)) /\
  (forall a b k, a <> b ->
     In (EvConstruct a (Some k)) (snd r) ->
     In (EvConstruct b (Some k)) (snd r) ->
     fst r = inl (DuplicateServiceError k)).
Proof.
  induction funcs as [|c funcs IH]; intros i m; simpl.
  - repeat split; intros; contradiction.
  - destruct (c _) as [err|service]; simpl.
    + repeat split.
      * intros a o [H|[]]. inversion H. lia.
      * intros a k [H|[]]. discriminate.
      * intros a b k _ [H|[]]. discriminate.
    + destruct (mapHas m (svcTypeOf service)) eqn:Hk; simpl.
      * repeat split.
        -- intros a o [H|[]]. inversion H. lia.
        -- intros a k [H|[]] _. now inversion H.
        -- intros a b k Hab [Ha|[]] [Hb|[]]. congruence.
      * specialize (IH (S i) (mapSet m (svcTypeOf service) service)).
        simpl in IH. destruct IH as (IH1 & IH2 & IH3).
        repeat split.
        -- intros a o [H|H]; [inversion H; lia | apply IH1 in H; lia].
        -- intros a k [H|H] Hm; [inversion H; congruence|].
           apply (IH2 a k H). rewrite mapHas_mapSet, Hm. apply orb_true_r.
        -- intros a b k Hab [Ha|Ha] [Hb|Hb].
           ++ congruence.
           ++ inversion Ha; subst. apply (IH2 b _ Hb).
              rewrite mapHas_mapSet, String.eqb_refl. reflexivity.
           ++ inversion Hb; subst. apply (IH2 a _ Ha).
              rewrite mapHas_mapSet, String.eqb_refl. reflexivity.
           ++ now apply (IH3 a b k).
Qed.

(** ** The service-start loop *)

Lemma stopStarted_known (services : ServiceMap) (started : list ReflectType) :
  (forall k, In k started -> mapHas services k = true) ->
  stopStarted services started = map EvServiceStop started.
Proof.
  unfold stopStarted. induction started as [|k started IH]; simpl; intros H.
  - reflexivity.
  - rewrite (H k) by auto. simpl. f_equal. apply IH. auto.
Qed.

(** The loop either starts every service of [todo], or stops at the first
    one whose [Start] fails, after stopping those started before it and
    the peer-transport server. *)
Lemma startServices_run running (services : ServiceMap) :
  forall (todo : ServiceMap) (started : list ReflectType),
  (forall k, In k (started ++ mapKeys todo) -> mapHas services k = true) ->
  (fst (startServices running services todo started) = None /\
   Forall (fun ks => svcStart (snd ks) running = None) todo /\
   snd (startServices running services todo started)
   = map (fun k => EvServiceStart k true) (mapKeys todo))
  \/
  (exists pre k s post err,
     todo = pre ++ (k, s) :: post /\
     Forall (fun ks => svcStart (snd ks) running = None) pre /\
     svcStart s running = Some err /\
     fst (startServices running services todo started) = Some err /\
     snd (startServices running services todo started)
     = map (fun k => EvServiceStart k true) (mapKeys pre)
       ++ [EvServiceStart k false]
       ++ map EvServiceStop (started ++ mapKeys pre)
       ++ [EvServerStop]).
Proof.
  induction todo as [|[k s] todo IH]; intros started Hknown; simpl.
  - left. auto.
  - destruct (svcStart s running) as [err|] eqn:Hs.
    + right. exists [], k, s, todo, err. simpl. rewrite app_nil_r.
      repeat split; auto.
      rewrite stopStarted_known; [reflexivity|].
      intros k' Hk'. apply Hknown. apply in_or_app. auto.
    + assert (Hknown' : forall k', In k' ((started ++ [k]) ++ mapKeys todo) ->
                                   mapHas services k' = true).
      { intros k' Hk'. apply Hknown. rewrite <- app_assoc in Hk'. exact Hk'. }
      specialize (IH (started ++ [k]) Hknown').
      destruct IH as [(Hr & Hall & Ht)|(pre & k' & s' & post & err & -> & Hall & Hs' & Hr & Ht)].
      * left. simpl.
        split; [exact Hr | split; [constructor; auto | f_equal; exact Ht]].
      * right. exists ((k, s) :: pre), k', s', post, err. simpl.
        split; [reflexivity|]. split; [constructor; auto|].
        split; [exact Hs'|]. split; [exact Hr|].
        f_equal. etransitivity; [exact Ht|].
        simpl. now rewrite <- !app_assoc.
Qed.

(** ** Symbolic execution of the methods *)

Ltac break_inner :=
  match goal with
  | |- context [match ?x with _ => _ end] =>
      lazymatch x with
      | context [match _ with _ => _ end] => fail
      | _ => destruct x eqn:?
      end
  end.

Ltac munfold := unfold bind, get, ret, modify, emit, emits in *.

Ltac norm_trace := rewrite ?app_nil_r, <- ?app_assoc; simpl.

(** [Start] on an idle node, path by path. *)
Lemma Start_unfold e n :
  isSome (server n) = false ->
  Start e n =
  match openDataDir e n with
  | (Some err, n1, t1) => (Some err, n1, t1)
  | (None, n1, t1) =>
      let n2 := set_serverConfig (makeServerConfig e n1) n1 in
      let built := constructServices (config n2) 0 (serviceFuncs n2) [] in
      match fst built with
      | inl err => (Some err, n2, t1 ++ snd built)
      | inr services =>
          let running := runningServer e n2 services in
          match p2p_Server_Start e running with
          | Some err =>
              (Some (convertFileLockError e err), n2,
               t1 ++ snd built ++ [EvServerStart false])
          | None =>
              let started :=
                startServices running services
                  (rangeOrder e RangeStart services) [] in
              match fst started with
              | Some err =>
                  (Some err, n2,
                   t1 ++ snd built ++ [EvServerStart true] ++ snd started)
              | None =>
                  match startRPC e services n2 with
                  | (Some err, n3, t3) =>
                      (Some err, n3,
                       t1 ++ snd built ++ [EvServerStart true] ++ snd started
                       ++ t3
                       ++ map (fun ks => EvServiceStop (fst ks))
                              (rangeOrder e RangeRollback services)
                       ++ [EvServerStop])
                  | (None, n3, t3) =>
                      (None,
                       set_stop (Some false)
                         (set_server (Some running)
                            (set_services (Some services) n3)),
                       t1 ++ snd built ++ [EvServerStart true] ++ snd started
                       ++ t3)
                  end
              end
          end
      end
  end.
Proof.
  intros Hidle. unfold Start, runningServer. munfold. rewrite Hidle.
  destruct (openDataDir e n) as [[[err|] n1] t1]; [now rewrite app_nil_r|].
  cbn beta iota zeta.
  destruct (constructServices _ _ _ _) as [[err|services] tc]; cbn [fst snd].
  - now norm_trace.
  - destruct (p2p_Server_Start e _) as [err|]; [now norm_trace|].
    destruct (startServices _ _ _ _) as [[err|] ts]; cbn [fst snd].
    + now norm_trace.
    + destruct (startRPC e services _) as [[[err|] n3] t3]; now norm_trace.
Qed.

(** [openDataDir] either leaves the struct alone, or creates the instance
    directory, takes the lock and stores it. *)
Lemma openDataDir_run e n :
  let instdir := filepath_Join (DataDir (config n)) (Config_name e (config n)) in
  let lock := filepath_Join instdir "LOCK" in
  (openDataDir e n = (None, n, []) /\ DataDir (config n) = "") \/
  (exists err, openDataDir e n = (Some err, n, [])) \/
  (exists err, openDataDir e n = (Some err, n, [EvMkdirAll instdir])) \/
  (openDataDir e n =
     (None, set_instanceDirLock (Some lock) n, [EvMkdirAll instdir; EvFlock lock])
   /\ DataDir (config n) <> "").
Proof.
  unfold openDataDir. munfold.
  destruct (String.eqb_spec (DataDir (config n)) "") as [Heq|Hne]; [now left|].
  destruct (os_MkdirAll e _) as [err|]; [right; left; now exists err|].
  destruct (fileutil_Flock e _) as [err|]; cbn.
  - right; right; left. now eexists.
  - right; right; right. split; [reflexivity | exact Hne].
Qed.

(** *** The endpoint methods, outcome by outcome *)

Lemma RegisterApis_trace e apis modules srv exposeAll :
  forallb isLog (snd (RegisterApisFromWhitelist e apis modules srv exposeAll))
  = true.
Proof.
  unfold RegisterApisFromWhitelist.
  destruct (checkModuleAvailability modules apis) as [bad available].
  now destruct (0 <? length bad)%nat.
Qed.

Lemma heldFrom_logs t : forallb isLog t = true -> forall h, heldFrom h t = h.
Proof.
  induction t as [|ev t IH]; simpl; intros H h; [reflexivity|].
  apply andb_true_iff in H as [Hev Ht].
  destruct ev; try discriminate. simpl. now apply IH.
Qed.

Lemma calls_logs t : forallb isLog t = true ->
  startCalls t = [] /\ stopCalls t = [] /\ (forall u, listens u t = []).
Proof.
  induction t as [|ev t IH]; simpl; intros H; [auto|].
  apply andb_true_iff in H as [Hev Ht].
  destruct ev; try discriminate. simpl. now apply IH.
Qed.

Lemma set_inprocHandler_None n : inprocHandler n = None -> set_inprocHandler None n = n.
Proof. destruct n; simpl; now intros ->. Qed.
Lemma set_ipcListener_None n : ipcListener n = None -> set_ipcListener None n = n.
Proof. destruct n; simpl; now intros ->. Qed.
Lemma set_ipcHandler_None n : ipcHandler n = None -> set_ipcHandler None n = n.
Proof. destruct n; simpl; now intros ->. Qed.
Lemma set_httpHandler_None n : httpHandler n = None -> set_httpHandler None n = n.
Proof. destruct n; simpl; now intros ->. Qed.
Lemma set_wsHandler_None n : wsHandler n = None -> set_wsHandler None n = n.
Proof. destruct n; simpl; now intros ->. Qed.

Lemma startInProc_run e apis n :
  (exists err, startInProc e apis n = (Some err, n, [])) \/
  (exists h, startInProc e apis n = (None, set_inprocHandler (Some h) n, [])).
Proof.
  unfold startInProc. destruct (registerAll e apis rpc.NewServer) as [err|h].
  - left. now exists err.
  - right. now exists h.
Qed.

Lemma stopInProc_run n :
  stopInProc n =
  (tt, set_inprocHandler None n, stopEvents false (isSome (inprocHandler n)) InProc).
Proof.
  unfold stopInProc. munfold.
  destruct (inprocHandler n) eqn:H; [reflexivity|].
  now rewrite set_inprocHandler_None.
Qed.

Lemma startIPC_run e apis n :
  (ipcEndpoint n = "" /\ startIPC e apis n = (None, n, [])) \/
  (exists err, startIPC e apis n = (Some err, n, [])) \/
  (exists h,
     startIPC e apis n =
     (None, set_ipcHandler (Some h) (set_ipcListener (Some (ipcEndpoint n)) n),
      [EvListen IPC (ipcEndpoint n)])).
Proof.
  unfold startIPC. munfold.
  destruct (String.eqb_spec (ipcEndpoint n) "") as [Heq|Hne]; [now left|].
  right. destruct (rpc_StartIPCEndpoint e _ apis) as [err|h].
  - left. now exists err.
  - right. now exists h.
Qed.

Lemma stopIPC_run n :
  stopIPC n =
  (tt, set_ipcHandler None (set_ipcListener None n),
   stopEvents (isSome (ipcListener n)) (isSome (ipcHandler n)) IPC).
Proof.
  unfold stopIPC. munfold.
  destruct (ipcListener n) eqn:Hl; cbn [fst snd].
  - destruct (ipcHandler n) eqn:Hh; simpl; rewrite Hh; [reflexivity|].
    now rewrite (set_ipcHandler_None (set_ipcListener None n)).
  - rewrite (set_ipcListener_None n Hl).
    destruct (ipcHandler n) eqn:Hh; [reflexivity|].
    now rewrite (set_ipcHandler_None n Hh).
Qed.

Lemma stopHTTP_run n :
  stopHTTP n =
  (tt, set_httpHandler None n,
   stopEvents (isSome (httpServer n)) (isSome (httpHandler n)) HTTP).
Proof.
  unfold stopHTTP. munfold.
  destruct (httpServer n), (httpHandler n) eqn:Hh; try reflexivity;
    now rewrite (set_httpHandler_None n Hh).
Qed.

Lemma stopWS_run n :
  stopWS n =
  (tt, set_wsHandler None n,
   stopEvents (isSome (wsHTTPServer n)) (isSome (wsHandler n)) WS).
Proof.
  unfold stopWS. munfold.
  destruct (wsHTTPServer n), (wsHandler n) eqn:Hh; try reflexivity;
    now rewrite (set_wsHandler_None n Hh).
Qed.

Lemma startHTTP_run e endpoint apis modules cors vhosts timeouts wsOrigins n :
  let reg := RegisterApisFromWhitelist e apis modules rpc.NewServer false in
  (endpoint = "" /\
   startHTTP e endpoint apis modules cors vhosts timeouts wsOrigins n
   = (None, n, [])) \/
  (exists err,
     startHTTP e endpoint apis modules cors vhosts timeouts wsOrigins n
     = (Some err, n, snd reg)) \/
  (exists addr,
     endpoint <> "" /\ fst (fst reg) = None /\
     startHTTP e endpoint apis modules cors vhosts timeouts wsOrigins n
     = (None,
        set_httpHandler (Some (snd (fst reg)))
          (set_httpServer
             (Some {| hsHandler := httpStack e n (snd (fst reg)) cors vhosts wsOrigins;
                      hsAddr := addr |})
             (set_httpListenerAddr (Some addr) (set_httpEndpoint endpoint n))),
        snd reg ++ [EvListen HTTP endpoint])).
Proof.
  unfold startHTTP, httpStack, StartHTTPEndpoint. munfold.
  destruct (String.eqb_spec endpoint "") as [Heq|Hne]; [now left|].
  right. cbv zeta.
  destruct (RegisterApisFromWhitelist e apis modules rpc.NewServer false)
    as [[[err|] srv] logs]; cbn [fst snd].
  - left. exists err. now rewrite app_nil_r.
  - destruct (net_Listen e HTTP endpoint) as [err|addr].
    + left. exists err. now rewrite app_nil_r.
    + right. exists addr. repeat split; auto.
Qed.

Lemma startWS_run e endpoint apis modules wsOrigins exposeAll n :
  let reg := RegisterApisFromWhitelist e apis modules rpc.NewServer exposeAll in
  (endpoint = "" /\
   startWS e endpoint apis modules wsOrigins exposeAll n = (None, n, [])) \/
  (exists err,
     startWS e endpoint apis modules wsOrigins exposeAll n
     = (Some err, n, snd reg)) \/
  (exists addr,
     endpoint <> "" /\ fst (fst reg) = None /\
     startWS e endpoint apis modules wsOrigins exposeAll n
     = (None,
        set_wsHandler (Some (snd (fst reg)))
          (set_wsHTTPServer
             (Some {| hsHandler := WebsocketHandler (snd (fst reg)) wsOrigins;
                      hsAddr := addr |})
             (set_wsListenerAddr (Some addr) (set_wsEndpoint endpoint n))),
        snd reg ++ [EvListen WS endpoint])).
Proof.
  unfold startWS, startWSEndpoint. munfold.
  destruct (String.eqb_spec endpoint "") as [Heq|Hne]; [now left|].
  right. cbv zeta.
  destruct (RegisterApisFromWhitelist e apis modules rpc.NewServer exposeAll)
    as [[[err|] srv] logs]; cbn [fst snd].
  - left. exists err. now rewrite app_nil_r.
  - destruct (net_Listen e WS endpoint) as [err|addr].
    + left. exists err. now rewrite app_nil_r.
    + right. exists addr. repeat split; auto.
Qed.

(** [startRPC], path by path. *)
Lemma startRPC_unfold e services n :
  startRPC e services n =
  let apis := allAPIs e services in
  match startInProc e apis n with
  | (Some err, n1, t1) => (Some err, n1, t1)
  | (None, n1, t1) =>
  match startIPC e apis n1 with
  | (Some err, n2, t2) =>
      (Some err, set_inprocHandler None n2,
       t1 ++ t2 ++ stopEvents false (isSome (inprocHandler n2)) InProc)
  | (None, n2, t2) =>
  match startHTTP e (httpEndpoint n2) apis (HTTPModules (config n2))
          (HTTPCors (config n2)) (HTTPVirtualHosts (config n2))
          (HTTPTimeouts (config n2)) (WSOrigins (config n2)) n2 with
  | (Some err, n3, t3) =>
      (Some err,
       set_inprocHandler None (set_ipcHandler None (set_ipcListener None n3)),
       t1 ++ t2 ++ t3
       ++ stopEvents (isSome (ipcListener n3)) (isSome (ipcHandler n3)) IPC
       ++ stopEvents false (isSome (inprocHandler n3)) InProc)
  | (None, n3, t3) =>
  match (if negb (String.eqb (httpEndpoint n3) (wsEndpoint n3))
         then startWS e (wsEndpoint n3) apis (WSModules (config n3))
                (WSOrigins (config n3)) (WSExposeAll (config n3)) n3
         else (None, n3, [])) with
  | (Some err, n4, t4) =>
      (Some err,
       set_inprocHandler None
         (set_ipcHandler None (set_ipcListener None (set_httpHandler None n4))),
       t1 ++ t2 ++ t3 ++ t4
       ++ stopEvents (isSome (httpServer n4)) (isSome (httpHandler n4)) HTTP
       ++ stopEvents (isSome (ipcListener n4)) (isSome (ipcHandler n4)) IPC
       ++ stopEvents false (isSome (inprocHandler n4)) InProc)
  | (None, n4, t4) => (None, set_rpcAPIs apis n4, t1 ++ t2 ++ t3 ++ t4)
  end end end end.
Proof.
  unfold startRPC, allAPIs. cbv zeta.
  generalize (apis ++ flat_map (fun ks => svcAPIs (snd ks))
                               (rangeOrder e RangeAPIs services)).
  intros apis. unfold bind at 1.
  destruct (startInProc e apis n) as [[[err|] n1] t1];
    [unfold ret; now rewrite app_nil_r|].
  unfold bind at 1.
  destruct (startIPC e apis n1) as [[[err|] n2] t2].
  { unfold bind, ret. rewrite stopInProc_run. now norm_trace. }
  unfold bind at 1, get at 1. unfold bind at 1.
  destruct (startHTTP e _ _ _ _ _ _ _ n2) as [[[err|] n3] t3].
  { unfold bind, ret. rewrite stopIPC_run, stopInProc_run. now norm_trace. }
  unfold bind at 1, get at 1. unfold bind at 1.
  destruct (negb (String.eqb (httpEndpoint n3) (wsEndpoint n3))).
  - destruct (startWS e _ _ _ _ _ n3) as [[[err|] n4] t4].
    + unfold bind, ret. rewrite stopHTTP_run, stopIPC_run, stopInProc_run.
      now norm_trace.
    + unfold bind, ret, modify. now norm_trace.
  - unfold ret at 1.
    unfold bind, ret, modify. now norm_trace.
Qed.

Lemma release_noListener h t : noListener h -> release (RListener t) h = h.
Proof.
  intros H. apply release_absent. intros r Hin.
  destruct r as [| | |u]; try reflexivity. simpl.
  destruct t, u; try reflexivity; now elim (H _ Hin).
Qed.

Lemma heldFrom_stopEvents h b1 b2 t :
  heldFrom h (stopEvents b1 b2 t) = if b1 then release (RListener t) h else h.
Proof. now destruct b1, b2. Qed.

Lemma calls_stopEvents b1 b2 t :
  startCalls (stopEvents b1 b2 t) = [] /\ stopCalls (stopEvents b1 b2 t) = [].
Proof. now destruct b1, b2. Qed.

Lemma startCalls_app t1 t2 : startCalls (t1 ++ t2) = startCalls t1 ++ startCalls t2.
Proof. apply flat_map_app. Qed.

Lemma stopCalls_app t1 t2 : stopCalls (t1 ++ t2) = stopCalls t1 ++ stopCalls t2.
Proof. apply flat_map_app. Qed.

Lemma listens_app u t1 t2 : listens u (t1 ++ t2) = listens u t1 ++ listens u t2.
Proof. apply flat_map_app. Qed.

Lemma constructed_app t1 t2 :
  constructed (t1 ++ t2) = constructed t1 ++ constructed t2.
Proof. apply flat_map_app. Qed.

Ltac solve_release :=
  rewrite ?release_app; simpl;
  repeat match goal with
  | H : noListener ?h |- context [release (RListener ?t) ?h] =>
      rewrite (@release_noListener h t H)
  end;
  rewrite ?app_nil_r; try reflexivity.

Ltac solve_held :=
  let h := fresh "h" in
  let Hh := fresh "Hh" in
  intros h Hh;
  rewrite ?heldFrom_app;
  repeat first
    [ rewrite (heldFrom_logs _ (RegisterApis_trace _ _ _ _ _))
    | rewrite heldFrom_stopEvents ];
  simpl;
  repeat match goal with
  | |- context [if ?b then _ else _] => destruct b
  end;
  solve_release.

Ltac solve_calls :=
  rewrite ?startCalls_app, ?stopCalls_app;
  repeat match goal with
  | |- context [startCalls (stopEvents ?a ?b ?t)] =>
      rewrite (proj1 (calls_stopEvents a b t))
  | |- context [stopCalls (stopEvents ?a ?b ?t)] =>
      rewrite (proj2 (calls_stopEvents a b t))
  | |- context [startCalls (snd (RegisterApisFromWhitelist ?e ?a ?m ?s ?x))] =>
      rewrite (proj1 (calls_logs _ (RegisterApis_trace e a m s x)))
  | |- context [stopCalls (snd (RegisterApisFromWhitelist ?e ?a ?m ?s ?x))] =>
      rewrite (proj1 (proj2 (calls_logs _ (RegisterApis_trace e a m s x))))
  end;
  reflexivity.

Lemma triple_inv (A B C : Type) (a a' : A) (b b' : B) (c c' : C) :
  (a, b, c) = (a', b', c') -> a = a' /\ b = b' /\ c = c'.
Proof. now intros [= -> -> ->]. Qed.

Opaque RegisterApisFromWhitelist.

(** A failing [startRPC] closes what it opened: it leaves the lifecycle
    fields alone, every handler field is either cleared or untouched, and
    its trace holds no listener and calls no service. *)
Lemma startRPC_failure e (svcs : ServiceMap) n err n' t :
  startRPC e svcs n = (Some err, n', t) ->
  (server n' = server n /\ services n' = services n /\
   rpcAPIs n' = rpcAPIs n /\ instanceDirLock n' = instanceDirLock n) /\
  (inprocHandler n' = None \/ inprocHandler n' = inprocHandler n) /\
  (ipcHandler n' = None \/ ipcHandler n' = ipcHandler n) /\
  (ipcListener n' = None \/ ipcListener n' = ipcListener n) /\
  (httpHandler n' = None \/ httpHandler n' = httpHandler n) /\
  (wsHandler n' = None \/ wsHandler n' = wsHandler n) /\
  (forall h, noListener h -> heldFrom h t = h) /\
  startCalls t = [] /\ stopCalls t = [].
Proof.
  rewrite startRPC_unfold. cbv zeta.
  generalize (allAPIs e svcs). intros apis.
  destruct (startInProc_run e apis n) as [[e1 ->]|[h1 ->]].
  { intros H; apply triple_inv in H as ([= <-] & <- & <-). repeat split; auto. }
  set (n1 := set_inprocHandler (Some h1) n).
  destruct (startIPC_run e apis n1) as [[_ ->]|[[e2 ->]|[h2 ->]]].
  2:{ intros H; apply triple_inv in H as ([= <-] & <- & <-). repeat split; auto. }
  - (* no IPC endpoint *)
    destruct (startHTTP_run e (httpEndpoint n1) apis (HTTPModules (config n1))
                (HTTPCors (config n1)) (HTTPVirtualHosts (config n1))
                (HTTPTimeouts (config n1)) (WSOrigins (config n1)) n1)
      as [[_ ->]|[[e3 ->]|[a3 (_ & _ & ->)]]].
    2:{ intros H; apply triple_inv in H as ([= <-] & <- & <-). repeat split; auto; try solve_held; solve_calls. }
    + destruct (negb _); [|discriminate].
      destruct (startWS_run e (wsEndpoint n1) apis (WSModules (config n1))
                  (WSOrigins (config n1)) (WSExposeAll (config n1)) n1)
        as [[_ ->]|[[e4 ->]|[a4 (_ & _ & ->)]]]; try discriminate.
      intros H; apply triple_inv in H as ([= <-] & <- & <-).
      repeat split; auto; try solve_held; solve_calls.
    + set (n3 := set_httpHandler _ _).
      destruct (negb _); [|discriminate].
      destruct (startWS_run e (wsEndpoint n3) apis (WSModules (config n3))
                  (WSOrigins (config n3)) (WSExposeAll (config n3)) n3)
        as [[_ ->]|[[e4 ->]|[a4 (_ & _ & ->)]]]; try discriminate.
      intros H; apply triple_inv in H as ([= <-] & <- & <-).
      repeat split; auto; try solve_held; solve_calls.
  - (* IPC endpoint opened *)
    set (n2 := set_ipcHandler _ _).
    destruct (startHTTP_run e (httpEndpoint n2) apis (HTTPModules (config n2))
                (HTTPCors (config n2)) (HTTPVirtualHosts (config n2))
                (HTTPTimeouts (config n2)) (WSOrigins (config n2)) n2)
      as [[_ ->]|[[e3 ->]|[a3 (_ & _ & ->)]]].
    2:{ intros H; apply triple_inv in H as ([= <-] & <- & <-). repeat split; auto; try solve_held; solve_calls. }
    + destruct (negb _); [|discriminate].
      destruct (startWS_run e (wsEndpoint n2) apis (WSModules (config n2))
                  (WSOrigins (config n2)) (WSExposeAll (config n2)) n2)
        as [[_ ->]|[[e4 ->]|[a4 (_ & _ & ->)]]]; try discriminate.
      intros H; apply triple_inv in H as ([= <-] & <- & <-).
      repeat split; auto; try solve_held; solve_calls.
    + set (n3 := set_httpHandler _ _).
      destruct (negb _); [|discriminate].
      destruct (startWS_run e (wsEndpoint n3) apis (WSModules (config n3))
                  (WSOrigins (config n3)) (WSExposeAll (config n3)) n3)
        as [[_ ->]|[[e4 ->]|[a4 (_ & _ & ->)]]]; try discriminate.
      intros H; apply triple_inv in H as ([= <-] & <- & <-).
      repeat split; auto; try solve_held; solve_calls.
Qed.

(** ** A failing [Start] *)

Lemma heldFrom_starts ks : forall h,
  heldFrom h (map (fun k => EvServiceStart k true) ks) = h ++ map RService ks.
Proof.
  induction ks as [|k ks IH]; intros h.
  - simpl. now rewrite app_nil_r.
  - change (heldFrom (h ++ [RService k])
              (map (fun k => EvServiceStart k true) ks)
            = h ++ RService k :: map RService ks).
    rewrite IH. now rewrite <- app_assoc.
Qed.

Lemma noListener_services base ks :
  onlyLocks base -> noListener (base ++ RPeerServer :: map RService ks).
Proof.
  intros Hb t Hin. apply in_app_or in Hin as [Hin|[Hin|Hin]].
  - now destruct (Hb _ Hin).
  - discriminate.
  - apply in_map_iff in Hin as (k & Hk & _). discriminate.
Qed.

(** What [openDataDir] leaves behind: nothing, or the lock. *)
Lemma openDataDir_facts e n :
  let r := openDataDir e n in
  onlyLocks (held (trace r)) /\
  startCalls (trace r) = [] /\ stopCalls (trace r) = [] /\
  constructed (trace r) = [] /\
  (forall k b, ~ In (EvServiceStart k b) (trace r)) /\
  (forall i o, ~ In (EvConstruct i o) (trace r)) /\
  (final r = n \/ final r = set_instanceDirLock (Some (lockPath e n)) n) /\
  (result r = None -> DataDir (config n) <> "" ->
   held (trace r) = [RLock (lockPath e n)] /\
   final r = set_instanceDirLock (Some (lockPath e n)) n).
Proof.
  cbv zeta.
  destruct (openDataDir_run e n) as [[-> Hd]|[[err ->]|[[err ->]|[-> Hd]]]];
    unfold result, final, trace, held; cbn [fst snd];
    (split; [intros r Hin; simpl in Hin;
             repeat (destruct Hin as [<-|Hin]; [now eexists|]); contradiction|]);
    (split; [reflexivity|]); (split; [reflexivity|]); (split; [reflexivity|]);
    (split; [intros k b Hin; simpl in Hin; intuition discriminate|]);
    (split; [intros i o Hin; simpl in Hin; intuition discriminate|]);
    (split; [auto|]); intros Hres Hne;
    try contradiction; try discriminate; split; reflexivity.
Qed.

Lemma Permutation_keys (m m' : ServiceMap) :
  Permutation m m' -> Permutation (mapKeys m) (mapKeys m').
Proof. apply Permutation_map. Qed.

Lemma range_known e site (services : ServiceMap) k :
  EnvOK e -> In k (mapKeys (rangeOrder e site services)) ->
  mapHas services k = true.
Proof.
  intros He Hin. apply mapHas_In.
  eapply Permutation_in; [|exact Hin]. apply Permutation_keys, He.
Qed.

Lemma range_incl e site site' (services : ServiceMap) :
  EnvOK e ->
  incl (mapKeys (rangeOrder e site services))
       (mapKeys (rangeOrder e site' services)).
Proof.
  intros He k Hin. eapply Permutation_in; [|exact Hin].
  apply Permutation_keys. etransitivity; [apply He|]. symmetry. apply He.
Qed.

Lemma release_server base :
  onlyLocks base -> release RPeerServer (base ++ [RPeerServer]) = base.
Proof.
  intros Hb. rewrite release_app, release_onlyLocks by (auto; discriminate).
  simpl. apply app_nil_r.
Qed.

(** The service-start loop with its rollback leaves what was held before
    the peer-transport server was started. *)
Lemma startServices_failure_held e running (services : ServiceMap) base err :
  EnvOK e -> onlyLocks base ->
  fst (startServices running services (rangeOrder e RangeStart services) [])
  = Some err ->
  heldFrom (base ++ [RPeerServer])
    (snd (startServices running services (rangeOrder e RangeStart services) []))
  = base.
Proof.
  intros He Hb Hf.
  destruct (startServices_run running services (rangeOrder e RangeStart services) [])
    as [(Hr & _)|(pre & k & s & post & err' & Hsplit & _ & _ & _ & ->)].
  - intros k Hk. simpl in Hk. eapply range_known; eassumption.
  - congruence.
  - rewrite !heldFrom_app, heldFrom_starts. simpl.
    rewrite <- app_assoc. simpl.
    rewrite heldFrom_stop_services by (auto using incl_refl).
    simpl. now apply release_server.
Qed.

Ltac field_facts Hn1 :=
  destruct Hn1 as [-> | ->]; simpl; auto 10.

(** A failing [Start] on an idle node: every lifecycle field is as
    before, every handler field is cleared or untouched, and what the
    trace leaves held is what [openDataDir] took. *)
Lemma Start_failure e n err n' t :
  EnvOK e -> isSome (server n) = false ->
  Start e n = (Some err, n', t) ->
  (server n' = server n /\ services n' = services n /\
   rpcAPIs n' = rpcAPIs n /\
   instanceDirLock n' = instanceDirLock (final (openDataDir e n))) /\
  (inprocHandler n' = None \/ inprocHandler n' = inprocHandler n) /\
  (ipcHandler n' = None \/ ipcHandler n' = ipcHandler n) /\
  (ipcListener n' = None \/ ipcListener n' = ipcListener n) /\
  (httpHandler n' = None \/ httpHandler n' = httpHandler n) /\
  (wsHandler n' = None \/ wsHandler n' = wsHandler n) /\
  held t = held (trace (openDataDir e n)).
Proof.
  intros He Hidle. rewrite (Start_unfold e n Hidle).
  pose proof (openDataDir_facts e n) as Hod. cbv zeta in Hod.
  destruct (openDataDir e n) as [[o n1] t1].
  unfold result, final, trace in *. cbn [fst snd] in *.
  destruct Hod as (Hlocks & _ & _ & _ & _ & _ & Hn1 & _).
  destruct o as [err0|].
  { intros H; apply triple_inv in H as ([= <-] & <- & <-). field_facts Hn1. }
  cbv zeta. set (n2 := set_serverConfig (makeServerConfig e n1) n1).
  assert (Hn2 : n2 = set_serverConfig (makeServerConfig e n1) n1) by reflexivity.
  clearbody n2.
  pose proof (constructServices_events (config n2) (serviceFuncs n2) 0 []) as Hev.
  destruct (constructServices (config n2) 0 (serviceFuncs n2) [])
    as [[errc|built] tc]; cbn [fst snd] in *.
  { intros H; apply triple_inv in H as ([= <-] & <- & <-). subst n2.
    unfold held. rewrite heldFrom_app, (heldFrom_constructs _ Hev).
    field_facts Hn1. }
  destruct (p2p_Server_Start e (runningServer e n2 built)) as [errp|].
  { intros H; apply triple_inv in H as ([= <-] & <- & <-). subst n2.
    unfold held. rewrite !heldFrom_app, (heldFrom_constructs _ Hev).
    field_facts Hn1. }
  pose proof (@startServices_failure_held e (runningServer e n2 built) built
                (held t1)) as Hst.
  destruct (startServices (runningServer e n2 built) built
              (rangeOrder e RangeStart built) []) as [[errs|] ts] eqn:Hs;
    cbn [fst snd] in *.
  { intros H; apply triple_inv in H as ([= <-] & <- & <-). subst n2.
    unfold held. rewrite !heldFrom_app, (heldFrom_constructs _ Hev).
    change (heldFrom (heldFrom [] t1) [EvServerStart true])
      with (held t1 ++ [RPeerServer]).
    rewrite (Hst errs He Hlocks eq_refl).
    field_facts Hn1. }
  clear Hst.
  destruct (startRPC e built n2) as [[[errr|] n3] t3] eqn:Hrpc; [|discriminate].
  intros H; apply triple_inv in H as ([= <-] & <- & <-).
  destruct (startRPC_failure e built n2 Hrpc)
    as ((F1 & F2 & F3 & F4) & G1 & G2 & G3 & G4 & G5 & Hheld & _).
  assert (Hts : ts = map (fun k => EvServiceStart k true)
                         (mapKeys (rangeOrder e RangeStart built))).
  { destruct (startServices_run (runningServer e n2 built) built
                (rangeOrder e RangeStart built) [])
      as [(_ & _ & Ht)|(? & ? & ? & ? & ? & _ & _ & _ & Hf & _)].
    - intros k Hk. simpl in Hk. eapply range_known; eassumption.
    - rewrite Hs in Ht. exact Ht.
    - rewrite Hs in Hf. discriminate. }
  split; [|split; [|split; [|split; [|split; [|split]]]]].
  - rewrite F1, F2, F3, F4. subst n2. field_facts Hn1.
  - destruct G1 as [->| ->]; auto. subst n2. field_facts Hn1.
  - destruct G2 as [->| ->]; auto. subst n2. field_facts Hn1.
  - destruct G3 as [->| ->]; auto. subst n2. field_facts Hn1.
  - destruct G4 as [->| ->]; auto. subst n2. field_facts Hn1.
  - destruct G5 as [->| ->]; auto. subst n2. field_facts Hn1.
  - unfold held. rewrite !heldFrom_app, (heldFrom_constructs _ Hev).
    change (heldFrom (heldFrom [] t1) [EvServerStart true])
      with (held t1 ++ [RPeerServer]).
    rewrite Hts, heldFrom_starts, <- app_assoc. simpl app.
    rewrite Hheld by now apply noListener_services.
    rewrite <- (map_map fst EvServiceStop).
    change (map fst (rangeOrder e RangeRollback built))
      with (mapKeys (rangeOrder e RangeRollback built)).
    rewrite heldFrom_stop_services; auto.
    + simpl. now apply release_server.
    + apply (range_incl RangeStart RangeRollback built He).
Qed.

Lemma quiet_ok : EnvOK Demo.quiet.
Proof. intros site m. reflexivity. Qed.

Lemma reversed_ok : EnvOK Demo.reversed.
Proof.
  intros site m. destruct site; simpl; try reflexivity.
  symmetry. apply Permutation_rev.
Qed.

(** X29.  When [Start] fails on an idle node, the node is observably
    idle ([Node.Service] answers [ErrNodeStopped], [n.server] is nil), no
    service map or API list of this call is stored, every handler field
    and the local-socket listener field is cleared or untouched, and for
    every service, server and listener the call started or bound, its
    [Stop] or [Close] has been called.  The instance-directory lock is
    the exception: what [openDataDir] took stays held and stays stored in
    [instanceDirLock]. *)
Theorem Start_failure_unwinds_all_but_lock (e : Env) (n : Node) (err : Error) :
  EnvOK e ->
  isSome (server n) = false ->
  result (Start e n) = Some err ->
  (forall kind, Node_Service (final (Start e n)) kind = inl ErrNodeStopped) /\
  (server (final (Start e n)) = None /\
   services (final (Start e n)) = services n /\
   rpcAPIs (final (Start e n)) = rpcAPIs n) /\
  ((inprocHandler (final (Start e n)) = None \/
    inprocHandler (final (Start e n)) = inprocHandler n) /\
   (ipcHandler (final (Start e n)) = None \/
    ipcHandler (final (Start e n)) = ipcHandler n) /\
   (ipcListener (final (Start e n)) = None \/
    ipcListener (final (Start e n)) = ipcListener n) /\
   (httpHandler (final (Start e n)) = None \/
    httpHandler (final (Start e n)) = httpHandler n) /\
   (wsHandler (final (Start e n)) = None \/
    wsHandler (final (Start e n)) = wsHandler n)) /\
  (held (trace (Start e n)) = held (trace (openDataDir e n)) /\
   instanceDirLock (final (Start e n))
   = instanceDirLock (final (openDataDir e n))) /\
  (result (openDataDir e n) = None -> DataDir (config n) <> "" ->
   held (trace (Start e n)) = [RLock (lockPath e n)] /\
   instanceDirLock (final (Start e n)) = Some (lockPath e n)).
Proof.
  intros He Hidle Hres.
  destruct (Start e n) as [[o n'] t] eqn:HS.
  unfold result, final, trace in *. cbn [fst snd] in *. subst o.
  destruct (@Start_failure e n err n' t He Hidle HS)
    as ((F1 & F2 & F3 & F4) & G1 & G2 & G3 & G4 & G5 & Hheld).
  assert (Hsrv : server n' = None).
  { rewrite F1. destruct (server n); [discriminate | reflexivity]. }
  split; [|split; [|split; [|split]]].
  - intros kind. unfold Node_Service. now rewrite Hsrv.
  - auto.
  - auto 10.
  - auto.
  - intros Hod Hd. rewrite Hheld, F4.
    destruct (openDataDir_facts e n) as (_ & _ & _ & _ & _ & _ & _ & Hlock).
    destruct (Hlock Hod Hd) as [-> ->]. auto.
Qed.

Lemma Start_failure_unwinds_all_but_lock_witness :
  held (trace (Start Demo.quiet Demo.halfStarted)) = [RLock "/data/test/LOCK"] /\
  instanceDirLock (final (Start Demo.quiet Demo.halfStarted))
  = Some "/data/test/LOCK".
Proof.
  apply (@Start_failure_unwinds_all_but_lock Demo.quiet Demo.halfStarted
           (ErrorString "boom") quiet_ok);
    [reflexivity | reflexivity | reflexivity | discriminate].
Defined.

(** C1.  The code at the failing input.  With a data directory
    configured and a constructor that returns an error, [Start] fails
    after the lock has been taken: the lock is not released and stays
    stored in the struct.  The node is idle, so [Stop], the only method
    that releases the lock, refuses and releases nothing; and a further
    [Start], in the world where the lock file is therefore still locked,
    fails with [ErrDatadirUsed].  In the same way the HTTP server and
    listener address that [startHTTP] stored are kept when the WebSocket
    endpoint fails afterwards, so that [Node.HTTPEndpoint] goes on
    reporting the address of the closed listener. *)
Theorem Start_failure_keeps_lock :
  result (Start Demo.quiet Demo.unbuildable) = Some (ErrorString "cannot build") /\
  trace (Start Demo.quiet Demo.unbuildable)
  = [EvMkdirAll "/data/test"; EvFlock "/data/test/LOCK"; EvConstruct 0 None] /\
  held (trace (Start Demo.quiet Demo.unbuildable)) = [RLock "/data/test/LOCK"] /\
  instanceDirLock (final (Start Demo.quiet Demo.unbuildable))
  = Some "/data/test/LOCK" /\
  Stop Demo.quiet (final (Start Demo.quiet Demo.unbuildable))
  = (Some ErrNodeStopped, final (Start Demo.quiet Demo.unbuildable), []) /\
  result (Start Demo.locked (final (Start Demo.quiet Demo.unbuildable)))
  = Some ErrDatadirUsed /\
  result (Start Demo.wsBusy (Demo.node Demo.bothConf))
  = Some (ErrorString "address already in use") /\
  httpHandler (final (Start Demo.wsBusy (Demo.node Demo.bothConf))) = None /\
  httpServer (final (Start Demo.wsBusy (Demo.node Demo.bothConf))) <> None /\
  httpListenerAddr (final (Start Demo.wsBusy (Demo.node Demo.bothConf)))
  = Some "127.0.0.1:8545" /\
  instanceDirLock (final (Start Demo.wsBusy (Demo.node Demo.bothConf)))
  = Some "/data/test/LOCK".
Proof. repeat split; try reflexivity. discriminate. Qed.

(** ** What the endpoint methods emit *)

Lemma logs_endpoint t :
  forallb isLog t = true -> forallb isEndpointEvent t = true.
Proof.
  induction t as [|ev t IH]; simpl; intros H; [reflexivity|].
  apply andb_true_iff in H as [Hev Ht]. rewrite (IH Ht).
  now destruct ev.
Qed.

Lemma RegisterApis_endpoint e apis modules srv exposeAll :
  forallb isEndpointEvent
    (snd (RegisterApisFromWhitelist e apis modules srv exposeAll)) = true.
Proof. apply logs_endpoint, RegisterApis_trace. Qed.

Lemma stopEvents_endpoint b1 b2 t :
  forallb isEndpointEvent (stopEvents b1 b2 t) = true.
Proof. now destruct b1, b2. Qed.

Ltac solve_events :=
  rewrite ?forallb_app, ?RegisterApis_endpoint, ?stopEvents_endpoint;
  reflexivity.

Lemma startRPC_events e services n :
  forallb isEndpointEvent (trace (startRPC e services n)) = true.
Proof.
  rewrite startRPC_unfold. cbv zeta. unfold trace.
  generalize (allAPIs e services). intros apis.
  destruct (startInProc_run e apis n) as [[e1 ->]|[h1 ->]]; [reflexivity|].
  set (n1 := set_inprocHandler (Some h1) n).
  destruct (startIPC_run e apis n1) as [[_ ->]|[[e2 ->]|[h2 ->]]].
  2:{ cbn [snd]. solve_events. }
  - destruct (startHTTP_run e (httpEndpoint n1) apis (HTTPModules (config n1))
                (HTTPCors (config n1)) (HTTPVirtualHosts (config n1))
                (HTTPTimeouts (config n1)) (WSOrigins (config n1)) n1)
      as [[_ ->]|[[e3 ->]|[a3 (_ & _ & ->)]]].
    2:{ cbn [snd]. solve_events. }
    + destruct (negb _); [|reflexivity].
      destruct (startWS_run e (wsEndpoint n1) apis (WSModules (config n1))
                  (WSOrigins (config n1)) (WSExposeAll (config n1)) n1)
        as [[_ ->]|[[e4 ->]|[a4 (_ & _ & ->)]]]; cbn [snd]; solve_events.
    + set (n3 := set_httpHandler _ _).
      destruct (negb _); [|cbn [snd]; solve_events].
      destruct (startWS_run e (wsEndpoint n3) apis (WSModules (config n3))
                  (WSOrigins (config n3)) (WSExposeAll (config n3)) n3)
        as [[_ ->]|[[e4 ->]|[a4 (_ & _ & ->)]]]; cbn [snd]; solve_events.
  - set (n2 := set_ipcHandler _ _).
    destruct (startHTTP_run e (httpEndpoint n2) apis (HTTPModules (config n2))
                (HTTPCors (config n2)) (HTTPVirtualHosts (config n2))
                (HTTPTimeouts (config n2)) (WSOrigins (config n2)) n2)
      as [[_ ->]|[[e3 ->]|[a3 (_ & _ & ->)]]].
    2:{ cbn [snd]. solve_events. }
    + destruct (negb _); [|reflexivity].
      destruct (startWS_run e (wsEndpoint n2) apis (WSModules (config n2))
                  (WSOrigins (config n2)) (WSExposeAll (config n2)) n2)
        as [[_ ->]|[[e4 ->]|[a4 (_ & _ & ->)]]]; cbn [snd]; solve_events.
    + set (n3 := set_httpHandler _ _).
      destruct (negb _); [|cbn [snd]; solve_events].
      destruct (startWS_run e (wsEndpoint n3) apis (WSModules (config n3))
                  (WSOrigins (config n3)) (WSExposeAll (config n3)) n3)
        as [[_ ->]|[[e4 ->]|[a4 (_ & _ & ->)]]]; cbn [snd]; solve_events.
Qed.

Lemma forallb_In (A : Type) (p : A -> bool) (l : list A) (x : A) :
  forallb p l = true -> In x l -> p x = true.
Proof. intros H. now apply forallb_forall. Qed.

Lemma Start_running e n :
  isSome (server n) = true -> Start e n = (Some ErrNodeRunning, n, []).
Proof. intros H. unfold Start, bind, get. now rewrite H. Qed.

Lemma Stop_idle e n :
  isSome (server n) = false -> Stop e n = (Some ErrNodeStopped, n, []).
Proof. intros H. unfold Stop, bind, get. now rewrite H. Qed.

(** ** A service whose [Start] fails *)

Lemma NoDup_app_l (A : Type) (l l' : list A) : NoDup (l ++ l') -> NoDup l.
Proof.
  induction l as [|x l IH]; simpl; intros H; [constructor|].
  inversion H; subst. constructor; [|now apply IH].
  intros Hin. apply H2. apply in_or_app. now left.
Qed.

Lemma NoDup_prefix_one (A : Type) (pre post : list A) (x : A) :
  NoDup (pre ++ x :: post) -> NoDup (pre ++ [x]).
Proof.
  intros H. apply (@NoDup_app_l _ (pre ++ [x]) post).
  now rewrite <- app_assoc.
Qed.

Ltac no_such_event Hin :=
  first
    [ contradiction
    | discriminate
    | solve [simpl in Hin; intuition discriminate]
    | solve [apply in_map_iff in Hin as (? & ? & ?); discriminate] ].

(** C2, as the code has it.  If the [Start] of some service fails during
    [Node.Start], then: before it, [Start] succeeded on a duplicate-free
    list [pre] of other constructed services, visited in the order the Go
    runtime iterates the service map (which need not be construction
    order); after it, [Stop] is called exactly once on each service of
    [pre], in their start order, then the peer-transport server is
    stopped; [Node.Start] returns the error of the failing service; and
    [Node.Service] answers [ErrNodeStopped] for every type. *)
Theorem service_start_failure_rolls_back (e : Env) (n : Node) (k : ReflectType) :
  EnvOK e ->
  In (EvServiceStart k false) (trace (Start e n)) ->
  exists t0 pre err services s,
    trace (Start e n)
    = t0 ++ map (fun k' => EvServiceStart k' true) pre
         ++ [EvServiceStart k false]
         ++ map EvServiceStop pre ++ [EvServerStop] /\
    (startCalls t0 = [] /\ stopCalls t0 = []) /\
    NoDup (pre ++ [k]) /\
    (forall k', In k' (pre ++ [k]) -> In k' (constructed t0)) /\
    (fst (constructServices (config n) 0 (serviceFuncs n) []) = inr services /\
     In (k, s) services /\
     svcStart s (runningServer e (set_serverConfig (makeServerConfig e n) n)
                               services) = Some err) /\
    result (Start e n) = Some err /\
    (forall kind, Node_Service (final (Start e n)) kind = inl ErrNodeStopped).
Proof.
  intros He Hin.
  destruct (isSome (server n)) eqn:Hidle.
  { rewrite (Start_running e n Hidle) in Hin. contradiction. }
  rewrite (Start_unfold e n Hidle) in *.
  pose proof (openDataDir_facts e n) as Hod. cbv zeta in Hod.
  destruct (openDataDir e n) as [[o1 n1] t1].
  unfold result, final, trace in *. cbn [fst snd] in *.
  destruct Hod as (_ & Hs1 & Hp1 & Hc1 & Hno1 & _ & Hn1 & _).
  destruct o1 as [err1|]; [cbn [snd] in Hin; now apply Hno1 in Hin|].
  cbv zeta in *.
  assert (Hcfg : config (set_serverConfig (makeServerConfig e n1) n1) = config n
                 /\ serviceFuncs (set_serverConfig (makeServerConfig e n1) n1)
                    = serviceFuncs n
                 /\ serverConfig (set_serverConfig (makeServerConfig e n1) n1)
                    = makeServerConfig e n
                 /\ server (set_serverConfig (makeServerConfig e n1) n1) = None).
  { destruct (server n) eqn:Hsrv; [discriminate|].
    destruct Hn1 as [-> | ->]; simpl; auto. }
  destruct Hcfg as (Hcfg & Hfuncs & Hsc & Hsrv).
  set (n2 := set_serverConfig (makeServerConfig e n1) n1) in *. clearbody n2.
  rewrite Hcfg, Hfuncs in *.
  pose proof (constructServices_events (config n) (serviceFuncs n) 0 []) as Hev.
  destruct (constructServices (config n) 0 (serviceFuncs n) [])
    as [[errc|built] tc] eqn:Hc; cbn [fst snd] in *.
  { apply in_app_or in Hin as [Hin|Hin]; [now apply Hno1 in Hin|].
    apply (forallb_In _ _ _ Hev) in Hin. discriminate. }
  assert (Hrun : runningServer e n2 built
                 = runningServer e (set_serverConfig (makeServerConfig e n) n) built).
  { unfold runningServer. now rewrite Hsc. }
  rewrite Hrun in *. clear Hrun.
  set (running := runningServer e (set_serverConfig (makeServerConfig e n) n) built) in *.
  destruct (p2p_Server_Start e running) as [errp|].
  { cbn [snd] in Hin.
    apply in_app_or in Hin as [Hin|Hin]; [now apply Hno1 in Hin|].
    apply in_app_or in Hin as [Hin|Hin];
      [apply (forallb_In _ _ _ Hev) in Hin; discriminate | no_such_event Hin]. }
  destruct (startServices_run running built (rangeOrder e RangeStart built) [])
    as [(Hr & _ & Ht)|(pre & k' & s & post & err & Hsplit & _ & Hfail & Hr & Ht)].
  { intros k0 Hk0. simpl in Hk0. eapply range_known; eassumption. }
  - (* every service started: the failure event cannot be in the trace *)
    destruct (startServices running built (rangeOrder e RangeStart built) [])
      as [r ts]; cbn [fst snd] in *. subst r ts.
    pose proof (startRPC_events e built n2) as Hrev.
    destruct (startRPC e built n2) as [[[errr|] n3] t3];
      unfold trace in Hrev; cbn [fst snd] in *.
    all: repeat (apply in_app_or in Hin as [Hin|Hin]);
      try (now apply Hno1 in Hin);
      try (apply (forallb_In _ _ _ Hev) in Hin; discriminate);
      try (apply (forallb_In _ _ _ Hrev) in Hin; discriminate);
      no_such_event Hin.
  - destruct (startServices running built (rangeOrder e RangeStart built) [])
      as [r ts]; cbn [fst snd] in *. subst r ts.
    assert (Hk : k = k').
    { repeat (apply in_app_or in Hin as [Hin|Hin]);
        try (now apply Hno1 in Hin);
        try (apply (forallb_In _ _ _ Hev) in Hin; discriminate);
        try no_such_event Hin.
      destruct Hin as [Hin|[]]. now inversion Hin. }
    subst k'.
    assert (Hkeys : Permutation (mapKeys (pre ++ (k, s) :: post)) (mapKeys built)).
    { rewrite <- Hsplit. apply Permutation_keys, He. }
    assert (Hnd : NoDup (mapKeys pre ++ k :: mapKeys post)).
    { unfold mapKeys in *. rewrite map_app in Hkeys. simpl in Hkeys.
      eapply Permutation_NoDup; [symmetry; exact Hkeys|].
      eapply constructServices_NoDup; [exact Hc | constructor]. }
    exists (t1 ++ tc ++ [EvServerStart true]), (mapKeys pre), err, built, s.
    split; [now rewrite <- !app_assoc|].
    split.
    { rewrite !startCalls_app, !stopCalls_app, Hs1, Hp1.
      destruct (calls_constructs _ Hev) as (-> & -> & _). auto. }
    split; [now apply NoDup_prefix_one with (post := mapKeys post)|].
    split.
    { intros k0 Hk0. rewrite !constructed_app, Hc1. simpl. rewrite app_nil_r.
      rewrite (constructServices_keys _ _ _ _ Hc) in Hkeys. simpl in Hkeys.
      eapply Permutation_in; [exact Hkeys|].
      unfold mapKeys. rewrite map_app. simpl.
      apply in_app_or in Hk0 as [Hk0|[<-|[]]]; apply in_or_app; simpl; auto. }
    split.
    { split; [reflexivity|]. split; [|exact Hfail].
      eapply Permutation_in; [apply He|]. rewrite Hsplit.
      apply in_or_app. right. now left. }
    split; [reflexivity|].
    intros kind. unfold Node_Service. cbn [fst snd]. now rewrite Hsrv.
Qed.

Lemma service_start_failure_rolls_back_witness :
  exists t0 pre,
    trace (Start Demo.quiet Demo.halfStarted)
    = t0 ++ map (fun k' => EvServiceStart k' true) pre
         ++ [EvServiceStart "B" false]
         ++ map EvServiceStop pre ++ [EvServerStop] /\
    NoDup (pre ++ ["B"]).
Proof.
  destruct (@service_start_failure_rolls_back Demo.quiet Demo.halfStarted "B"
              quiet_ok)
    as (t0 & pre & err & services & s & H1 & _ & H3 & _).
  - vm_compute. auto 10.
  - exists t0, pre. split; assumption.
Defined.

(** C2 as stated fails.  The services are started in the order in which
    the runtime visits the service map.  When that order is the reverse of
    construction order, service B (constructed second, failing) is started
    first: [Start] returns its error while service A, constructed first and
    healthy, is neither started nor stopped. *)
Lemma start_order_is_not_construction_order :
  EnvOK Demo.reversed /\
  constructed (trace (Start Demo.reversed Demo.halfStarted)) = ["A"; "B"] /\
  startCalls (trace (Start Demo.reversed Demo.halfStarted)) = ["B"] /\
  stopCalls (trace (Start Demo.reversed Demo.halfStarted)) = [] /\
  result (Start Demo.reversed Demo.halfStarted) = Some (ErrorString "boom").
Proof. split; [exact reversed_ok | repeat split; reflexivity]. Qed.

Lemma startServices_events running (services : ServiceMap) :
  forall (todo : ServiceMap) (started : list ReflectType),
  forallb isLifecycleEvent (snd (startServices running services todo started))
  = true.
Proof.
  induction todo as [|[k s] todo IH]; intros started; simpl; [reflexivity|].
  destruct (svcStart s running); simpl; [|apply IH].
  rewrite forallb_app. simpl. rewrite andb_true_r.
  unfold stopStarted. induction started as [|k' started IHs]; simpl; auto.
  rewrite forallb_app, IHs. now destruct (mapHas services k').
Qed.

(** ** Duplicate service types *)

(** Constructor calls seen in the trace of [Start] are those of the
    construction loop, which ran after the lock had been taken. *)
Lemma Start_constructs e n i o :
  isSome (server n) = false ->
  In (EvConstruct i o) (trace (Start e n)) ->
  In (EvConstruct i o) (snd (constructServices (config n) 0 (serviceFuncs n) []))
  /\ result (openDataDir e n) = None.
Proof.
  intros Hidle Hin.
  rewrite (Start_unfold e n Hidle) in Hin.
  pose proof (openDataDir_facts e n) as Hod. cbv zeta in Hod.
  destruct (openDataDir e n) as [[o1 n1] t1].
  unfold result, final, trace in *. cbn [fst snd] in *.
  destruct Hod as (_ & _ & _ & _ & _ & Hno1 & Hn1 & _).
  destruct o1 as [err1|]; [cbn [snd] in Hin; now apply Hno1 in Hin|].
  split; [|reflexivity].
  cbv zeta in *.
  assert (Hcfg : config (set_serverConfig (makeServerConfig e n1) n1) = config n
                 /\ serviceFuncs (set_serverConfig (makeServerConfig e n1) n1)
                    = serviceFuncs n).
  { destruct Hn1 as [-> | ->]; simpl; auto. }
  destruct Hcfg as (Hcfg & Hfuncs).
  set (n2 := set_serverConfig (makeServerConfig e n1) n1) in *. clearbody n2.
  rewrite Hcfg, Hfuncs in *.
  destruct (constructServices (config n) 0 (serviceFuncs n) [])
    as [[errc|built] tc] eqn:Hc; cbn [fst snd] in *.
  { apply in_app_or in Hin as [Hin|Hin]; [now apply Hno1 in Hin | exact Hin]. }
  set (running := runningServer e n2 built) in *.
  destruct (p2p_Server_Start e running) as [errp|].
  { cbn [snd] in Hin.
    repeat (apply in_app_or in Hin as [Hin|Hin]);
      [now apply Hno1 in Hin | exact Hin | no_such_event Hin]. }
  pose proof (startServices_events running built
                (rangeOrder e RangeStart built) []) as Hse.
  destruct (startServices running built (rangeOrder e RangeStart built) [])
    as [[errs|] ts]; cbn [fst snd] in *.
  - repeat (apply in_app_or in Hin as [Hin|Hin]);
      try (now apply Hno1 in Hin); try exact Hin;
      try (apply (forallb_In _ _ _ Hse) in Hin; discriminate);
      no_such_event Hin.
  - pose proof (startRPC_events e built n2) as Hrev.
    destruct (startRPC e built n2) as [[[errr|] n3] t3];
      unfold trace in Hrev; cbn [fst snd] in *.
    all: repeat (apply in_app_or in Hin as [Hin|Hin]);
      try (now apply Hno1 in Hin); try exact Hin;
      try (apply (forallb_In _ _ _ Hse) in Hin; discriminate);
      try (apply (forallb_In _ _ _ Hrev) in Hin; discriminate);
      no_such_event Hin.
Qed.

(** C9.  If two constructor calls of one [Start] pass returned services of
    the same type, [Start] fails with [DuplicateServiceError] for that
    type, and [Start] was called on no service in that pass. *)
Theorem duplicate_kind_aborts_before_any_start
  (e : Env) (n : Node) (i j : nat) (k : ReflectType) :
  i <> j ->
  In (EvConstruct i (Some k)) (trace (Start e n)) ->
  In (EvConstruct j (Some k)) (trace (Start e n)) ->
  result (Start e n) = Some (DuplicateServiceError k) /\
  startCalls (trace (Start e n)) = [] /\
  server (final (Start e n)) = None.
Proof.
  intros Hij Hi Hj.
  destruct (isSome (server n)) eqn:Hidle.
  { rewrite (Start_running e n Hidle) in Hi. contradiction. }
  destruct (@Start_constructs e n i (Some k) Hidle Hi) as [Hi' Hod].
  destruct (@Start_constructs e n j (Some k) Hidle Hj) as [Hj' _].
  destruct (constructServices_duplicate (config n) (serviceFuncs n) 0 [])
    as (_ & _ & Hdup).
  specialize (Hdup i j k Hij Hi' Hj').
  rewrite (Start_unfold e n Hidle).
  pose proof (openDataDir_facts e n) as Hfacts. cbv zeta in Hfacts.
  destruct (openDataDir e n) as [[o1 n1] t1].
  unfold result, final, trace in *. cbn [fst snd] in *. subst o1.
  destruct Hfacts as (_ & Hs1 & _ & _ & _ & _ & Hn1 & _).
  cbv zeta.
  assert (Hcfg : config (set_serverConfig (makeServerConfig e n1) n1) = config n
                 /\ serviceFuncs (set_serverConfig (makeServerConfig e n1) n1)
                    = serviceFuncs n
                 /\ server (set_serverConfig (makeServerConfig e n1) n1) = None).
  { destruct (server n) eqn:Hsrv; [discriminate|].
    destruct Hn1 as [-> | ->]; simpl; auto. }
  destruct Hcfg as (Hcfg & Hfuncs & Hsrv).
  rewrite Hcfg, Hfuncs.
  pose proof (constructServices_events (config n) (serviceFuncs n) 0 []) as Hev.
  destruct (constructServices (config n) 0 (serviceFuncs n) []) as [r tc].
  cbn [fst snd] in *. subst r. cbn [fst snd].
  split; [reflexivity|]. split; [|exact Hsrv].
  rewrite startCalls_app, Hs1.
  now destruct (calls_constructs _ Hev) as (-> & _).
Qed.

Lemma duplicate_kind_aborts_before_any_start_witness :
  result (Start Demo.quiet Demo.duplicated) = Some (DuplicateServiceError "A") /\
  startCalls (trace (Start Demo.quiet Demo.duplicated)) = [] /\
  server (final (Start Demo.quiet Demo.duplicated)) = None.
Proof.
  apply (@duplicate_kind_aborts_before_any_start
           Demo.quiet Demo.duplicated 0 1 "A").
  - discriminate.
  - vm_compute. auto 10.
  - vm_compute. auto 10.
Defined.

(** ** [Stop] on a running node *)

(** The stop loop calls [Stop] on every service it is given, whatever the
    calls return. *)
Lemma stopServices_trace : forall (todo : ServiceMap) failure,
  snd (stopServices todo failure) = map EvServiceStop (mapKeys todo).
Proof.
  induction todo as [|[k s] todo IH]; intros failure; simpl; [reflexivity|].
  now rewrite IH.
Qed.

(** The errors gathered: one entry for each type whose [Stop] failed. *)
Lemma stopServices_failure : forall (todo : ServiceMap) failure,
  NoDup (mapKeys failure) ->
  NoDup (mapKeys (fst (stopServices todo failure))) /\
  (forall kind,
     In kind (mapKeys (fst (stopServices todo failure))) <->
     In kind (mapKeys failure) \/
     exists s, In (kind, s) todo /\ svcStop s <> None).
Proof.
  induction todo as [|[k s] todo IH]; intros failure Hnd; simpl.
  - split; [exact Hnd|]. intros kind. split; [auto|].
    intros [H|(s & [] & _)]. exact H.
  - destruct (svcStop s) as [err|] eqn:Hs.
    + destruct (IH (mapSet failure k err) (@mapSet_NoDup _ failure k err Hnd)) as [IH1 IH2].
      split; [exact IH1|]. intros kind. rewrite IH2.
      rewrite <- !mapHas_In, mapHas_mapSet, orb_true_iff, String.eqb_eq.
      split.
      * intros [[<-|H]|(s' & Hin & Hf)]; auto.
        -- right. exists s. split; [now left | congruence].
        -- right. exists s'. auto.
      * intros [H|(s' & [Heq|Hin] & Hf)]; auto.
        -- inversion Heq; subst. auto.
        -- right. exists s'. auto.
    + destruct (IH failure Hnd) as [IH1 IH2].
      split; [exact IH1|]. intros kind. rewrite IH2.
      split.
      * intros [H|(s' & Hin & Hf)]; auto. right. exists s'. auto.
      * intros [H|(s' & [Heq|Hin] & Hf)]; auto.
        -- inversion Heq; subst. congruence.
        -- right. exists s'. auto.
Qed.

Lemma set_instanceDirLock_None n :
  instanceDirLock n = None -> set_instanceDirLock None n = n.
Proof. destruct n; simpl; now intros ->. Qed.

(** [Stop] on a running node, as one expression. *)
Lemma Stop_unfold e n :
  isSome (server n) = true ->
  Stop e n =
  (let failure :=
     fst (stopServices (rangeOrder e RangeStop (servicesOf n)) []) in
   if (0 <? length failure)%nat then Some (StopError failure)
   else keystoreErr e n,
   stoppedNode n,
   stopEvents (isSome (wsHTTPServer n)) (isSome (wsHandler n)) WS
   ++ stopEvents (isSome (httpServer n)) (isSome (httpHandler n)) HTTP
   ++ stopEvents (isSome (ipcListener n)) (isSome (ipcHandler n)) IPC
   ++ map EvServiceStop (mapKeys (rangeOrder e RangeStop (servicesOf n)))
   ++ [EvServerStop]
   ++ lockEvents e n
   ++ [EvCloseStop]
   ++ keystoreEvents n).
Proof.
  intros Hrun. unfold Stop. unfold bind at 1, get at 1. rewrite Hrun.
  cbn [negb]. unfold bind at 1. rewrite stopWS_run.
  unfold bind at 1. rewrite stopHTTP_run.
  unfold bind at 1. rewrite stopIPC_run.
  unfold keystoreErr, keystoreEvents, lockEvents, stoppedNode.
  rewrite <- (stopServices_trace (rangeOrder e RangeStop (servicesOf n)) []).
  destruct (stopServices (rangeOrder e RangeStop (servicesOf n)) [])
    as [failure ts]. cbn [fst snd].
  munfold. cbn [fst snd isSome httpServer httpHandler ipcListener ipcHandler
                set_wsHandler set_httpHandler].
  destruct (instanceDirLock n) as [lock|] eqn:Hlock.
  - destruct (Release e lock);
      destruct (negb (String.eqb (ephemeralKeystore n) ""));
      destruct (0 <? length failure)%nat;
      try destruct (os_RemoveAll e (ephemeralKeystore n));
      cbn; rewrite ?app_nil_r, <- ?app_assoc; reflexivity.
  - rewrite (set_instanceDirLock_None
               (set_server None
                  (set_services None
                     (set_rpcAPIs []
                        (set_ipcHandler None
                           (set_ipcListener None
                              (set_httpHandler None (set_wsHandler None n))))))))
      by exact Hlock.
    destruct (negb (String.eqb (ephemeralKeystore n) ""));
      destruct (0 <? length failure)%nat;
      try destruct (os_RemoveAll e (ephemeralKeystore n));
      cbn; rewrite ?app_nil_r, <- ?app_assoc; reflexivity.
Qed.

Lemma mapSet_In (V : Type) (m : list (string * V)) k v k' v' :
  In (k', v') (mapSet m k v) -> (k', v') = (k, v) \/ In (k', v') m.
Proof.
  induction m as [|[k0 v0] m IH]; simpl.
  - intros [H|[]]. now left.
  - destruct (String.eqb k0 k); simpl.
    + intros [H|H]; auto.
    + intros [H|H]; auto. destruct (IH H); auto.
Qed.

Lemma stopServices_errors : forall (todo : ServiceMap) failure k err,
  In (k, err) (fst (stopServices todo failure)) ->
  In (k, err) failure \/ exists s, In (k, s) todo /\ svcStop s = Some err.
Proof.
  induction todo as [|[k0 s0] todo IH]; intros failure k err; simpl.
  - auto.
  - intros H. destruct (svcStop s0) as [err0|] eqn:Hs.
    + destruct (IH _ _ _ H) as [Hin|(s & Hin & Hf)].
      * apply mapSet_In in Hin as [Heq|Hin]; [|now left].
        inversion Heq; subst. right. exists s0. auto.
      * right. exists s. auto.
    + destruct (IH _ _ _ H) as [Hin|(s & Hin & Hf)]; [now left|].
      right. exists s. auto.
Qed.

(** C7, as the code has it.  [Stop] on a running node closes the
    WebSocket endpoint, then the HTTP endpoint, then the local-socket
    endpoint, calls [Stop] on every constructed service whatever the
    earlier calls returned, stops the peer-transport server, releases the
    instance lock (a failure is logged only), closes the stop channel and
    removes the ephemeral keystore, in this order.  When some service
    failed to stop it returns the aggregate [StopError], which has one
    entry per failing service type, holding an error that a service of
    that type returned; the error of the keystore removal is then not
    returned.  When every service stopped and the removal failed it
    returns the error of the removal itself, not an aggregate.  Else it
    returns nil.  What releasing the lock returns has no influence on the
    result. *)
Theorem Stop_tears_down_in_order (e : Env) (n : Node) :
  EnvOK e ->
  isSome (server n) = true ->
  trace (Stop e n)
  = stopEvents (isSome (wsHTTPServer n)) (isSome (wsHandler n)) WS
    ++ stopEvents (isSome (httpServer n)) (isSome (httpHandler n)) HTTP
    ++ stopEvents (isSome (ipcListener n)) (isSome (ipcHandler n)) IPC
    ++ map EvServiceStop (mapKeys (rangeOrder e RangeStop (servicesOf n)))
    ++ [EvServerStop]
    ++ lockEvents e n
    ++ [EvCloseStop]
    ++ keystoreEvents n /\
  Permutation (rangeOrder e RangeStop (servicesOf n)) (servicesOf n) /\
  (let failure := fst (stopServices (rangeOrder e RangeStop (servicesOf n)) []) in
   NoDup (mapKeys failure) /\
   (forall kind,
      In kind (mapKeys failure) <->
      exists s, In (kind, s) (servicesOf n) /\ svcStop s <> None) /\
   (forall kind err,
      In (kind, err) failure ->
      exists s, In (kind, s) (servicesOf n) /\ svcStop s = Some err) /\
   result (Stop e n)
   = if (0 <? length failure)%nat then Some (StopError failure)
     else keystoreErr e n) /\
  (result (Stop e n) = None <->
   (forall kind s, In (kind, s) (servicesOf n) -> svcStop s = None) /\
   keystoreErr e n = None) /\
  (server (final (Stop e n)) = None /\
   services (final (Stop e n)) = None /\
   rpcAPIs (final (Stop e n)) = [] /\
   instanceDirLock (final (Stop e n)) = None /\
   wsHandler (final (Stop e n)) = None /\
   httpHandler (final (Stop e n)) = None /\
   ipcHandler (final (Stop e n)) = None /\
   ipcListener (final (Stop e n)) = None /\
   stop (final (Stop e n)) = Some true).
Proof.
  intros He Hrun. rewrite (Stop_unfold e n Hrun).
  unfold result, final, trace. cbn [fst snd].
  destruct (stopServices_failure (rangeOrder e RangeStop (servicesOf n)) [])
    as [Hnd Hkeys]; [constructor|].
  assert (Hiff : forall kind,
             In kind (mapKeys (fst (stopServices
                        (rangeOrder e RangeStop (servicesOf n)) []))) <->
             exists s, In (kind, s) (servicesOf n) /\ svcStop s <> None).
  { intros kind. rewrite Hkeys. split.
    - intros [[]|(s & Hin & Hf)]. exists s. split; [|exact Hf].
      eapply Permutation_in; [apply He | exact Hin].
    - intros (s & Hin & Hf). right. exists s. split; [|exact Hf].
      eapply Permutation_in; [symmetry; apply He | exact Hin]. }
  assert (Herrs : forall kind err,
             In (kind, err) (fst (stopServices
                        (rangeOrder e RangeStop (servicesOf n)) [])) ->
             exists s, In (kind, s) (servicesOf n) /\ svcStop s = Some err).
  { intros kind err Hin.
    destruct (stopServices_errors _ _ _ _ Hin) as [[]|(s & Hs & Hf)].
    exists s. split; [|exact Hf].
    eapply Permutation_in; [apply He | exact Hs]. }
  split; [reflexivity|]. split; [apply He|].
  split; [cbv zeta; auto|].
  split; [|repeat split].
  cbv zeta.
  destruct (fst (stopServices (rangeOrder e RangeStop (servicesOf n)) []))
    as [|[k0 err0] failure] eqn:Hf; cbn [length Nat.ltb Nat.leb].
  - split.
    + intros Hk. split; [|exact Hk].
      intros kind s Hin. destruct (svcStop s) as [err|] eqn:Hs; [|reflexivity].
      assert (Hc : In kind (mapKeys (@nil (string * Error)))).
      { apply Hiff. exists s. split; [exact Hin | congruence]. }
      destruct Hc.
    + now intros [_ Hk].
  - split; [discriminate|].
    intros [Hall _].
    assert (Hc : In k0 (mapKeys ((k0, err0) :: failure))) by now left.
    apply Hiff in Hc as (s & Hin & Hne). now elim Hne; apply (Hall k0).
Qed.

Lemma Stop_tears_down_in_order_witness :
  trace (Stop Demo.quiet Demo.runningTwo)
  = [EvServiceStop "A"; EvServiceStop "B"; EvServerStop;
     EvRelease "/data/test/LOCK"; EvCloseStop] /\
  result (Stop Demo.quiet Demo.runningTwo)
  = Some (StopError [("B", ErrorString "stuck")]).
Proof.
  destruct (@Stop_tears_down_in_order Demo.quiet Demo.runningTwo quiet_ok)
    as (Ht & _ & (_ & _ & _ & Hr) & _).
  - vm_compute. reflexivity.
  - split; [rewrite Ht | rewrite Hr]; vm_compute; reflexivity.
Defined.

(** C7 as stated fails.  On a running node whose services all stop and
    whose ephemeral keystore cannot be removed, [Stop] returns the error
    of the removal itself, not an aggregate error; and when a service
    fails to stop as well, the aggregate error holds the error of the
    service only. *)
Lemma Stop_returns_bare_keystore_error :
  keystoreErr Demo.stuckKeystore (Demo.ephemeral [Demo.healthy "A"])
  = Some (ErrorString "directory not empty") /\
  result (Stop Demo.stuckKeystore (Demo.ephemeral [Demo.healthy "A"]))
  = Some (ErrorString "directory not empty") /\
  (forall failure,
     result (Stop Demo.stuckKeystore (Demo.ephemeral [Demo.healthy "A"]))
     <> Some (StopError failure)) /\
  keystoreErr Demo.stuckKeystore
    (Demo.ephemeral [Demo.healthy "A"; Demo.failingStop "B"])
  = Some (ErrorString "directory not empty") /\
  result (Stop Demo.stuckKeystore
            (Demo.ephemeral [Demo.healthy "A"; Demo.failingStop "B"]))
  = Some (StopError [("B", ErrorString "stuck")]).
Proof. repeat split; try reflexivity. discriminate. Qed.

(** ** The administrative [StartRPC] *)

Lemma hostPort_nonempty host port : GoStrings.hostPort host port <> "".
Proof. unfold GoStrings.hostPort. now destruct host. Qed.

Lemma vhostsOf_httpStack e n srv cors vhosts wsOrigins :
  vhostsOf (httpStack e n srv cors vhosts wsOrigins)
  = Some (map (strings_ToLower e) vhosts).
Proof.
  unfold httpStack, NewWebsocketUpgradeHandler, NewHTTPHandlerStack,
    newGzipHandler, newVHostHandler.
  now destruct (String.eqb (httpEndpoint n) (wsEndpoint n)).
Qed.

(** C10.  When [StartRPC] is called with a non-nil [vhosts] argument and
    succeeds, the virtual-host set of the HTTP endpoint it started is the
    comma-split, trimmed (and, as for every set, lower-cased) host, and
    the call does the same whatever string the [vhosts] argument holds. *)
Theorem StartRPC_vhosts_come_from_host
  (e : Env) (host : option string) (port : option Z)
  (cors apis : option string) (vhosts : string) (n : Node) :
  fst (result (StartRPC e host port cors apis (Some vhosts) n)) = true ->
  option_map (fun hs => vhostsOf (hsHandler hs))
    (httpServer (final (StartRPC e host port cors apis (Some vhosts) n)))
  = Some (Some (map (strings_ToLower e)
                    (splitAndTrim (effectiveHTTPHost n host)))) /\
  (forall other,
     StartRPC e host port cors apis (Some other) n
     = StartRPC e host port cors apis (Some vhosts) n).
Proof.
  intros Hok. split; [|reflexivity].
  destruct (StartRPC e host port cors apis (Some vhosts) n)
    as [[[ok oerr] n'] t] eqn:HS.
  unfold result, final in *. cbn [fst snd] in *. subst ok.
  revert HS. unfold StartRPC. unfold bind at 1, get at 1.
  destruct (isSome (httpHandler n)); [discriminate|].
  fold (effectiveHTTPHost n host).
  set (endpoint := GoStrings.hostPort _ _).
  set (modules := match apis with Some a => splitAndTrim a | None => _ end).
  set (origins := match cors with Some c => splitAndTrim c | None => _ end).
  unfold bind.
  destruct (startHTTP_run e endpoint (rpcAPIs n) modules origins
              (splitAndTrim (effectiveHTTPHost n host))
              (HTTPTimeouts (config n)) (WSOrigins (config n)) n)
    as [[Hempty _]|[[err ->]|[addr (_ & _ & ->)]]].
  - now elim (hostPort_nonempty _ _ Hempty).
  - discriminate.
  - unfold ret. intros HS. apply triple_inv in HS as (_ & <- & _).
    cbn [httpServer set_httpHandler set_httpServer option_map hsHandler].
    now rewrite vhostsOf_httpStack.
Qed.

Lemma StartRPC_vhosts_come_from_host_witness :
  option_map (fun hs => vhostsOf (hsHandler hs))
    (httpServer (final (StartRPC Demo.quiet (Some "LocalHost, 10.0.0.1")
                          (Some 8545%Z) None None (Some "example.org")
                          Demo.running)))
  = Some (Some ["localhost"; "10.0.0.1"]).
Proof.
  apply (@StartRPC_vhosts_come_from_host Demo.quiet
           (Some "LocalHost, 10.0.0.1") (Some 8545%Z) None None
           "example.org" Demo.running).
  vm_compute. reflexivity.
Defined.

(** ** Module whitelisting *)

Lemma mapGet_mapSet (V : Type) (m : list (string * V)) k k' v :
  mapGet (mapSet m k v) k' = if String.eqb k k' then Some v else mapGet m k'.
Proof.
  induction m as [|[k0 v0] m IH]; simpl.
  - reflexivity.
  - destruct (String.eqb_spec k0 k) as [->|Hne]; simpl.
    + now destruct (String.eqb k k').
    + rewrite IH. destruct (String.eqb_spec k0 k') as [->|Hne'].
      * destruct (String.eqb_spec k k'); [congruence | reflexivity].
      * reflexivity.
Qed.

Lemma whitelistGet_fold modules : forall w name,
  whitelistGet (fold_left (fun w module => mapSet w module true) modules w) name
  = whitelistGet w name || setHas modules name.
Proof.
  unfold whitelistGet, setHas.
  induction modules as [|m modules IH]; intros w name; simpl.
  - now rewrite orb_false_r.
  - rewrite IH, mapGet_mapSet, (String.eqb_sym name m).
    destruct (String.eqb m name); simpl.
    + now destruct (mapGet w name) as [[|]|].
    + reflexivity.
Qed.

Lemma mapSet_nonempty (V : Type) (m : list (string * V)) k v :
  mapSet m k v <> [].
Proof.
  destruct m as [|[k0 v0] m]; simpl; [discriminate|].
  destruct (String.eqb k0 k); discriminate.
Qed.

Lemma whitelist_fold_nonempty modules : forall w : list (string * bool),
  w <> [] ->
  fold_left (fun w module => mapSet w module true) modules w <> [].
Proof.
  induction modules as [|m modules IH]; intros w Hw; simpl; [exact Hw|].
  apply IH, mapSet_nonempty.
Qed.

(** The condition in the loop is the rule of the specification. *)
Lemma exposed_whitelistRule modules exposeAll api :
  exposed (makeWhitelist modules) exposeAll api
  = whitelistRule modules exposeAll api.
Proof.
  unfold exposed, whitelistRule, makeWhitelist.
  destruct exposeAll; [reflexivity|].
  destruct modules as [|m modules]; [reflexivity|].
  rewrite whitelistGet_fold. unfold whitelistGet at 1.
  assert (Hne : fold_left (fun (w : list (string * bool)) module =>
                             mapSet w module true) (m :: modules) [] <> []).
  { simpl. apply whitelist_fold_nonempty. discriminate. }
  destruct (fold_left (fun (w : list (string * bool)) module =>
                         mapSet w module true) (m :: modules) [])
    as [|x l]; [now elim Hne|].
  simpl. now rewrite orb_false_r.
Qed.

Lemma registerExposed_ok e whitelist exposeAll apis : forall srv,
  (forall api, In api apis -> exposed whitelist exposeAll api = true ->
               rpc_RegisterName e (rpc.Namespace api) (rpc.Service api) = None) ->
  registerExposed e whitelist exposeAll apis srv
  = (None,
     {| rpc.registered :=
          rpc.registered srv
          ++ map (fun api => (rpc.Namespace api, rpc.Service api))
                 (filter (exposed whitelist exposeAll) apis) |}).
Proof.
  induction apis as [|api apis IH]; intros srv Hok; simpl.
  - rewrite app_nil_r. now destruct srv.
  - destruct (exposed whitelist exposeAll api) eqn:Hx.
    + unfold RegisterName. rewrite (Hok api (or_introl eq_refl) Hx).
      rewrite IH by (intros a Ha; apply Hok; now right). simpl.
      now rewrite <- app_assoc.
    + apply IH. intros a Ha; apply Hok; now right.
Qed.

(** An error of the registration is one [RegisterName] returned for an
    API the rule selects; the module list alone never produces one. *)
Lemma registerExposed_error e whitelist exposeAll apis : forall srv err,
  fst (registerExposed e whitelist exposeAll apis srv) = Some err ->
  exists api, In api apis /\ exposed whitelist exposeAll api = true /\
              rpc_RegisterName e (rpc.Namespace api) (rpc.Service api) = Some err.
Proof.
  induction apis as [|api apis IH]; intros srv err; simpl; [discriminate|].
  destruct (exposed whitelist exposeAll api) eqn:Hx.
  - unfold RegisterName.
    destruct (rpc_RegisterName e _ _) as [err'|] eqn:Hr; simpl.
    + intros [= <-]. exists api. auto.
    + intros H. destruct (IH _ _ H) as (a & Ha & Hxa & Hra). exists a. auto.
  - intros H. destruct (IH _ _ H) as (a & Ha & Hxa & Hra). exists a. auto.
Qed.

Transparent RegisterApisFromWhitelist.

(** C4.  When [RegisterName] accepts every API the rule selects,
    [RegisterApisFromWhitelist] returns no error and registers exactly the
    selected APIs, in order: every API if [exposeAll] is set; else, with a
    non-empty module list, the APIs whose namespace is in the list; else
    the public APIs.  Requested namespaces that no API has are logged and
    do not change the result. *)
Theorem RegisterApisFromWhitelist_follows_rule
  (e : Env) (apis : list rpc.API) (modules : list string)
  (srv : rpc.Server) (exposeAll : bool) :
  (forall api, In api apis -> whitelistRule modules exposeAll api = true ->
               rpc_RegisterName e (rpc.Namespace api) (rpc.Service api) = None) ->
  fst (fst (RegisterApisFromWhitelist e apis modules srv exposeAll)) = None /\
  rpc.registered (snd (fst (RegisterApisFromWhitelist e apis modules srv exposeAll)))
  = rpc.registered srv
    ++ map (fun api => (rpc.Namespace api, rpc.Service api))
           (filter (whitelistRule modules exposeAll) apis) /\
  snd (RegisterApisFromWhitelist e apis modules srv exposeAll)
  = (if (0 <? length (absentModules modules apis))%nat
     then [EvLogError "Unavailable modules in HTTP API list"
                      (absentModules modules apis)]
     else []).
Proof.
  intros Hok. unfold RegisterApisFromWhitelist, checkModuleAvailability.
  fold (absentModules modules apis). cbn [fst snd].
  rewrite registerExposed_ok.
  - cbn [fst snd rpc.registered]. repeat split.
    f_equal. f_equal. apply filter_ext. intros api.
    apply exposed_whitelistRule.
  - intros api Hin Hx. apply Hok; [exact Hin|].
    now rewrite <- exposed_whitelistRule.
Qed.

Opaque RegisterApisFromWhitelist.

Lemma RegisterApisFromWhitelist_follows_rule_witness :
  rpc.registered
    (snd (fst (RegisterApisFromWhitelist Demo.quiet apis ["web3"; "eth"]
                 rpc.NewServer false)))
  = [("web3", rpc.PublicWeb3API)] /\
  snd (RegisterApisFromWhitelist Demo.quiet apis ["web3"; "eth"]
         rpc.NewServer false)
  = [EvLogError "Unavailable modules in HTTP API list" ["eth"]].
Proof.
  destruct (@RegisterApisFromWhitelist_follows_rule Demo.quiet apis
              ["web3"; "eth"] rpc.NewServer false)
    as (_ & Hreg & Hlog).
  - intros api _ _. reflexivity.
  - split; [rewrite Hreg | rewrite Hlog]; reflexivity.
Defined.

(** ** The HTTP handler stack *)

(** The virtual-host handler rejects exactly under [vhostRejects]. *)
Lemma virtualHostHandler_serve x vhosts next r :
  ServeHTTP x (virtualHostHandler vhosts next) r
  = if vhostRejects x vhosts r
    then http_Error "invalid host specified" StatusForbidden
    else ServeHTTP x next r.
Proof.
  unfold vhostRejects. cbn [ServeHTTP].
  destruct (String.eqb (Host r) ""); [reflexivity|].
  destruct (net_ParseIP x (hostOnly x r)); [reflexivity|].
  destruct (setHas vhosts "*"); [reflexivity|].
  now destruct (setHas vhosts (hostOnly x r)).
Qed.

(** C6, as the code has it.  The handler stack answers a request as
    follows.  The virtual-host check comes before cross-origin filtering:
    a request that names a host is rejected with Forbidden exactly when
    that host, without its port, is no IP literal, the virtual-host set
    has no wildcard entry and the host is not in the set, and then
    neither the cross-origin filter nor the dispatcher runs; a request
    that names no host passes the check.  The set holds the configured
    names as [strings.ToLower] returns them; the host of the request is
    looked up as it was sent.  A request that passes is handed to the
    cross-origin filter (when origins are configured) and then to the
    dispatcher.  Gzip wraps the whole response, rejections included,
    exactly when the Accept-Encoding header of the request mentions
    gzip. *)
Theorem http_handler_stack_pipeline
  (x : HTTPEnv) (ToLower : string -> string) (srv : Handler)
  (cors vhosts : list string) (r : Request) :
  let filtered :=
    if (length cors =? 0)%nat then ServeHTTP x srv r
    else cors_Handler x cors (ServeHTTP x srv) r in
  let checked :=
    if vhostRejects x (map ToLower vhosts) r
    then http_Error "invalid host specified" StatusForbidden
    else filtered in
  ServeHTTP x (NewHTTPHandlerStack ToLower srv cors vhosts) r
  = if GoStrings.Contains (Header_Get (Header r) "Accept-Encoding") "gzip"
    then [HeaderSet "Content-Encoding" "gzip"]
         ++ flat_map gzipResponseWriter checked ++ [GzipClose]
    else checked.
Proof.
  cbv zeta.
  unfold NewHTTPHandlerStack, newGzipHandler, newVHostHandler, newCorsHandler.
  change (ServeHTTP x (gzipHandler ?h) r)
    with (if negb (GoStrings.Contains (Header_Get (Header r) "Accept-Encoding") "gzip")
          then ServeHTTP x h r
          else [HeaderSet "Content-Encoding" "gzip"]
               ++ flat_map gzipResponseWriter (ServeHTTP x h r) ++ [GzipClose]).
  rewrite virtualHostHandler_serve.
  destruct (length cors =? 0)%nat;
    now destruct (GoStrings.Contains _ "gzip").
Qed.

Lemma http_handler_stack_pipeline_witness :
  ServeHTTP DemoHTTP.env
    (NewHTTPHandlerStack GoStrings.ToLower DemoHTTP.srv ["*"] ["LocalHost"])
    DemoHTTP.foreign
  = [HeaderSet "Content-Encoding" "gzip";
     HeaderSet "Content-Type" "text/plain; charset=utf-8";
     HeaderSet "X-Content-Type-Options" "nosniff";
     HeaderDel "Content-Length";
     WriteHeader 403;
     GzipWrite ("invalid host specified" ++ String (ascii_of_nat 10) "");
     GzipClose].
Proof.
  rewrite (@http_handler_stack_pipeline DemoHTTP.env GoStrings.ToLower
             DemoHTTP.srv ["*"] ["LocalHost"] DemoHTTP.foreign).
  reflexivity.
Defined.

(** C6 as stated fails.  A request that names no host (HTTP/1.0 without a
    Host header) meets the rejection condition of the specification, for
    its empty host is no IP literal, the set has no wildcard entry and the
    empty host is not in the set; the handler serves it all the same. *)
Lemma request_without_host_is_served :
  specRejects DemoHTTP.env ["localhost"] DemoHTTP.noHost = true /\
  ServeHTTP DemoHTTP.env
    (NewHTTPHandlerStack GoStrings.ToLower DemoHTTP.srv [] ["localhost"]) DemoHTTP.noHost
  = [WriteHeader 200; Write "rpc"] /\
  ServeHTTP DemoHTTP.env
    (NewHTTPHandlerStack GoStrings.ToLower DemoHTTP.srv [] ["localhost"]) DemoHTTP.noHost
  <> http_Error "invalid host specified" StatusForbidden.
Proof. repeat split; try reflexivity. discriminate. Qed.

(** ** HTTP and WebSocket on one listener *)

Lemma openDataDir_listens e n u : listens u (trace (openDataDir e n)) = [].
Proof.
  destruct (openDataDir_run e n) as [[-> _]|[[err ->]|[[err ->]|[-> _]]]];
    reflexivity.
Qed.

Lemma lifecycle_listens t u :
  forallb isLifecycleEvent t = true -> listens u t = [].
Proof.
  induction t as [|ev t IH]; simpl; intros H; [reflexivity|].
  apply andb_true_iff in H as [Hev Ht].
  destruct ev; try discriminate; simpl; now apply IH.
Qed.

Lemma listens_logs e apis modules srv exposeAll u :
  listens u (snd (RegisterApisFromWhitelist e apis modules srv exposeAll)) = [].
Proof. apply calls_logs, RegisterApis_trace. Qed.

(** With both endpoints on one non-empty address, a successful [startRPC]
    binds that address once, for HTTP, starts no WebSocket endpoint, and
    serves the HTTP stack behind the upgrade switch. *)
Lemma startRPC_shared e (svcs : ServiceMap) n n' t :
  httpEndpoint n = wsEndpoint n -> httpEndpoint n <> "" ->
  startRPC e svcs n = (None, n', t) ->
  listens HTTP t = [httpEndpoint n] /\ listens WS t = [] /\
  wsHandler n' = wsHandler n /\ wsHTTPServer n' = wsHTTPServer n /\
  exists srv addr,
    httpHandler n' = Some srv /\
    httpServer n'
    = Some {| hsHandler :=
                NewWebsocketUpgradeHandler
                  (NewHTTPHandlerStack (strings_ToLower e) (RPCHandler srv) (HTTPCors (config n))
                     (HTTPVirtualHosts (config n)))
                  (WebsocketHandler srv (WSOrigins (config n)));
              hsAddr := addr |}.
Proof.
  intros Heq Hne. rewrite startRPC_unfold. cbv zeta.
  generalize (allAPIs e svcs). intros apis.
  destruct (startInProc_run e apis n) as [[e1 ->]|[h1 ->]]; [discriminate|].
  set (n1 := set_inprocHandler (Some h1) n).
  assert (Hshared : forall m : Node,
             httpEndpoint m = httpEndpoint n -> wsEndpoint m = wsEndpoint n ->
             config m = config n ->
             wsHandler m = wsHandler n -> wsHTTPServer m = wsHTTPServer n ->
             forall t0, listens HTTP t0 = [] -> listens WS t0 = [] ->
             match
               startHTTP e (httpEndpoint m) apis (HTTPModules (config m))
                 (HTTPCors (config m)) (HTTPVirtualHosts (config m))
                 (HTTPTimeouts (config m)) (WSOrigins (config m)) m
             with
             | (Some err, n3, t3) =>
                 (Some err,
                  set_inprocHandler None
                    (set_ipcHandler None (set_ipcListener None n3)),
                  [] ++ t0 ++ t3
                  ++ stopEvents (isSome (ipcListener n3)) (isSome (ipcHandler n3)) IPC
                  ++ stopEvents false (isSome (inprocHandler n3)) InProc)
             | (None, n3, t3) =>
                 match
                   (if negb (String.eqb (httpEndpoint n3) (wsEndpoint n3))
                    then startWS e (wsEndpoint n3) apis (WSModules (config n3))
                           (WSOrigins (config n3)) (WSExposeAll (config n3)) n3
                    else (None, n3, []))
                 with
                 | (Some err, n4, t4) =>
                     (Some err,
                      set_inprocHandler None
                        (set_ipcHandler None
                           (set_ipcListener None (set_httpHandler None n4))),
                      [] ++ t0 ++ t3 ++ t4
                      ++ stopEvents (isSome (httpServer n4)) (isSome (httpHandler n4)) HTTP
                      ++ stopEvents (isSome (ipcListener n4)) (isSome (ipcHandler n4)) IPC
                      ++ stopEvents false (isSome (inprocHandler n4)) InProc)
                 | (None, n4, t4) =>
                     (None, set_rpcAPIs apis n4, [] ++ t0 ++ t3 ++ t4)
                 end
             end = (None, n', t) ->
             listens HTTP t = [httpEndpoint n] /\ listens WS t = [] /\
             wsHandler n' = wsHandler n /\ wsHTTPServer n' = wsHTTPServer n /\
             exists srv addr,
               httpHandler n' = Some srv /\
               httpServer n'
               = Some {| hsHandler :=
                           NewWebsocketUpgradeHandler
                             (NewHTTPHandlerStack (strings_ToLower e) (RPCHandler srv)
                                (HTTPCors (config n))
                                (HTTPVirtualHosts (config n)))
                             (WebsocketHandler srv (WSOrigins (config n)));
                         hsAddr := addr |}).
  { intros m Hh Hw Hc Hwh Hws t0 Ht0 Ht0'.
    destruct (startHTTP_run e (httpEndpoint m) apis (HTTPModules (config m))
                (HTTPCors (config m)) (HTTPVirtualHosts (config m))
                (HTTPTimeouts (config m)) (WSOrigins (config m)) m)
      as [[Hempty _]|[[e3 ->]|[a3 (_ & _ & ->)]]].
    - congruence.
    - discriminate.
    - cbn [httpEndpoint wsEndpoint set_httpHandler set_httpServer
             set_httpListenerAddr set_httpEndpoint].
      rewrite Hh, Hw, Heq, String.eqb_refl. cbn [negb].
      intros H. apply triple_inv in H as (_ & <- & <-).
      rewrite !listens_app, Ht0, Ht0', !listens_logs. simpl.
      rewrite Hwh, Hws. repeat split; auto.
      eexists. eexists. split; [reflexivity|].
      unfold httpStack. rewrite Hh, Hw, Heq, String.eqb_refl, Hc.
      reflexivity. }
  destruct (startIPC_run e apis n1) as [[_ ->]|[[e2 ->]|[h2 ->]]].
  - apply (Hshared n1); reflexivity.
  - discriminate.
  - apply (Hshared (set_ipcHandler (Some h2)
                      (set_ipcListener (Some (ipcEndpoint n1)) n1)));
      reflexivity.
Qed.

Lemma isWebsocket_spec ToLower r :
  isWebsocket ToLower r = true <->
  ToLower (Header_Get (Header r) "Upgrade") = "websocket" /\
  ToLower (Header_Get (Header r) "Connection") = "upgrade".
Proof.
  unfold isWebsocket. now rewrite andb_true_iff, !String.eqb_eq.
Qed.

(** C5.  When the HTTP and WebSocket endpoints of the node are the same
    non-empty string and [Start] succeeds, the trace of [Start] binds that
    address exactly once, for HTTP, and binds no WebSocket listener; the
    WebSocket fields of the node are untouched.  The server on the shared
    listener serves a request through the WebSocket dispatcher when
    [strings.ToLower] of its Upgrade header is "websocket" and of its
    Connection header is "upgrade", and through the HTTP handler stack in
    every other case; both dispatch to the one RPC server that is the
    node's HTTP handler. *)
Theorem shared_endpoint_one_listener (e : Env) (n : Node) :
  isSome (server n) = false ->
  httpEndpoint n = wsEndpoint n ->
  httpEndpoint n <> "" ->
  result (Start e n) = None ->
  listens HTTP (trace (Start e n)) = [httpEndpoint n] /\
  listens WS (trace (Start e n)) = [] /\
  wsHandler (final (Start e n)) = wsHandler n /\
  wsHTTPServer (final (Start e n)) = wsHTTPServer n /\
  exists srv hs,
    httpHandler (final (Start e n)) = Some srv /\
    httpServer (final (Start e n)) = Some hs /\
    forall x r,
      (req_ToLower x (Header_Get (Header r) "Upgrade") = "websocket" /\
       req_ToLower x (Header_Get (Header r) "Connection") = "upgrade" ->
       ServeHTTP x (hsHandler hs) r
       = rpc_ServeWS x srv (WSOrigins (config n)) r
         ++ [LogDebug "serving websocket request"]) /\
      (~ (req_ToLower x (Header_Get (Header r) "Upgrade") = "websocket" /\
          req_ToLower x (Header_Get (Header r) "Connection") = "upgrade") ->
       ServeHTTP x (hsHandler hs) r
       = ServeHTTP x
           (NewHTTPHandlerStack (strings_ToLower e) (RPCHandler srv)
              (HTTPCors (config n)) (HTTPVirtualHosts (config n))) r).
Proof.
  intros Hidle Heq Hne. rewrite (Start_unfold e n Hidle).
  pose proof (openDataDir_listens e n) as Hl1.
  pose proof (openDataDir_facts e n) as Hod. cbv zeta in Hod.
  destruct (openDataDir e n) as [[o1 n1] t1].
  unfold result, final, trace in *. cbn [fst snd] in *.
  destruct Hod as (_ & _ & _ & _ & _ & _ & Hn1 & _).
  destruct o1 as [err1|]; [discriminate|].
  cbv zeta.
  set (n2 := set_serverConfig (makeServerConfig e n1) n1).
  assert (Hn2 : httpEndpoint n2 = httpEndpoint n /\ wsEndpoint n2 = wsEndpoint n
                /\ config n2 = config n /\ wsHandler n2 = wsHandler n
                /\ wsHTTPServer n2 = wsHTTPServer n).
  { subst n2. destruct Hn1 as [-> | ->]; simpl; auto. }
  destruct Hn2 as (Hh & Hw & Hc & Hwh & Hws). clearbody n2.
  pose proof (constructServices_events (config n2) (serviceFuncs n2) 0 []) as Hev.
  destruct (constructServices (config n2) 0 (serviceFuncs n2) [])
    as [[errc|built] tc]; cbn [fst snd] in *; [discriminate|].
  destruct (p2p_Server_Start e (runningServer e n2 built)); [discriminate|].
  pose proof (startServices_events (runningServer e n2 built) built
                (rangeOrder e RangeStart built) []) as Hse.
  destruct (startServices (runningServer e n2 built) built
              (rangeOrder e RangeStart built) []) as [[errs|] ts];
    cbn [fst snd] in *; [discriminate|].
  destruct (startRPC e built n2) as [[[errr|] n3] t3] eqn:Hrpc; [discriminate|].
  intros _. cbn [fst snd].
  destruct (@startRPC_shared e built n2 n3 t3)
    as (L1 & L2 & W1 & W2 & srv & addr & Hhandler & Hsrv);
    [congruence | congruence | exact Hrpc |].
  rewrite !listens_app, !Hl1, L1, L2, !(lifecycle_listens _ _ Hse).
  destruct (calls_constructs _ Hev) as (_ & _ & Hlc). rewrite !Hlc.
  cbn [set_stop set_server set_services wsHandler wsHTTPServer httpServer
       httpHandler].
  rewrite Hh, W1, W2, Hwh, Hws.
  repeat split; auto.
  eexists. eexists. split; [exact Hhandler|]. split; [exact Hsrv|].
  intros x r. rewrite Hc.
  cbn [hsHandler NewWebsocketUpgradeHandler ServeHTTP].
  pose proof (isWebsocket_spec (req_ToLower x) r) as Hspec.
  destruct (isWebsocket (req_ToLower x) r).
  - split; [reflexivity|]. intros Hno. elim Hno. now apply Hspec.
  - split; [|reflexivity]. intros Hup. apply Hspec in Hup. discriminate Hup.
Qed.

Lemma shared_endpoint_one_listener_witness :
  listens HTTP (trace (Start Demo.quiet (Demo.node Demo.sharedConf)))
  = ["127.0.0.1:8545"] /\
  listens WS (trace (Start Demo.quiet (Demo.node Demo.sharedConf))) = [] /\
  exists hs,
    httpServer (final (Start Demo.quiet (Demo.node Demo.sharedConf)))
    = Some hs /\
    ServeHTTP DemoHTTP.env (hsHandler hs) DemoHTTP.upgrade
    = [WriteHeader 101; LogDebug "serving websocket request"] /\
    ServeHTTP DemoHTTP.env (hsHandler hs) DemoHTTP.noHost
    = [WriteHeader 200; Write "rpc"].
Proof.
  destruct (@shared_endpoint_one_listener Demo.quiet (Demo.node Demo.sharedConf))
    as (H1 & H2 & _ & _ & srv & hs & _ & Hsrv & Hroute).
  - reflexivity.
  - reflexivity.
  - discriminate.
  - reflexivity.
  - split; [exact H1|]. split; [exact H2|].
    exists hs. split; [exact Hsrv|].
    destruct (Hroute DemoHTTP.env DemoHTTP.upgrade) as [Hup _].
    destruct (Hroute DemoHTTP.env DemoHTTP.noHost) as [_ Hplain].
    split.
    + rewrite Hup by (split; reflexivity). reflexivity.
    + rewrite Hplain; [reflexivity|]. intros [Hu _]. discriminate Hu.
Defined.

(** ** Endpoints and the lifecycle *)

Lemma idleClean_New e conf n : New e conf = inr n -> idleClean n.
Proof.
  unfold New. intros H _.
  destruct (if negb (String.eqb (DataDir conf) "") then _ else _)
    as [err|conf']; [discriminate|].
  destruct (GoStrings.ContainsAny _ _); [discriminate|].
  destruct (String.eqb _ datadirDefaultKeyStore); [discriminate|].
  destruct (GoStrings.HasSuffix _ _); [discriminate|].
  destruct (makeAccountManager e conf'); [discriminate|].
  inversion H; subst. repeat split.
Qed.

Lemma idleClean_Register c n : idleClean n -> idleClean (final (Register c n)).
Proof.
  intros Hinv. unfold Register. munfold.
  destruct (isSome (server n)) eqn:Hs; unfold final; cbn [fst snd].
  - exact Hinv.
  - intros _. exact (Hinv Hs).
Qed.

Lemma Start_success_running e n :
  isSome (server n) = false -> result (Start e n) = None ->
  isSome (server (final (Start e n))) = true.
Proof.
  intros Hidle. rewrite (Start_unfold e n Hidle). unfold result, final.
  destruct (openDataDir e n) as [[[err|] n1] t1]; [discriminate|].
  cbv zeta.
  destruct (fst (constructServices _ _ _ _)); [discriminate|].
  destruct (p2p_Server_Start e _); [discriminate|].
  destruct (fst (startServices _ _ _ _)); [discriminate|].
  destruct (startRPC e _ _) as [[[err|] n3] t3]; [discriminate|].
  reflexivity.
Qed.

Lemma idleClean_Start e n :
  EnvOK e -> idleClean n -> idleClean (final (Start e n)).
Proof.
  intros He Hinv.
  destruct (isSome (server n)) eqn:Hidle.
  { now rewrite (Start_running e n Hidle). }
  destruct (result (Start e n)) as [err|] eqn:Hres.
  - destruct (Start e n) as [[o n'] t] eqn:HS.
    unfold result, final in *. cbn [fst snd] in *. subst o.
    destruct (@Start_failure e n err n' t He Hidle HS)
      as (_ & _ & G2 & G3 & G4 & G5 & _).
    destruct (Hinv Hidle) as (I1 & I2 & I3 & I4).
    intros _. unfold noExternalEndpoint.
    rewrite I1 in G3. rewrite I2 in G2. rewrite I3 in G4. rewrite I4 in G5.
    intuition.
  - intros Hs. rewrite (Start_success_running e n Hidle Hres) in Hs.
    discriminate.
Qed.

Lemma idleClean_Stop e n : idleClean n -> idleClean (final (Stop e n)).
Proof.
  intros Hinv.
  destruct (isSome (server n)) eqn:Hrun.
  - rewrite (Stop_unfold e n Hrun). intros _. repeat split.
  - now rewrite (Stop_idle e n Hrun).
Qed.

Lemma Restart_final e n :
  final (Restart e n) = final (Stop e n) \/
  final (Restart e n) = final (Start e (final (Stop e n))).
Proof.
  unfold Restart, bind, final.
  destruct (Stop e n) as [[[err|] n1] t1]; cbn [fst snd]; [now left|].
  right. unfold ret. now destruct (Start e n1) as [[[err|] n2] t2].
Qed.

Lemma startHTTP_server e endpoint apis modules cors vhosts timeouts wsOrigins n :
  server (final (startHTTP e endpoint apis modules cors vhosts timeouts
                   wsOrigins n)) = server n.
Proof.
  destruct (startHTTP_run e endpoint apis modules cors vhosts timeouts wsOrigins n)
    as [[_ ->]|[[err ->]|[addr (_ & _ & ->)]]]; reflexivity.
Qed.

Lemma startWS_server e endpoint apis modules wsOrigins exposeAll n :
  server (final (startWS e endpoint apis modules wsOrigins exposeAll n))
  = server n.
Proof.
  destruct (startWS_run e endpoint apis modules wsOrigins exposeAll n)
    as [[_ ->]|[[err ->]|[addr (_ & _ & ->)]]]; reflexivity.
Qed.

(** The administrative calls leave the peer-transport handle alone. *)
Lemma admin_server e c n :
  isAdminCall c = true -> server (after e c n) = server n.
Proof.
  destruct c; try discriminate; intros _; unfold after.
  - unfold StartRPC. unfold bind at 1, get. 
    destruct (isSome (httpHandler n)); [reflexivity|].
    unfold bind, final.
    match goal with
    | |- context [startHTTP ?a ?b ?c ?d ?f ?g ?h ?i n] =>
        pose proof (startHTTP_server a b c d f g h i n) as Hs;
        destruct (startHTTP a b c d f g h i n) as [[[err|] n1] t1]
    end; exact Hs.
  - unfold StopRPC. unfold bind at 1, get.
    destruct (negb (isSome (httpHandler n))); [reflexivity|].
    unfold bind. now rewrite stopHTTP_run.
  - unfold StartWS. unfold bind at 1, get.
    destruct (isSome (wsHandler n)); [reflexivity|].
    unfold bind, final.
    match goal with
    | |- context [startWS ?a ?b ?c ?d ?f ?g n] =>
        pose proof (startWS_server a b c d f g n) as Hs;
        destruct (startWS a b c d f g n) as [[[err|] n1] t1]
    end; exact Hs.
  - unfold StopWS. unfold bind at 1, get.
    destruct (negb (isSome (wsHandler n))); [reflexivity|].
    unfold bind. now rewrite stopWS_run.
Qed.

Lemma idleClean_reachable n : reachableAdminRunning n -> idleClean n.
Proof.
  induction 1 as [e conf n HN | e c n He Hreach IH Hadm].
  - exact (idleClean_New e conf HN).
  - destruct (isAdminCall c) eqn:Hadmin.
    + intros Hidle. rewrite (admin_server e c n Hadmin) in Hidle.
      rewrite (Hadm eq_refl) in Hidle. discriminate.
    + destruct c; try discriminate; unfold after.
      * now apply idleClean_Register.
      * now apply idleClean_Start.
      * now apply idleClean_Stop.
      * destruct (Restart_final e n) as [-> | ->].
        -- now apply idleClean_Stop.
        -- apply idleClean_Start; [exact He | now apply idleClean_Stop].
Qed.

(** C3, as the code has it.  In every state reached from [New] by
    [Register], [Start], [Stop], [Restart] and by administrative calls made
    while the node is running, an idle node has no local-socket, HTTP or
    WebSocket endpoint.  The administrative calls do not look at the
    lifecycle state: [StartRPC] and [StartWS] fail, changing nothing,
    when the handler of their transport is set, [StopRPC] and [StopWS]
    fail, changing nothing, when it is not set, and stop the transport
    when it is. *)
Theorem endpoints_follow_lifecycle (n : Node) :
  reachableAdminRunning n ->
  (isSome (server n) = false -> noExternalEndpoint n) /\
  (forall e host port cors apis vhosts,
     isSome (httpHandler n) = true ->
     StartRPC e host port cors apis vhosts n
     = (false,
        Some (ErrorString ("HTTP RPC already running on " ++ httpEndpoint n)),
        n, [])) /\
  (forall e host port allowedOrigins apis,
     isSome (wsHandler n) = true ->
     StartWS e host port allowedOrigins apis n
     = (false,
        Some (ErrorString ("WebSocket RPC already running on " ++ wsEndpoint n)),
        n, [])) /\
  (isSome (httpHandler n) = false ->
   StopRPC n = (false, Some (ErrorString "HTTP RPC not running"), n, [])) /\
  (isSome (wsHandler n) = false ->
   StopWS n = (false, Some (ErrorString "WebSocket RPC not running"), n, [])) /\
  (isSome (httpHandler n) = true ->
   result (StopRPC n) = (true, None) /\ httpHandler (final (StopRPC n)) = None) /\
  (isSome (wsHandler n) = true ->
   result (StopWS n) = (true, None) /\ wsHandler (final (StopWS n)) = None).
Proof.
  intros Hreach. split; [exact (idleClean_reachable Hreach)|].
  repeat split.
  - intros e host port cors apis vhosts H.
    unfold StartRPC, bind, get. now rewrite H.
  - intros e host port allowedOrigins apis H.
    unfold StartWS, bind, get. now rewrite H.
  - intros H. unfold StopRPC, bind, get. now rewrite H.
  - intros H. unfold StopWS, bind, get. now rewrite H.
  - unfold StopRPC. unfold bind at 1, get. rewrite H. cbn [negb].
    unfold bind. now rewrite stopHTTP_run.
  - unfold StopRPC. unfold bind at 1, get. rewrite H. cbn [negb].
    unfold bind. now rewrite stopHTTP_run.
  - unfold StopWS. unfold bind at 1, get. rewrite H. cbn [negb].
    unfold bind. now rewrite stopWS_run.
  - unfold StopWS. unfold bind at 1, get. rewrite H. cbn [negb].
    unfold bind. now rewrite stopWS_run.
Qed.

Lemma running_reachable : reachableAdminRunning Demo.running.
Proof.
  unfold Demo.running.
  apply gated_call; [exact quiet_ok | | discriminate].
  apply gated_call; [exact quiet_ok | | discriminate].
  apply (gated_New Demo.quiet Demo.conf). reflexivity.
Defined.

Lemma endpoints_follow_lifecycle_witness :
  StopWS Demo.running
  = (false, Some (ErrorString "WebSocket RPC not running"), Demo.running, []).
Proof.
  destruct (@endpoints_follow_lifecycle Demo.running running_reachable)
    as (_ & _ & _ & _ & H & _).
  apply H. reflexivity.
Defined.

(** C3 as stated fails.  On a node that [New] has just returned, and that
    was never started, the administrative [StartRPC] succeeds: it binds an
    HTTP listener and stores its handler although the node is idle. *)
Lemma StartRPC_on_idle_node_opens_endpoint :
  reachable (after Demo.quiet (CallStartRPC None None None None None) Demo.idle) /\
  result (StartRPC Demo.quiet None None None None None Demo.idle) = (true, None) /\
  trace (StartRPC Demo.quiet None None None None None Demo.idle)
  = [EvListen HTTP "localhost:8545"] /\
  isSome (server (after Demo.quiet (CallStartRPC None None None None None)
                    Demo.idle))
  = false /\
  isSome (httpHandler (after Demo.quiet (CallStartRPC None None None None None)
                         Demo.idle))
  = true.
Proof.
  split.
  - apply reach_call; [exact quiet_ok|].
    apply (reach_New Demo.quiet Demo.conf). reflexivity.
  - repeat split; vm_compute; reflexivity.
Qed.

(** After [Start] and [Stop] the in-process handler is still set, and
    [RPCHandler] still hands it out: [Stop] closes the WebSocket, HTTP and
    local-socket endpoints only. *)
Example inproc_handler_survives_Stop :
  isSome (server (final (Stop Demo.quiet Demo.running))) = false /\
  isSome (inprocHandler (final (Stop Demo.quiet Demo.running))) = true /\
  Node_RPCHandler (final (Stop Demo.quiet Demo.running))
  = inr {| rpc.registered :=
             [("admin", rpc.PrivateAdminAPI); ("admin", rpc.PublicAdminAPI);
              ("debug", rpc.DebugHandler); ("web3", rpc.PublicWeb3API)] |}.
Proof. repeat split; vm_compute; reflexivity. Qed.

(** The upgrade switch on the demo requests. *)
Example upgrade_request_goes_to_websocket :
  ServeHTTP DemoHTTP.env
    (NewWebsocketUpgradeHandler
       (NewHTTPHandlerStack GoStrings.ToLower DemoHTTP.srv [] ["localhost"])
       (WebsocketHandler rpc.NewServer [])) DemoHTTP.upgrade
  = [WriteHeader 101; LogDebug "serving websocket request"].
Proof. reflexivity. Qed.

(** * Further properties of the code *)

(** ** [New] *)

Lemma New_name_checked e conf n :
  New e conf = inr n -> validName (Name (config n)) = true.
Proof.
  unfold New, validName. intros H.
  destruct (if negb (String.eqb (DataDir conf) "") then _ else _)
    as [err|conf']; [discriminate|].
  destruct (GoStrings.ContainsAny _ _) eqn:H1; [discriminate|].
  destruct (String.eqb _ datadirDefaultKeyStore) eqn:H2; [discriminate|].
  destruct (GoStrings.HasSuffix _ _) eqn:H3; [discriminate|].
  destruct (makeAccountManager e conf'); [discriminate|].
  inversion H; subst. cbn [config]. now rewrite H1, H2, H3.
Qed.

(** X1.  [New] never returns a node for an instance name that contains a
    slash or a backslash, is the reserved keystore name, or ends in
    ".ipc", whatever the collaborators answer. *)
Theorem New_rejects_invalid_name (e : Env) (conf : Config) :
  validName (Name conf) = false ->
  exists err, New e conf = inl err.
Proof.
  intros Hbad. destruct (New e conf) as [err|n] eqn:HN; [now exists err|].
  pose proof (New_name_checked e conf HN) as Hok.
  assert (Hname : Name (config n) = Name conf).
  { revert HN. unfold New.
    destruct (negb (String.eqb (DataDir conf) "")).
    - destruct (filepath_Abs e (DataDir conf)) as [err|abs]; [discriminate|].
      cbn [Name set_DataDir].
      destruct (GoStrings.ContainsAny _ _); [discriminate|].
      destruct (String.eqb _ datadirDefaultKeyStore); [discriminate|].
      destruct (GoStrings.HasSuffix _ _); [discriminate|].
      destruct (makeAccountManager e _); [discriminate|].
      now intros [= <-].
    - destruct (GoStrings.ContainsAny _ _); [discriminate|].
      destruct (String.eqb _ datadirDefaultKeyStore); [discriminate|].
      destruct (GoStrings.HasSuffix _ _); [discriminate|].
      destruct (makeAccountManager e _); [discriminate|].
      now intros [= <-]. }
  congruence.
Qed.

Lemma New_rejects_invalid_name_witness :
  exists err, New Demo.quiet Demo.badName = inl err.
Proof.
  apply New_rejects_invalid_name. reflexivity.
Defined.

(** X2.  A node returned by [New] is idle and empty: no peer-transport
    handle, no service map, no registered constructor, no API list, no
    lock, no handler or listener of any transport; its HTTP and WebSocket
    endpoints are those of the configuration, and its instance name has
    passed the checks. *)
Theorem New_returns_idle_node (e : Env) (conf : Config) (n : Node) :
  New e conf = inr n ->
  (server n = None /\ services n = None /\ serviceFuncs n = [] /\
   rpcAPIs n = [] /\ instanceDirLock n = None /\ stop n = None) /\
  (inprocHandler n = None /\ ipcListener n = None /\ ipcHandler n = None /\
   httpServer n = None /\ httpHandler n = None /\ httpListenerAddr n = None /\
   wsHTTPServer n = None /\ wsHandler n = None /\ wsListenerAddr n = None) /\
  (httpEndpoint n = Config_HTTPEndpoint conf /\
   wsEndpoint n = Config_WSEndpoint conf /\
   Node_HTTPEndpoint n = Config_HTTPEndpoint conf /\
   Node_WSEndpoint n = Config_WSEndpoint conf) /\
  validName (Name (config n)) = true /\
  (forall kind, Node_Service n kind = inl ErrNodeStopped).
Proof.
  intros HN. pose proof (New_name_checked e conf HN) as Hok.
  revert HN. unfold New.
  destruct (negb (String.eqb (DataDir conf) "")).
  - destruct (filepath_Abs e (DataDir conf)) as [err|abs]; [discriminate|].
    destruct (GoStrings.ContainsAny _ _); [discriminate|].
    destruct (String.eqb _ datadirDefaultKeyStore); [discriminate|].
    destruct (GoStrings.HasSuffix _ _); [discriminate|].
    destruct (makeAccountManager e _); [discriminate|].
    intros [= <-]. repeat split; exact Hok || reflexivity.
  - destruct (GoStrings.ContainsAny _ _); [discriminate|].
    destruct (String.eqb _ datadirDefaultKeyStore); [discriminate|].
    destruct (GoStrings.HasSuffix _ _); [discriminate|].
    destruct (makeAccountManager e _); [discriminate|].
    intros [= <-]. repeat split; exact Hok || reflexivity.
Qed.

Lemma New_returns_idle_node_witness :
  httpEndpoint Demo.idle = "" /\ wsEndpoint Demo.idle = "".
Proof.
  destruct (@New_returns_idle_node Demo.quiet Demo.conf Demo.idle)
    as (_ & _ & (H1 & H2 & _) & _).
  - reflexivity.
  - split; [rewrite H1 | rewrite H2]; reflexivity.
Defined.

(** ** [Register] *)

Lemma Register_idle c n :
  isSome (server n) = false ->
  Register c n = (None, set_serviceFuncs (serviceFuncs n ++ [c]) n, []).
Proof. intros H. unfold Register. munfold. now rewrite H. Qed.

Lemma Register_running c n :
  isSome (server n) = true -> Register c n = (Some ErrNodeRunning, n, []).
Proof. intros H. unfold Register. munfold. now rewrite H. Qed.

(** X3.  Registering a list of constructors on an idle node, one call
    after the other, appends them to the constructors already there, in
    the order of the calls; every call returns nil, the node stays idle
    and no collaborator is called. *)
Theorem Register_keeps_registration_order
  (funcs : list ServiceConstructor) (n : Node) :
  isSome (server n) = false ->
  serviceFuncs (registerAllOf funcs n) = serviceFuncs n ++ funcs /\
  server (registerAllOf funcs n) = server n /\
  Forall (fun c => result (Register c n) = None /\ trace (Register c n) = [])
         funcs.
Proof.
  intros Hs. split; [|split].
  - revert n Hs. induction funcs as [|c funcs IH]; intros n Hs; simpl.
    + now rewrite app_nil_r.
    + unfold registerAllOf in IH. rewrite (Register_idle c n Hs).
      unfold final; cbn [fst snd]. rewrite IH by exact Hs.
      cbn [serviceFuncs set_serviceFuncs]. now rewrite <- app_assoc.
  - revert n Hs. induction funcs as [|c funcs IH]; intros n Hs; simpl.
    + reflexivity.
    + unfold registerAllOf in IH. rewrite (Register_idle c n Hs).
      unfold final; cbn [fst snd]. now rewrite IH by exact Hs.
  - apply Forall_forall. intros c _. now rewrite (Register_idle c n Hs).
Qed.

Lemma Register_keeps_registration_order_witness :
  length (serviceFuncs
            (registerAllOf [Demo.healthy "A"; Demo.failingStart "B"] Demo.idle))
  = 2.
Proof.
  destruct (@Register_keeps_registration_order
              [Demo.healthy "A"; Demo.failingStart "B"] Demo.idle)
    as (H & _).
  - reflexivity.
  - rewrite H. reflexivity.
Defined.

(** ** [Restart] and [Close] *)

Lemma Stop_leaves_idle e n : isSome (server (final (Stop e n))) = false.
Proof.
  destruct (isSome (server n)) eqn:Hrun.
  - now rewrite (Stop_unfold e n Hrun).
  - now rewrite (Stop_idle e n Hrun).
Qed.

(** X4.  When [Stop] fails, on an idle node or because a service or the
    keystore removal failed, [Restart] returns that error and has done
    exactly what [Stop] did: [Start] is not called and the node is left
    idle. *)
Theorem Restart_surfaces_Stop_failure (e : Env) (n : Node) (err : Error) :
  result (Stop e n) = Some err ->
  Restart e n = Stop e n /\
  result (Restart e n) = Some err /\
  isSome (server (final (Restart e n))) = false.
Proof.
  intros H.
  assert (HR : Restart e n = Stop e n).
  { unfold Restart, bind, ret. revert H. unfold result.
    destruct (Stop e n) as [[o n1] t1]. cbn [fst]. intros ->.
    now rewrite app_nil_r. }
  rewrite HR. split; [reflexivity|]. split; [exact H|].
  apply Stop_leaves_idle.
Qed.

Lemma Restart_surfaces_Stop_failure_witness :
  Restart Demo.quiet Demo.runningTwo = Stop Demo.quiet Demo.runningTwo.
Proof.
  apply (@Restart_surfaces_Stop_failure Demo.quiet Demo.runningTwo
           (StopError [("B", ErrorString "stuck")])).
  vm_compute. reflexivity.
Defined.

(** X5.  When [Stop] succeeds, [Restart] is [Stop] followed by [Start] on
    the node [Stop] left, which is idle: it returns what that [Start]
    returns, and its trace is the trace of [Stop] followed by the trace of
    [Start]. *)
Theorem Restart_is_Stop_then_Start (e : Env) (n : Node) :
  result (Stop e n) = None ->
  isSome (server (final (Stop e n))) = false /\
  result (Restart e n) = result (Start e (final (Stop e n))) /\
  final (Restart e n) = final (Start e (final (Stop e n))) /\
  trace (Restart e n) = trace (Stop e n) ++ trace (Start e (final (Stop e n))).
Proof.
  intros H. split; [apply Stop_leaves_idle|].
  unfold Restart, bind, ret. revert H. unfold result, final, trace.
  destruct (Stop e n) as [[o n1] t1]. cbn [fst snd]. intros ->.
  destruct (Start e n1) as [[[err|] n2] t2]; cbn [fst snd];
    now rewrite app_nil_r.
Qed.

Lemma Restart_is_Stop_then_Start_witness :
  result (Restart Demo.quiet Demo.running) = None /\
  startCalls (trace (Restart Demo.quiet Demo.running)) = ["A"] /\
  stopCalls (trace (Restart Demo.quiet Demo.running)) = ["A"].
Proof.
  destruct (@Restart_is_Stop_then_Start Demo.quiet Demo.running)
    as (_ & Hr & _ & Ht).
  - vm_compute. reflexivity.
  - rewrite Hr, Ht. repeat split; vm_compute; reflexivity.
Defined.

(** X6.  [Close] on an idle node returns whatever closing the account
    manager returns: the [ErrNodeStopped] of [Stop] is not reported, the
    struct is left as it was and no collaborator of the node is called. *)
Theorem Close_on_idle_node (e : Env) (accmanClose : option Error)
  (format : list Error -> string) (n : Node) :
  isSome (server n) = false ->
  Close e accmanClose format n = (accmanClose, n, []).
Proof.
  intros H. unfold Close, bind. rewrite (Stop_idle e n H).
  cbn [isErrNodeStopped negb app]. now destruct accmanClose.
Qed.

Lemma Close_on_idle_node_witness :
  Close Demo.quiet None (fun _ => "") Demo.idle = (None, Demo.idle, []).
Proof.
  apply (@Close_on_idle_node Demo.quiet None (fun _ => "") Demo.idle).
  reflexivity.
Defined.

(** X7.  When the error of [Stop], if any, is not [ErrNodeStopped],
    [Close] does what [Stop] does.  It returns nil when both [Stop] and the
    account manager succeed, the single error when one of them fails, and
    one error made of both when both fail. *)
Theorem Close_combines_failures (e : Env) (accmanClose : option Error)
  (format : list Error -> string) (n : Node) :
  (forall err, result (Stop e n) = Some err -> isErrNodeStopped err = false) ->
  final (Close e accmanClose format n) = final (Stop e n) /\
  trace (Close e accmanClose format n) = trace (Stop e n) /\
  result (Close e accmanClose format n)
  = match result (Stop e n), accmanClose with
    | None, None => None
    | Some err, None => Some err
    | None, Some err => Some err
    | Some err1, Some err2 => Some (ErrorString (format [err1; err2]))
    end.
Proof.
  intros Hne. unfold Close, bind, ret. revert Hne.
  unfold result, final, trace.
  destruct (Stop e n) as [[[err|] n1] t1]; cbn [fst snd]; intros Hne.
  - rewrite (Hne err eq_refl). cbn [negb app].
    destruct accmanClose; cbn [app fst snd]; now rewrite app_nil_r.
  - destruct accmanClose; cbn [app fst snd]; now rewrite app_nil_r.
Qed.

Lemma Close_combines_failures_witness :
  result (Close Demo.quiet (Some (ErrorString "locked")) (fun _ => "both")
            Demo.runningTwo)
  = Some (ErrorString "both").
Proof.
  destruct (@Close_combines_failures Demo.quiet (Some (ErrorString "locked"))
              (fun _ => "both") Demo.runningTwo) as (_ & _ & H).
  - intros err Herr. vm_compute in Herr. injection Herr as <-. reflexivity.
  - rewrite H. vm_compute. reflexivity.
Defined.

(** ** [Register] across the lifecycle *)

(** X8.  After a successful [Start], [Register] fails with
    [ErrNodeRunning]; after the [Stop] that follows, [Register] succeeds
    again and a second [Stop] fails with [ErrNodeStopped] without doing
    anything. *)
Theorem Register_follows_lifecycle
  (e e' e'' : Env) (c : ServiceConstructor) (n : Node) :
  isSome (server n) = false ->
  result (Start e n) = None ->
  result (Register c (final (Start e n))) = Some ErrNodeRunning /\
  result (Register c (final (Stop e' (final (Start e n))))) = None /\
  Stop e'' (final (Stop e' (final (Start e n))))
  = (Some ErrNodeStopped, final (Stop e' (final (Start e n))), []).
Proof.
  intros Hidle Hres.
  pose proof (Start_success_running e n Hidle Hres) as Hrun.
  split; [now rewrite (Register_running c _ Hrun)|].
  pose proof (Stop_leaves_idle e' (final (Start e n))) as Hstopped.
  split; [now rewrite (Register_idle c _ Hstopped)|].
  now apply Stop_idle.
Qed.

Lemma Register_follows_lifecycle_witness :
  result (Register (Demo.healthy "B") Demo.running) = Some ErrNodeRunning.
Proof.
  apply (@Register_follows_lifecycle Demo.quiet Demo.quiet Demo.quiet
           (Demo.healthy "B")
           (after Demo.quiet (CallRegister (Demo.healthy "A")) Demo.idle));
    vm_compute; reflexivity.
Defined.

(** ** The handler stack *)

Lemma lowerByte_idem c :
  GoStrings.lowerByte (GoStrings.lowerByte c) = GoStrings.lowerByte c.
Proof.
  destruct c as [[] [] [] [] [] [] [] []]; vm_compute; reflexivity.
Qed.

Lemma ToLower_idem s :
  GoStrings.ToLower (GoStrings.ToLower s) = GoStrings.ToLower s.
Proof.
  induction s as [|c s IH]; cbn; [reflexivity|].
  now rewrite lowerByte_idem, IH.
Qed.

Lemma lowerByte_star c : GoStrings.lowerByte c = "*"%char -> c = "*"%char.
Proof.
  destruct c as [[] [] [] [] [] [] [] []]; vm_compute; intros H;
    first [reflexivity | discriminate H].
Qed.

Lemma ToLower_star s : GoStrings.ToLower s = "*" -> s = "*".
Proof.
  destruct s as [|c [|d s]]; cbn; intros H; try discriminate H.
  injection H as H. now rewrite (lowerByte_star c H).
Qed.

Lemma ToLower_ok : ToLowerOK GoStrings.ToLower.
Proof. split; [exact ToLower_idem|exact ToLower_star]. Qed.

Lemma setHas_lower_star ToLower vhosts :
  ToLowerOK ToLower ->
  setHas vhosts "*" = false ->
  setHas (map ToLower vhosts) "*" = false.
Proof.
  intros [_ Hstar]. unfold setHas.
  induction vhosts as [|v vs IH]; cbn [map existsb]; [reflexivity|].
  intros H. apply orb_false_iff in H as [Hv Hvs].
  rewrite (IH Hvs), orb_false_r.
  destruct (String.eqb "*" (ToLower v)) eqn:E; [|reflexivity].
  apply String.eqb_eq in E. symmetry in E. apply Hstar in E.
  subst v. discriminate Hv.
Qed.

Lemma setHas_lower_fixed ToLower vhosts host :
  ToLowerOK ToLower ->
  setHas (map ToLower vhosts) host = true ->
  ToLower host = host.
Proof.
  intros [Hidem _]. unfold setHas.
  induction vhosts as [|v vs IH]; cbn [map existsb]; [discriminate|].
  intros H. apply orb_true_iff in H as [H|H]; [|now apply IH].
  apply String.eqb_eq in H. subst host. apply Hidem.
Qed.

(** X9.  The virtual-host check compares the host of the request as it
    was sent with the configured names in lower case.  A request whose
    host (without port) is no IP literal and is not written in lower case
    ([strings.ToLower] changes it) is therefore rejected with Forbidden
    unless the wildcard is configured, even when the same spelling is in
    the configured list. *)
Theorem vhost_check_is_case_sensitive
  (x : HTTPEnv) (ToLower : string -> string) (vhosts : list string)
  (next : Handler) (r : Request) :
  ToLowerOK ToLower ->
  String.eqb (Host r) "" = false ->
  net_ParseIP x (hostOnly x r) = false ->
  setHas vhosts "*" = false ->
  ToLower (hostOnly x r) <> hostOnly x r ->
  ServeHTTP x (newVHostHandler ToLower vhosts next) r
  = http_Error "invalid host specified" StatusForbidden.
Proof.
  intros Hlib Hhost Hip Hstar Hcase. unfold newVHostHandler.
  rewrite virtualHostHandler_serve. unfold vhostRejects.
  rewrite Hhost, Hip, (setHas_lower_star vhosts Hlib Hstar).
  destruct (setHas (map ToLower vhosts) (hostOnly x r)) eqn:E;
    [|reflexivity].
  exfalso. apply Hcase. exact (setHas_lower_fixed vhosts _ Hlib E).
Qed.

Lemma vhost_check_is_case_sensitive_witness :
  ServeHTTP DemoHTTP.env
    (newVHostHandler GoStrings.ToLower ["Node.Example"] DemoHTTP.srv)
    mixedCase
  = http_Error "invalid host specified" StatusForbidden.
Proof.
  refine (@vhost_check_is_case_sensitive DemoHTTP.env GoStrings.ToLower
            ["Node.Example"] DemoHTTP.srv mixedCase ToLower_ok _ _ _ _).
  - reflexivity.
  - reflexivity.
  - reflexivity.
  - cbn. discriminate.
Defined.

Lemma gzip_no_plain_write ops :
  forallb (fun op => negb (isPlainWrite op))
          (flat_map gzipResponseWriter ops) = true.
Proof.
  induction ops as [|op ops IH]; [reflexivity|].
  cbn [flat_map]. rewrite forallb_app, IH, andb_true_r.
  now destruct op.
Qed.

Lemma gzip_payload ops :
  payload (flat_map gzipResponseWriter ops) = payload ops.
Proof.
  unfold payload. induction ops as [|op ops IH]; [reflexivity|].
  cbn [flat_map]. rewrite flat_map_app, IH. now destruct op.
Qed.

(** X10.  When the request accepts gzip, the gzip handler sets
    Content-Encoding first and closes the gzip writer last; in between,
    whatever the wrapped handler does, no body chunk is written to the
    client uncompressed, and the chunks handed to the gzip writer are the
    chunks the wrapped handler wrote, in the same order. *)
Theorem gzip_handler_compresses_every_write
  (x : HTTPEnv) (next : Handler) (r : Request) :
  GoStrings.Contains (Header_Get (Header r) "Accept-Encoding") "gzip" = true ->
  (exists body,
     ServeHTTP x (newGzipHandler next) r
     = HeaderSet "Content-Encoding" "gzip" :: body ++ [GzipClose] /\
     forallb (fun op => negb (isPlainWrite op)) body = true) /\
  forallb (fun op => negb (isPlainWrite op))
          (ServeHTTP x (newGzipHandler next) r) = true /\
  payload (ServeHTTP x (newGzipHandler next) r)
  = payload (ServeHTTP x next r).
Proof.
  intros Hgz. unfold newGzipHandler. cbn [ServeHTTP]. rewrite Hgz.
  cbn [negb app]. split; [|split].
  - eexists. split; [reflexivity|]. apply gzip_no_plain_write.
  - cbn [forallb isPlainWrite negb andb].
    rewrite forallb_app, gzip_no_plain_write. reflexivity.
  - unfold payload at 1. cbn [flat_map app]. rewrite flat_map_app.
    cbn [flat_map app]. rewrite app_nil_r. apply gzip_payload.
Qed.

Lemma gzip_handler_compresses_every_write_witness :
  payload (ServeHTTP DemoHTTP.env (newGzipHandler DemoHTTP.srv)
             DemoHTTP.foreign) = ["rpc"].
Proof.
  destruct (@gzip_handler_compresses_every_write DemoHTTP.env DemoHTTP.srv
              DemoHTTP.foreign) as (_ & _ & H).
  - vm_compute. reflexivity.
  - rewrite H. vm_compute. reflexivity.
Defined.

(** ** Configuration *)

Lemma warnEach_true ms : warnEach true ms = (true, []).
Proof.
  unfold warnEach. induction ms as [|m ms IH]; [reflexivity|].
  cbn [fold_left]. exact IH.
Qed.

(** X11.  Over any run of [warnOnce] calls on one flag, only the first
    call logs: starting from a clear flag the log holds exactly the first
    message and the flag ends set; starting from a set flag nothing is
    logged. *)
Theorem warnOnce_logs_first_message_only (m : string) (ms : list string) :
  warnEach false (m :: ms) = (true, [m]) /\
  warnEach true (m :: ms) = (true, []).
Proof.
  split; [|apply warnEach_true].
  unfold warnEach. cbn [fold_left warnOnce fst snd app].
  induction ms as [|m' ms IH]; [reflexivity|].
  cbn [fold_left warnOnce fst snd app]. exact IH.
Qed.

Lemma ResolvePath_flag e fs c warned path :
  (warned = true ->
   snd (fst (Config_ResolvePath e fs c warned path)) = true /\
   snd (Config_ResolvePath e fs c warned path) = []) /\
  (snd (Config_ResolvePath e fs c warned path) = [] \/
   warned = false /\
   snd (fst (Config_ResolvePath e fs c warned path)) = true /\
   length (snd (Config_ResolvePath e fs c warned path)) = 1).
Proof.
  unfold Config_ResolvePath.
  destruct (filepath_IsAbs fs path); [cbn; tauto|].
  destruct (String.eqb (DataDir c) ""); [cbn; tauto|].
  cbv zeta.
  destruct (mapGet isOldGethResource path) as [warn|]; [|cbn; tauto].
  destruct (negb _ && common_FileExist fs _); [|cbn; tauto].
  destruct warn; [|cbn; tauto].
  destruct warned; cbn; [tauto|].
  split; [discriminate|]. right. auto.
Qed.

(** X12.  However many paths are resolved on one configuration, the
    warning about deprecated resource files is logged at most once, and
    not at all when it has been logged before; every path gets a result. *)
Theorem ResolvePath_warns_at_most_once
  (e : Env) (fs : PathEnv) (c : Config) (paths : list string) (warned : bool) :
  length (fst (fst (resolveEach e fs c warned paths))) = length paths /\
  length (snd (resolveEach e fs c warned paths)) <= 1 /\
  (warned = true ->
   snd (resolveEach e fs c warned paths) = [] /\
   snd (fst (resolveEach e fs c warned paths)) = true).
Proof.
  revert warned. induction paths as [|path rest IH]; intros warned.
  - cbn. repeat split; auto.
  - cbn [resolveEach].
    destruct (ResolvePath_flag e fs c warned path) as [Hset Hcases].
    destruct (Config_ResolvePath e fs c warned path) as [[p w] logs].
    cbn [fst snd] in Hset, Hcases.
    destruct (IH w) as (Hlen & Hle & Hw).
    destruct (resolveEach e fs c w rest) as [[ps w'] logs'].
    cbn [fst snd] in *. rewrite length_app.
    split; [cbn [length]; now rewrite Hlen|]. split.
    + destruct Hcases as [->|(_ & -> & Hone)].
      * exact Hle.
      * destruct (Hw eq_refl) as [-> _]. cbn. lia.
    + intros ->. destruct (Hset eq_refl) as [-> ->].
      destruct (Hw eq_refl) as [-> ->]. auto.
Qed.

(** X13.  For an instance whose name is not "geth", a relative path is
    resolved inside the instance directory (data directory, then instance
    name): legacy files in the data directory are not looked for, and
    nothing is logged. *)
Theorem ResolvePath_outside_geth_uses_instance_dir
  (e : Env) (fs : PathEnv) (c : Config) (warned : bool) (path : string) :
  filepath_IsAbs fs path = false ->
  String.eqb (DataDir c) "" = false ->
  String.eqb (Config_name e c) "geth" = false ->
  Config_ResolvePath e fs c warned path
  = (filepath_JoinOf fs
       (filepath_JoinOf fs (DataDir c) (Config_name e c)) path,
     warned, []).
Proof.
  intros Habs Hdir Hname. unfold Config_ResolvePath, Config_instanceDir.
  rewrite Habs, Hdir, Hname. cbv zeta. cbn [String.eqb negb andb].
  now destruct (mapGet isOldGethResource path).
Qed.

Lemma ResolvePath_outside_geth_uses_instance_dir_witness :
  Config_ResolvePath Demo.quiet demoPaths Demo.conf false "nodekey"
  = ("/data/test/nodekey", false, []).
Proof.
  rewrite (@ResolvePath_outside_geth_uses_instance_dir Demo.quiet demoPaths
             Demo.conf false "nodekey");
    vm_compute; reflexivity.
Defined.

Lemma HasPrefix_app p s : GoStrings.HasPrefix (p ++ s) p = true.
Proof.
  induction p as [|a p IH]; [now destruct s|].
  cbn. now rewrite Ascii.eqb_refl, IH.
Qed.

(** X14.  On Windows a non-empty [IPCPath] always resolves to a named
    pipe, whatever the data directory: the endpoint starts with the pipe
    prefix, and resolving an endpoint again leaves it as it is. *)
Theorem IPCEndpoint_on_windows_is_named_pipe
  (base : string -> string) (join : string -> string -> string)
  (tempDir : string) (c : Config) :
  String.eqb (IPCPath c) "" = false ->
  GoStrings.HasPrefix
    (Config_IPCEndpoint_on "windows" base join tempDir c) pipePrefix = true /\
  Config_IPCEndpoint_on "windows" base join tempDir
    (set_IPCPath (Config_IPCEndpoint_on "windows" base join tempDir c) c)
  = Config_IPCEndpoint_on "windows" base join tempDir c.
Proof.
  intros Hne. unfold Config_IPCEndpoint_on. rewrite Hne.
  cbn [String.eqb Ascii.eqb Bool.eqb andb].
  change (String.eqb "windows" "windows") with true. cbv iota.
  destruct (GoStrings.HasPrefix (IPCPath c) pipePrefix) eqn:Hp.
  - split; [exact Hp|]. cbn [set_IPCPath IPCPath]. now rewrite Hne, Hp.
  - split; [apply HasPrefix_app|]. cbn [set_IPCPath IPCPath].
    now rewrite HasPrefix_app.
Qed.

Lemma IPCEndpoint_on_windows_is_named_pipe_witness :
  GoStrings.HasPrefix
    (Config_IPCEndpoint_on "windows" (fun p => p) filepath_Join "tmp"
       (set_IPCPath "node.ipc" Demo.conf)) pipePrefix = true.
Proof.
  apply (@IPCEndpoint_on_windows_is_named_pipe (fun p => p) filepath_Join
           "tmp" (set_IPCPath "node.ipc" Demo.conf)).
  reflexivity.
Defined.

(** ** A successful [Start] *)

Lemma startInProc_ok e apis n n' t :
  startInProc e apis n = (None, n', t) ->
  exists h, registerAll e apis rpc.NewServer = inr h /\
            n' = set_inprocHandler (Some h) n /\ t = [].
Proof.
  unfold startInProc. destruct (registerAll e apis rpc.NewServer) as [err|h].
  - discriminate.
  - unfold bind, modify, ret. cbn [app]. intros H.
    apply triple_inv in H as (_ & <- & <-). now exists h.
Qed.

Lemma startIPC_ok e apis n n' t :
  startIPC e apis n = (None, n', t) ->
  if String.eqb (ipcEndpoint n) "" then n' = n /\ t = []
  else exists h,
      n' = set_ipcHandler (Some h) (set_ipcListener (Some (ipcEndpoint n)) n)
      /\ t = [EvListen IPC (ipcEndpoint n)].
Proof.
  intros H.
  destruct (startIPC_run e apis n) as [[He Hr]|[[err Hr]|[h Hr]]];
    rewrite Hr in H.
  - rewrite He. cbn. apply triple_inv in H as (_ & <- & <-). auto.
  - discriminate.
  - apply triple_inv in H as (_ & <- & <-).
    destruct (String.eqb (ipcEndpoint n) "") eqn:E; [|now exists h].
    apply String.eqb_eq in E. revert Hr. unfold startIPC, bind, get.
    rewrite E. cbn. discriminate.
Qed.

Lemma startHTTP_ok e endpoint apis modules cors vhosts timeouts wsOrigins n n' t :
  startHTTP e endpoint apis modules cors vhosts timeouts wsOrigins n
  = (None, n', t) ->
  if String.eqb endpoint "" then n' = n /\ t = []
  else
    fst (fst (RegisterApisFromWhitelist e apis modules rpc.NewServer false))
    = None /\
    exists addr,
      n' = set_httpHandler
             (Some (snd (fst (RegisterApisFromWhitelist e apis modules
                                rpc.NewServer false))))
             (set_httpServer
                (Some {| hsHandler :=
                           httpStack e n
                             (snd (fst (RegisterApisFromWhitelist e apis
                                          modules rpc.NewServer false)))
                             cors vhosts wsOrigins;
                         hsAddr := addr |})
                (set_httpListenerAddr (Some addr)
                   (set_httpEndpoint endpoint n))) /\
      t = snd (RegisterApisFromWhitelist e apis modules rpc.NewServer false)
          ++ [EvListen HTTP endpoint].
Proof.
  intros H.
  destruct (startHTTP_run e endpoint apis modules cors vhosts timeouts
              wsOrigins n) as [[He Hr]|[[err Hr]|(addr & Hne & Hreg & Hr)]];
    rewrite Hr in H.
  - rewrite He. cbn. apply triple_inv in H as (_ & <- & <-). auto.
  - discriminate.
  - apply triple_inv in H as (_ & <- & <-).
    apply String.eqb_neq in Hne. rewrite Hne.
    split; [exact Hreg|]. now exists addr.
Qed.

Lemma startWS_ok e endpoint apis modules wsOrigins exposeAll n n' t :
  startWS e endpoint apis modules wsOrigins exposeAll n = (None, n', t) ->
  if String.eqb endpoint "" then n' = n /\ t = []
  else
    fst (fst (RegisterApisFromWhitelist e apis modules rpc.NewServer
                exposeAll)) = None /\
    exists addr,
      n' = set_wsHandler
             (Some (snd (fst (RegisterApisFromWhitelist e apis modules
                                rpc.NewServer exposeAll))))
             (set_wsHTTPServer
                (Some {| hsHandler :=
                           WebsocketHandler
                             (snd (fst (RegisterApisFromWhitelist e apis
                                          modules rpc.NewServer exposeAll)))
                             wsOrigins;
                         hsAddr := addr |})
                (set_wsListenerAddr (Some addr) (set_wsEndpoint endpoint n))) /\
      t = snd (RegisterApisFromWhitelist e apis modules rpc.NewServer
                 exposeAll)
          ++ [EvListen WS endpoint].
Proof.
  intros H.
  destruct (startWS_run e endpoint apis modules wsOrigins exposeAll n)
    as [[He Hr]|[[err Hr]|(addr & Hne & Hreg & Hr)]];
    rewrite Hr in H.
  - rewrite He. cbn. apply triple_inv in H as (_ & <- & <-). auto.
  - discriminate.
  - apply triple_inv in H as (_ & <- & <-).
    apply String.eqb_neq in Hne. rewrite Hne.
    split; [exact Hreg|]. now exists addr.
Qed.

(** A successful [startRPC], step by step. *)
Lemma startRPC_success e (svcs : ServiceMap) n n' t :
  startRPC e svcs n = (None, n', t) ->
  exists h n2 t2 n3 t3 n4 t4,
    registerAll e (allAPIs e svcs) rpc.NewServer = inr h /\
    startIPC e (allAPIs e svcs) (set_inprocHandler (Some h) n)
    = (None, n2, t2) /\
    startHTTP e (httpEndpoint n2) (allAPIs e svcs) (HTTPModules (config n2))
      (HTTPCors (config n2)) (HTTPVirtualHosts (config n2))
      (HTTPTimeouts (config n2)) (WSOrigins (config n2)) n2
    = (None, n3, t3) /\
    (if negb (String.eqb (httpEndpoint n3) (wsEndpoint n3))
     then startWS e (wsEndpoint n3) (allAPIs e svcs) (WSModules (config n3))
            (WSOrigins (config n3)) (WSExposeAll (config n3)) n3
     else (None, n3, [])) = (None, n4, t4) /\
    n' = set_rpcAPIs (allAPIs e svcs) n4 /\
    t = t2 ++ t3 ++ t4.
Proof.
  rewrite startRPC_unfold. cbv zeta.
  destruct (startInProc e (allAPIs e svcs) n) as [[[err|] n1] t1] eqn:H1;
    [discriminate|].
  apply startInProc_ok in H1 as (h & Hreg & -> & ->).
  destruct (startIPC e _ _) as [[[err|] n2] t2] eqn:H2; [discriminate|].
  destruct (startHTTP e _ _ _ _ _ _ _ n2) as [[[err|] n3] t3] eqn:H3;
    [discriminate|].
  destruct (if negb _ then _ else _) as [[[err|] n4] t4] eqn:H4;
    [discriminate|].
  intros H. apply triple_inv in H as (_ & <- & <-).
  exists h, n2, t2, n3, t3, n4, t4. auto 10.
Qed.

(** A successful [Start] on an idle node, step by step. *)
Lemma Start_success e n :
  isSome (server n) = false -> result (Start e n) = None ->
  exists n1 t1 svcs tc ts n3 t3,
    openDataDir e n = (None, n1, t1) /\
    (n1 = n \/ n1 = set_instanceDirLock (Some (lockPath e n)) n) /\
    constructServices (config n) 0 (serviceFuncs n) [] = (inr svcs, tc) /\
    p2p_Server_Start e
      (runningServer e (set_serverConfig (makeServerConfig e n1) n1) svcs)
    = None /\
    startServices
      (runningServer e (set_serverConfig (makeServerConfig e n1) n1) svcs)
      svcs (rangeOrder e RangeStart svcs) [] = (None, ts) /\
    startRPC e svcs (set_serverConfig (makeServerConfig e n1) n1)
    = (None, n3, t3) /\
    Start e n
    = (None,
       set_stop (Some false)
         (set_server
            (Some (runningServer e
                     (set_serverConfig (makeServerConfig e n1) n1) svcs))
            (set_services (Some svcs) n3)),
       t1 ++ tc ++ [EvServerStart true] ++ ts ++ t3).
Proof.
  intros Hidle. rewrite (Start_unfold e n Hidle). unfold result.
  pose proof (openDataDir_facts e n) as Hf. cbv zeta in Hf.
  destruct Hf as (_ & _ & _ & _ & _ & _ & Hn1 & _).
  destruct (openDataDir e n) as [[[err|] n1] t1]; [discriminate|].
  cbn [final fst snd] in Hn1. cbv zeta.
  assert (Hc : config (set_serverConfig (makeServerConfig e n1) n1) = config n)
    by (destruct Hn1 as [->| ->]; reflexivity).
  assert (Hs : serviceFuncs (set_serverConfig (makeServerConfig e n1) n1)
               = serviceFuncs n)
    by (destruct Hn1 as [->| ->]; reflexivity).
  rewrite Hc, Hs.
  destruct (constructServices (config n) 0 (serviceFuncs n) [])
    as [[err|svcs] tc]; cbn [fst snd]; [discriminate|].
  destruct (p2p_Server_Start e _) as [err|] eqn:Hp; [discriminate|].
  destruct (startServices _ _ _ _) as [[err|] ts] eqn:Hst; cbn [fst snd];
    [discriminate|].
  destruct (startRPC e svcs _) as [[[err|] n3] t3] eqn:Hr; [discriminate|].
  intros _. exists n1, t1, svcs, tc, ts, n3, t3. auto 10.
Qed.

Lemma flat_map_none (A B : Type) (f : A -> list B) (l : list A) :
  (forall x, In x l -> f x = []) -> flat_map f l = [].
Proof.
  induction l as [|x l IH]; intros H; [reflexivity|].
  cbn [flat_map]. rewrite (H x (or_introl eq_refl)). cbn [app].
  apply IH. intros y Hy. apply H. now right.
Qed.

Lemma constructCalls_app t1 t2 :
  constructCalls (t1 ++ t2) = constructCalls t1 ++ constructCalls t2.
Proof. apply flat_map_app. Qed.

Lemma lifecycle_no_construct t :
  forallb isLifecycleEvent t = true ->
  constructCalls t = [] /\ constructed t = [].
Proof.
  intros H. split; apply flat_map_none; intros ev Hin;
    pose proof (forallb_In _ _ _ H Hin) as Hev; now destruct ev.
Qed.

Lemma endpoint_no_construct t :
  forallb isEndpointEvent t = true ->
  constructCalls t = [] /\ constructed t = [] /\ startCalls t = [] /\
  stopCalls t = [].
Proof.
  intros H. repeat split; apply flat_map_none; intros ev Hin;
    pose proof (forallb_In _ _ _ H Hin) as Hev; now destruct ev.
Qed.

Lemma openDataDir_no_construct e n :
  constructCalls (trace (openDataDir e n)) = [].
Proof.
  pose proof (openDataDir_facts e n) as Hf. cbv zeta in Hf.
  destruct Hf as (_ & _ & _ & _ & _ & Hno & _).
  apply flat_map_none. intros ev Hin. destruct ev; try reflexivity.
  now elim (Hno _ _ Hin).
Qed.

Lemma constructServices_calls conf funcs : forall i m r t,
  constructServices conf i funcs m = (inr r, t) ->
  map fst (constructCalls t) = seq i (length funcs).
Proof.
  induction funcs as [|c funcs IH]; intros i m r t H; cbn in H.
  - now inversion H.
  - destruct (c _) as [err|s]; [discriminate|].
    destruct (mapHas m (svcTypeOf s)); [discriminate|].
    destruct (constructServices conf (S i) funcs _) as [[err|r'] t'] eqn:E;
      cbn [fst snd] in H; [discriminate|].
    inversion H; subst. cbn. f_equal. exact (IH _ _ _ _ E).
Qed.

Lemma constructServices_length conf funcs : forall i m r t,
  constructServices conf i funcs m = (inr r, t) ->
  length (constructed t) = length funcs.
Proof.
  induction funcs as [|c funcs IH]; intros i m r t H; cbn in H.
  - now inversion H.
  - destruct (c _) as [err|s]; [discriminate|].
    destruct (mapHas m (svcTypeOf s)); [discriminate|].
    destruct (constructServices conf (S i) funcs _) as [[err|r'] t'] eqn:E;
      cbn [fst snd] in H; [discriminate|].
    inversion H; subst. cbn. f_equal. exact (IH _ _ _ _ E).
Qed.

Lemma constructServices_typed conf funcs : forall i m r t,
  constructServices conf i funcs m = (inr r, t) ->
  (forall k s, mapGet m k = Some s -> svcTypeOf s = k) ->
  forall k s, mapGet r k = Some s -> svcTypeOf s = k.
Proof.
  induction funcs as [|c funcs IH]; intros i m r t H Hm; cbn in H.
  - inversion H; subst. exact Hm.
  - destruct (c _) as [err|s]; [discriminate|].
    destruct (mapHas m (svcTypeOf s)); [discriminate|].
    destruct (constructServices conf (S i) funcs _) as [[err|r'] t'] eqn:E;
      cbn [fst snd] in H; [discriminate|].
    inversion H; subst. apply (IH _ _ _ _ E).
    intros k s'. rewrite mapGet_mapSet.
    destruct (String.eqb_spec (svcTypeOf s) k) as [<-|Hne].
    + now intros [= <-].
    + apply Hm.
Qed.

Lemma startCalls_starts ks :
  startCalls (map (fun k => EvServiceStart k true) ks) = ks.
Proof.
  unfold startCalls. induction ks as [|k ks IH]; cbn; [reflexivity|].
  now rewrite IH.
Qed.

Lemma stopCalls_starts ks :
  stopCalls (map (fun k => EvServiceStart k true) ks) = [].
Proof.
  unfold stopCalls. induction ks as [|k ks IH]; cbn; [reflexivity|]. exact IH.
Qed.

Lemma mapGet_In (V : Type) (m : list (string * V)) k :
  (In k (mapKeys m) -> exists v, mapGet m k = Some v) /\
  (~ In k (mapKeys m) -> mapGet m k = None).
Proof.
  pose proof (mapHas_In m k) as H1. pose proof (mapHas_false m k) as H2.
  unfold mapHas in H1, H2. destruct (mapGet m k) as [v|].
  - split; [now exists v|]. intros H. apply H2 in H. discriminate.
  - split; [|reflexivity]. intros H. apply H1 in H. discriminate.
Qed.

(** X15.  When [Start] succeeds on an idle node, every registered
    constructor has been called exactly once, in registration order; the
    services they returned have pairwise different types; each of them has
    been started exactly once; and afterwards [Node.Service] finds exactly
    the constructed types, each under its own type, and answers
    [ErrServiceUnknown] for every other type. *)
Theorem Start_success_builds_and_starts_every_service (e : Env) (n : Node) :
  EnvOK e ->
  isSome (server n) = false ->
  result (Start e n) = None ->
  map fst (constructCalls (trace (Start e n)))
  = seq 0 (length (serviceFuncs n)) /\
  length (constructed (trace (Start e n))) = length (serviceFuncs n) /\
  NoDup (constructed (trace (Start e n))) /\
  Permutation (startCalls (trace (Start e n)))
              (constructed (trace (Start e n))) /\
  stopCalls (trace (Start e n)) = [] /\
  mapKeys (servicesOf (final (Start e n))) = constructed (trace (Start e n)) /\
  (forall kind, In kind (constructed (trace (Start e n))) ->
     exists s, Node_Service (final (Start e n)) kind = inr s /\
               svcTypeOf s = kind) /\
  (forall kind, ~ In kind (constructed (trace (Start e n))) ->
     Node_Service (final (Start e n)) kind = inl ErrServiceUnknown).
Proof.
  intros Henv Hidle Hres.
  destruct (Start_success e n Hidle Hres)
    as (n1 & t1 & svcs & tc & ts & n3 & t3
        & Hopen & Hn1 & Hbuilt & Hp2p & Hstart & Hrpc & HS).
  rewrite HS. cbn [trace final fst snd].
  pose proof (openDataDir_facts e n) as Hf. cbv zeta in Hf.
  rewrite Hopen in Hf. cbn [trace final result fst snd] in Hf.
  destruct Hf as (_ & Hs1 & Hp1 & Hc1 & _).
  pose proof (openDataDir_no_construct e n) as Hcc1.
  rewrite Hopen in Hcc1. cbn [trace snd] in Hcc1.
  pose proof (constructServices_events (config n) (serviceFuncs n) 0 [])
    as Hev. rewrite Hbuilt in Hev. cbn [snd] in Hev.
  destruct (calls_constructs _ Hev) as (Hs2 & Hp2 & _).
  pose proof (startServices_events
                (runningServer e (set_serverConfig (makeServerConfig e n1) n1)
                   svcs) svcs (rangeOrder e RangeStart svcs) []) as Hlev.
  rewrite Hstart in Hlev. cbn [snd] in Hlev.
  destruct (lifecycle_no_construct _ Hlev) as (Hcc3 & Hc3).
  pose proof (startRPC_events e svcs
                (set_serverConfig (makeServerConfig e n1) n1)) as Heev.
  rewrite Hrpc in Heev. cbn [trace snd] in Heev.
  destruct (endpoint_no_construct _ Heev) as (Hcc4 & Hc4 & Hs4 & Hp4).
  pose proof (constructServices_keys _ _ _ _ Hbuilt) as Hkeys.
  cbn [mapKeys map app] in Hkeys.
  pose proof (constructServices_NoDup _ _ _ _ Hbuilt (NoDup_nil _)) as Hnd.
  pose proof (constructServices_calls _ _ _ _ Hbuilt) as Hcalls.
  assert (Hstarted : ts = map (fun k => EvServiceStart k true)
                              (mapKeys (rangeOrder e RangeStart svcs))
                     /\ True).
  { destruct (@startServices_run
                (runningServer e (set_serverConfig (makeServerConfig e n1) n1)
                   svcs) svcs (rangeOrder e RangeStart svcs) [])
      as [(_ & _ & Ht)|(pre & k & s & post & err & _ & _ & _ & Hfail & _)].
    - intros k Hk. cbn [app] in Hk. eapply range_known; eassumption.
    - rewrite Hstart in Ht. cbn [snd] in Ht. auto.
    - rewrite Hstart in Hfail. discriminate. }
  destruct Hstarted as [Hts _].
  assert (HC : constructed (t1 ++ tc ++ [EvServerStart true] ++ ts ++ t3)
               = mapKeys svcs).
  { rewrite !constructed_app, Hc1, Hc3, Hc4, Hkeys. cbn.
    now rewrite app_nil_r. }
  rewrite HC.
  assert (Hsc : startCalls (t1 ++ tc ++ [EvServerStart true] ++ ts ++ t3)
                = mapKeys (rangeOrder e RangeStart svcs)).
  { rewrite !startCalls_app, Hs1, Hs2, Hs4, Hts, startCalls_starts.
    cbn [startCalls flat_map app]. now rewrite app_nil_r. }
  assert (Hpc : stopCalls (t1 ++ tc ++ [EvServerStart true] ++ ts ++ t3) = []).
  { rewrite !stopCalls_app, Hp1, Hp2, Hp4, Hts, stopCalls_starts.
    reflexivity. }
  split.
  { rewrite !constructCalls_app, Hcc1, Hcc3, Hcc4. cbn.
    rewrite app_nil_r. exact Hcalls. }
  split.
  { rewrite Hkeys. exact (constructServices_length _ _ _ _ Hbuilt). }
  split; [exact Hnd|].
  split; [rewrite Hsc; apply Permutation_keys, Henv|].
  split; [exact Hpc|].
  assert (Hsv : servicesOf
                  (set_stop (Some false)
                     (set_server
                        (Some (runningServer e
                                 (set_serverConfig (makeServerConfig e n1) n1)
                                 svcs))
                        (set_services (Some svcs) n3))) = svcs)
    by reflexivity.
  split; [now rewrite Hsv|].
  unfold Node_Service. rewrite Hsv. cbn [server set_stop set_server isSome negb].
  split.
  - intros kind Hin. destruct (proj1 (mapGet_In svcs kind) Hin) as [s Hs].
    rewrite Hs. exists s. split; [reflexivity|].
    apply (constructServices_typed _ _ _ _ Hbuilt); [|exact Hs].
    intros k s'. discriminate.
  - intros kind Hnin. now rewrite (proj2 (mapGet_In svcs kind) Hnin).
Qed.

Lemma Start_success_builds_and_starts_every_service_witness :
  Permutation
    (startCalls
       (trace (Start Demo.reversed
                 (Demo.registered Demo.conf
                    [Demo.healthy "A"; Demo.healthy "B"]))))
    (constructed
       (trace (Start Demo.reversed
                 (Demo.registered Demo.conf
                    [Demo.healthy "A"; Demo.healthy "B"])))).
Proof.
  destruct (@Start_success_builds_and_starts_every_service Demo.reversed
              (Demo.registered Demo.conf [Demo.healthy "A"; Demo.healthy "B"]))
    as (_ & _ & _ & H & _).
  - exact reversed_ok.
  - vm_compute. reflexivity.
  - vm_compute. reflexivity.
  - exact H.
Defined.

(** ** What a constructor sees *)

Lemma constructServices_split conf pre : forall i m c post r t,
  constructServices conf i (pre ++ c :: post) m = (inr r, t) ->
  exists m' t1 s t2,
    constructServices conf i pre m = (inr m', t1) /\
    c {| ctxServices := m'; ctxConfig := conf |} = inr s /\
    mapHas m' (svcTypeOf s) = false /\
    constructServices conf (S (i + length pre)) post
      (mapSet m' (svcTypeOf s) s) = (inr r, t2) /\
    t = t1 ++ EvConstruct (i + length pre) (Some (svcTypeOf s)) :: t2.
Proof.
  induction pre as [|c0 pre IH]; intros i m c post r t H.
  - cbn [app] in H. cbn [constructServices] in H.
    destruct (c _) as [err|s] eqn:Hc; [discriminate|].
    destruct (mapHas m (svcTypeOf s)) eqn:Hh; [discriminate|].
    destruct (constructServices conf (S i) post _) as [[err|r'] t'] eqn:E;
      cbn [fst snd] in H; [discriminate|].
    inversion H; subst. exists m, [], s, t'. cbn [length].
    rewrite Nat.add_0_r. auto.
  - cbn [app constructServices] in H |- *.
    destruct (c0 _) as [err|s0]; [discriminate|].
    destruct (mapHas m (svcTypeOf s0)); [discriminate|].
    destruct (constructServices conf (S i) (pre ++ c :: post) _)
      as [[err|r'] t'] eqn:E; cbn [fst snd] in H; [discriminate|].
    inversion H; subst.
    destruct (IH _ _ _ _ _ _ E) as (m' & t1 & s & t2 & H1 & Hc & Hh & H2 & ->).
    exists m', (EvConstruct i (Some (svcTypeOf s0)) :: t1), s, t2.
    rewrite H1. cbn [fst snd length].
    replace (i + S (length pre)) with (S i + length pre) by lia. auto.
Qed.

Lemma constructServices_preserves conf funcs : forall i m r t,
  constructServices conf i funcs m = (inr r, t) ->
  forall k v, mapGet m k = Some v -> mapGet r k = Some v.
Proof.
  induction funcs as [|c funcs IH]; intros i m r t H k v Hk; cbn in H.
  - inversion H; subst. exact Hk.
  - destruct (c _) as [err|s]; [discriminate|].
    destruct (mapHas m (svcTypeOf s)) eqn:Hh; [discriminate|].
    destruct (constructServices conf (S i) funcs _) as [[err|r'] t'] eqn:E;
      cbn [fst snd] in H; [discriminate|].
    inversion H; subst. apply (IH _ _ _ _ E).
    rewrite mapGet_mapSet.
    destruct (String.eqb_spec (svcTypeOf s) k) as [<-|Hne]; [|exact Hk].
    unfold mapHas in Hh. rewrite Hk in Hh. discriminate.
Qed.

(** X16.  In a pass in which every constructor succeeds, each constructor
    is called with a context that holds exactly the services returned by
    the constructors registered before it: [ServiceContext.Service] finds
    those (the very values that end up in the service map), and answers
    [ErrServiceUnknown] for every other type, the constructor's own and
    those of later constructors included.  What the constructor returns
    is stored under its type. *)
Theorem constructor_sees_exactly_the_earlier_services
  (conf : Config) (pre : list ServiceConstructor) (c : ServiceConstructor)
  (post : list ServiceConstructor) (svcs : ServiceMap) (t : list Event) :
  constructServices conf 0 (pre ++ c :: post) [] = (inr svcs, t) ->
  exists ctx s,
    In (EvConstruct (length pre) (Some (svcTypeOf s))) t /\
    c ctx = inr s /\
    ctxConfig ctx = conf /\
    mapKeys (ctxServices ctx) = firstn (length pre) (constructed t) /\
    mapGet svcs (svcTypeOf s) = Some s /\
    (forall kind, In kind (firstn (length pre) (constructed t)) ->
       exists s', ServiceContext_Service ctx kind = inr s' /\
                  mapGet svcs kind = Some s') /\
    (forall kind, ~ In kind (firstn (length pre) (constructed t)) ->
       ServiceContext_Service ctx kind = inl ErrServiceUnknown) /\
    ServiceContext_Service ctx (svcTypeOf s) = inl ErrServiceUnknown.
Proof.
  intros H.
  destruct (constructServices_split _ _ _ _ _ _ H)
    as (m' & t1 & s & t2 & H1 & Hc & Hh & H2 & ->).
  cbn [Nat.add] in H2 |- *.
  pose proof (constructServices_keys _ _ _ _ H1) as Hkeys.
  cbn [mapKeys map app] in Hkeys.
  pose proof (constructServices_length _ _ _ _ H1) as Hlen.
  assert (Hfirst : firstn (length pre)
                     (constructed
                        (t1 ++ EvConstruct (length pre) (Some (svcTypeOf s))
                            :: t2)) = mapKeys m').
  { rewrite constructed_app, <- Hlen, firstn_app, firstn_all, Nat.sub_diag.
    cbn [firstn]. now rewrite app_nil_r, Hkeys. }
  rewrite Hfirst.
  assert (Hkept : forall k v, mapGet m' k = Some v -> mapGet svcs k = Some v).
  { intros k v Hk. apply (constructServices_preserves _ _ _ _ H2).
    rewrite mapGet_mapSet.
    destruct (String.eqb_spec (svcTypeOf s) k) as [<-|Hne]; [|exact Hk].
    unfold mapHas in Hh. rewrite Hk in Hh. discriminate. }
  exists {| ctxServices := m'; ctxConfig := conf |}, s.
  unfold ServiceContext_Service. cbn [ctxServices ctxConfig].
  split; [apply in_or_app; right; now left|].
  split; [exact Hc|]. split; [reflexivity|]. split; [reflexivity|].
  split.
  { apply (constructServices_preserves _ _ _ _ H2).
    now rewrite mapGet_mapSet, String.eqb_refl. }
  split.
  { intros kind Hin. destruct (proj1 (mapGet_In m' kind) Hin) as [s' Hs'].
    rewrite Hs'. exists s'. split; [reflexivity|]. now apply Hkept. }
  split.
  { intros kind Hnin. now rewrite (proj2 (mapGet_In m' kind) Hnin). }
  apply mapHas_false in Hh. now rewrite (proj2 (mapGet_In m' _) Hh).
Qed.

Lemma constructor_sees_exactly_the_earlier_services_witness :
  exists ctx s,
    Demo.healthy "B" ctx = inr s /\ mapKeys (ctxServices ctx) = ["A"].
Proof.
  destruct (@constructor_sees_exactly_the_earlier_services Demo.conf
              [Demo.healthy "A"] (Demo.healthy "B") [Demo.healthy "C"]
              [("A", Demo.service "A" None None);
               ("B", Demo.service "B" None None);
               ("C", Demo.service "C" None None)]
              [EvConstruct 0 (Some "A"); EvConstruct 1 (Some "B");
               EvConstruct 2 (Some "C")])
    as (ctx & s & _ & Hc & _ & Hk & _).
  - reflexivity.
  - exists ctx, s. split; [exact Hc|exact Hk].
Defined.

(** ** Endpoints after a successful [Start] *)

Lemma registerAll_ok e apis : forall h0 h,
  registerAll e apis h0 = inr h ->
  rpc.registered h = rpc.registered h0 ++ registrations apis /\
  (forall api, In api apis ->
     rpc_RegisterName e (rpc.Namespace api) (rpc.Service api) = None).
Proof.
  induction apis as [|api apis IH]; intros h0 h H; cbn in H.
  - inversion H; subst. cbn. rewrite app_nil_r. split; [reflexivity|tauto].
  - unfold RegisterName in H.
    destruct (rpc_RegisterName e _ _) eqn:E; [discriminate|].
    destruct (IH _ _ H) as [Hreg Hall]. split.
    + rewrite Hreg. cbn. now rewrite <- app_assoc.
    + intros a [<-|Hin]; [exact E|now apply Hall].
Qed.

Ltac listens_simpl :=
  rewrite ?listens_app, ?listens_logs; cbn; rewrite ?app_nil_r.

Ltac held_simpl :=
  rewrite ?heldFrom_app;
  rewrite ?(heldFrom_logs _ (RegisterApis_trace _ _ _ _ _));
  cbn; rewrite ?app_nil_r, <- ?app_assoc; cbn.

(** What a successful [startRPC] leaves in the struct and in the trace. *)
Lemma startRPC_success_fields e (svcs : ServiceMap) n n' t :
  startRPC e svcs n = (None, n', t) ->
  (exists h, registerAll e (allAPIs e svcs) rpc.NewServer = inr h /\
             inprocHandler n' = Some h) /\
  rpcAPIs n' = allAPIs e svcs /\
  (server n' = server n /\ services n' = services n /\
   instanceDirLock n' = instanceDirLock n /\ config n' = config n /\
   serviceFuncs n' = serviceFuncs n /\
   ephemeralKeystore n' = ephemeralKeystore n /\
   ipcEndpoint n' = ipcEndpoint n /\ httpEndpoint n' = httpEndpoint n /\
   wsEndpoint n' = wsEndpoint n) /\
  (if String.eqb (ipcEndpoint n) ""
   then ipcListener n' = ipcListener n /\ ipcHandler n' = ipcHandler n /\
        listens IPC t = []
   else ipcListener n' = Some (ipcEndpoint n) /\
        isSome (ipcHandler n') = true /\
        listens IPC t = [ipcEndpoint n]) /\
  (if String.eqb (httpEndpoint n) ""
   then httpHandler n' = httpHandler n /\ httpServer n' = httpServer n /\
        httpListenerAddr n' = httpListenerAddr n /\ listens HTTP t = []
   else
     fst (fst (RegisterApisFromWhitelist e (allAPIs e svcs)
                 (HTTPModules (config n)) rpc.NewServer false)) = None /\
     httpHandler n'
     = Some (snd (fst (RegisterApisFromWhitelist e (allAPIs e svcs)
                         (HTTPModules (config n)) rpc.NewServer false))) /\
     (exists addr,
        httpServer n'
        = Some {| hsHandler :=
                    httpStack e n
                      (snd (fst (RegisterApisFromWhitelist e (allAPIs e svcs)
                                   (HTTPModules (config n)) rpc.NewServer
                                   false)))
                      (HTTPCors (config n)) (HTTPVirtualHosts (config n))
                      (WSOrigins (config n));
                  hsAddr := addr |} /\
        httpListenerAddr n' = Some addr) /\
     listens HTTP t = [httpEndpoint n]) /\
  (if String.eqb (wsEndpoint n) ""
      || String.eqb (httpEndpoint n) (wsEndpoint n)
   then wsHandler n' = wsHandler n /\ wsHTTPServer n' = wsHTTPServer n /\
        wsListenerAddr n' = wsListenerAddr n /\ listens WS t = []
   else
     fst (fst (RegisterApisFromWhitelist e (allAPIs e svcs)
                 (WSModules (config n)) rpc.NewServer
                 (WSExposeAll (config n)))) = None /\
     wsHandler n'
     = Some (snd (fst (RegisterApisFromWhitelist e (allAPIs e svcs)
                         (WSModules (config n)) rpc.NewServer
                         (WSExposeAll (config n))))) /\
     (exists addr,
        wsHTTPServer n'
        = Some {| hsHandler :=
                    WebsocketHandler
                      (snd (fst (RegisterApisFromWhitelist e (allAPIs e svcs)
                                   (WSModules (config n)) rpc.NewServer
                                   (WSExposeAll (config n)))))
                      (WSOrigins (config n));
                  hsAddr := addr |} /\
        wsListenerAddr n' = Some addr) /\
     listens WS t = [wsEndpoint n]) /\
  (forall h0,
     heldFrom h0 t
     = h0
       ++ (if String.eqb (ipcEndpoint n) "" then [] else [RListener IPC])
       ++ (if String.eqb (httpEndpoint n) "" then [] else [RListener HTTP])
       ++ (if String.eqb (wsEndpoint n) ""
              || String.eqb (httpEndpoint n) (wsEndpoint n)
           then [] else [RListener WS])).
Proof.
  intros Hrpc.
  destruct (startRPC_success _ _ _ Hrpc)
    as (h & n2 & t2 & n3 & t3 & n4 & t4 & Hreg & H2 & H3 & H4 & -> & ->).
  apply startIPC_ok in H2. cbn [ipcEndpoint set_inprocHandler] in H2.
  apply startHTTP_ok in H3.
  assert (Hn2 : httpEndpoint n2 = httpEndpoint n /\ config n2 = config n /\
                wsEndpoint n2 = wsEndpoint n).
  { destruct (String.eqb (ipcEndpoint n) "");
      [destruct H2 as [-> _]|destruct H2 as (h2 & -> & _)]; auto. }
  destruct Hn2 as (He2 & Hc2 & Hw2). rewrite He2, Hc2 in H3.
  assert (Hn3 : httpEndpoint n3 = httpEndpoint n /\ config n3 = config n /\
                wsEndpoint n3 = wsEndpoint n).
  { destruct (String.eqb (httpEndpoint n) "");
      [destruct H3 as [-> _]|destruct H3 as (_ & addr & -> & _)]; auto. }
  destruct Hn3 as (He3 & Hc3 & Hw3). rewrite He3, Hw3, Hc3 in H4.
  assert (Hstack : forall srv c v o,
             httpStack e n2 srv c v o = httpStack e n srv c v o).
  { intros. unfold httpStack. now rewrite He2, Hw2. }
  destruct (String.eqb (httpEndpoint n) (wsEndpoint n)) eqn:Hsame;
    cbn [negb] in H4; rewrite ?orb_true_r, ?orb_false_r.
  - apply triple_inv in H4 as (_ & <- & <-).
    destruct (String.eqb (ipcEndpoint n) "") eqn:Hipc;
      [destruct H2 as [-> ->]|destruct H2 as (h2 & -> & ->)];
      (destruct (String.eqb (httpEndpoint n) "") eqn:Hhttp;
       [destruct H3 as [-> ->]|destruct H3 as (Hok & addr & -> & ->)]);
      rewrite ?Hstack;
      (split; [exists h; split; [exact Hreg|reflexivity]|]);
      repeat (split; [reflexivity|]);
      repeat split; try reflexivity; try assumption;
      try (eexists; split; reflexivity);
      try (listens_simpl; reflexivity);
      try (intros h0; held_simpl; reflexivity).
  - apply startWS_ok in H4.
    destruct (String.eqb (ipcEndpoint n) "") eqn:Hipc;
      [destruct H2 as [-> ->]|destruct H2 as (h2 & -> & ->)];
      (destruct (String.eqb (httpEndpoint n) "") eqn:Hhttp;
       [destruct H3 as [-> ->]|destruct H3 as (Hok & addr & -> & ->)]);
      (destruct (String.eqb (wsEndpoint n) "") eqn:Hws;
       [destruct H4 as [-> ->]|destruct H4 as (Hwok & waddr & -> & ->)]);
      rewrite ?Hstack;
      (split; [exists h; split; [exact Hreg|reflexivity]|]);
      repeat (split; [reflexivity|]);
      repeat split; try reflexivity; try assumption;
      try (eexists; split; reflexivity);
      try (listens_simpl; reflexivity);
      try (intros h0; held_simpl; reflexivity).
Qed.

Lemma registerExposed_none e whitelist exposeAll apis : forall srv,
  fst (registerExposed e whitelist exposeAll apis srv) = None ->
  rpc.registered (snd (registerExposed e whitelist exposeAll apis srv))
  = rpc.registered srv
    ++ registrations (filter (exposed whitelist exposeAll) apis).
Proof.
  induction apis as [|api apis IH]; intros srv H; cbn in H |- *.
  - now rewrite app_nil_r.
  - destruct (exposed whitelist exposeAll api); [|now apply IH].
    unfold RegisterName in H |- *.
    destruct (rpc_RegisterName e _ _); [discriminate|].
    rewrite (IH _ H). cbn. now rewrite <- app_assoc.
Qed.

Transparent RegisterApisFromWhitelist.

Lemma RegisterApis_success e apis modules srv exposeAll :
  fst (fst (RegisterApisFromWhitelist e apis modules srv exposeAll)) = None ->
  rpc.registered
    (snd (fst (RegisterApisFromWhitelist e apis modules srv exposeAll)))
  = rpc.registered srv
    ++ registrations (filter (whitelistRule modules exposeAll) apis).
Proof.
  unfold RegisterApisFromWhitelist, checkModuleAvailability. cbn [fst snd].
  intros H. rewrite (registerExposed_none _ _ _ _ _ H).
  f_equal. f_equal. apply filter_ext. intros api.
  apply exposed_whitelistRule.
Qed.

Opaque RegisterApisFromWhitelist.

(** X17.  After a successful [Start], the node's API list is the built-in
    APIs followed by the APIs of the services, and the in-process handler,
    which [Node.RPCHandler] returns, has every one of them registered, in
    that order, whatever the HTTP and WebSocket module lists say. *)
Theorem Start_success_serves_every_API_in_process (e : Env) (n : Node) :
  isSome (server n) = false ->
  result (Start e n) = None ->
  rpcAPIs (final (Start e n))
  = apis ++ flat_map (fun ks => svcAPIs (snd ks))
                     (rangeOrder e RangeAPIs
                        (servicesOf (final (Start e n)))) /\
  exists h,
    Node_RPCHandler (final (Start e n)) = inr h /\
    rpc.registered h = registrations (rpcAPIs (final (Start e n))).
Proof.
  intros Hidle Hres.
  destruct (Start_success e n Hidle Hres)
    as (n1 & t1 & svcs & tc & ts & n3 & t3
        & Hopen & Hn1 & Hbuilt & Hp2p & Hstart & Hrpc & HS).
  rewrite HS. cbn [final fst snd].
  destruct (startRPC_success_fields _ _ _ Hrpc)
    as ((h & Hreg & Hh) & Hapis & _).
  unfold Node_RPCHandler, servicesOf.
  cbn [rpcAPIs inprocHandler services set_stop set_server set_services].
  rewrite Hapis, Hh. split; [reflexivity|].
  exists h. split; [reflexivity|].
  now destruct (registerAll_ok _ _ _ Hreg) as [-> _].
Qed.

Lemma Start_success_serves_every_API_in_process_witness :
  exists h,
    Node_RPCHandler
      (final (Start Demo.quiet
                (Demo.registered Demo.conf [Demo.healthy "A"]))) = inr h /\
    rpc.registered h
    = [("admin", rpc.PrivateAdminAPI); ("admin", rpc.PublicAdminAPI);
       ("debug", rpc.DebugHandler); ("web3", rpc.PublicWeb3API)].
Proof.
  destruct (@Start_success_serves_every_API_in_process Demo.quiet
              (Demo.registered Demo.conf [Demo.healthy "A"]))
    as (_ & h & Hh & Hreg).
  - reflexivity.
  - reflexivity.
  - exists h. split; [exact Hh|]. rewrite Hreg. reflexivity.
Defined.

(** X18.  After a successful [Start], the handler of each external
    endpoint has exactly the APIs its whitelist selects from the node's
    API list, in order: for a non-empty HTTP endpoint, [HTTPModules]
    without [exposeAll]; for a non-empty WebSocket endpoint that differs
    from the HTTP endpoint, [WSModules] with [WSExposeAll]. *)
Theorem Start_success_endpoints_follow_whitelists (e : Env) (n : Node) :
  isSome (server n) = false ->
  result (Start e n) = None ->
  (String.eqb (httpEndpoint n) "" = false ->
   exists srv,
     httpHandler (final (Start e n)) = Some srv /\
     rpc.registered srv
     = registrations
         (filter (whitelistRule (HTTPModules (config n)) false)
                 (rpcAPIs (final (Start e n))))) /\
  (String.eqb (wsEndpoint n) "" = false ->
   String.eqb (httpEndpoint n) (wsEndpoint n) = false ->
   exists srv,
     wsHandler (final (Start e n)) = Some srv /\
     rpc.registered srv
     = registrations
         (filter (whitelistRule (WSModules (config n))
                    (WSExposeAll (config n)))
                 (rpcAPIs (final (Start e n))))).
Proof.
  intros Hidle Hres.
  destruct (Start_success e n Hidle Hres)
    as (n1 & t1 & svcs & tc & ts & n3 & t3
        & Hopen & Hn1 & Hbuilt & Hp2p & Hstart & Hrpc & HS).
  rewrite HS. cbn [final fst snd].
  destruct (startRPC_success_fields _ _ _ Hrpc)
    as (_ & Hapis & _ & _ & Hhttp & Hws & _).
  cbn [rpcAPIs httpHandler wsHandler set_stop set_server set_services].
  rewrite Hapis.
  assert (Hfields :
            httpEndpoint (set_serverConfig (makeServerConfig e n1) n1)
            = httpEndpoint n /\
            wsEndpoint (set_serverConfig (makeServerConfig e n1) n1)
            = wsEndpoint n /\
            config (set_serverConfig (makeServerConfig e n1) n1) = config n)
    by (destruct Hn1 as [->| ->]; auto).
  destruct Hfields as (He & Hw & Hc).
  rewrite He, Hc in Hhttp. rewrite He, !Hw, Hc in Hws.
  split.
  - intros Hne. rewrite Hne in Hhttp. destruct Hhttp as (Hok & -> & _).
    eexists. split; [reflexivity|].
    now rewrite (RegisterApis_success _ _ _ _ _ Hok).
  - intros Hne Hdiff. rewrite Hne, Hdiff in Hws. cbn [orb] in Hws.
    destruct Hws as (Hok & -> & _).
    eexists. split; [reflexivity|].
    now rewrite (RegisterApis_success _ _ _ _ _ Hok).
Qed.

Lemma Start_success_endpoints_follow_whitelists_witness :
  (exists srv,
     httpHandler (final (Start Demo.quiet (Demo.node Demo.bothConf)))
     = Some srv /\
     rpc.registered srv = [("web3", rpc.PublicWeb3API)]) /\
  (exists srv,
     wsHandler (final (Start Demo.quiet (Demo.node Demo.bothConf)))
     = Some srv /\
     rpc.registered srv = [("debug", rpc.DebugHandler)]).
Proof.
  destruct (@Start_success_endpoints_follow_whitelists Demo.quiet
              (Demo.node Demo.bothConf)) as (Hhttp & Hws).
  - reflexivity.
  - reflexivity.
  - destruct (Hhttp eq_refl) as (srv & Hsrv & Hreg).
    destruct (Hws eq_refl eq_refl) as (wsrv & Hwsrv & Hwreg).
    split; [exists srv|exists wsrv]; (split; [assumption|]).
    + rewrite Hreg. reflexivity.
    + rewrite Hwreg. reflexivity.
Defined.

(** ** The listeners [Start] binds *)

Lemma listens_stopEvents u b1 b2 t : listens u (stopEvents b1 b2 t) = [].
Proof. now destruct b1, b2. Qed.

Lemma startIPC_listen_nonempty e apis n h :
  startIPC e apis n
  = (None, set_ipcHandler (Some h) (set_ipcListener (Some (ipcEndpoint n)) n),
     [EvListen IPC (ipcEndpoint n)]) ->
  ipcEndpoint n <> "".
Proof.
  intros Hr He. revert Hr. unfold startIPC, bind, get. rewrite He.
  cbn. discriminate.
Qed.

Ltac split_http e apis nn :=
  let He := fresh "Hhttp" in
  destruct (startHTTP_run e (httpEndpoint nn) apis (HTTPModules (config nn))
              (HTTPCors (config nn)) (HTTPVirtualHosts (config nn))
              (HTTPTimeouts (config nn)) (WSOrigins (config nn)) nn)
    as [[_ ->]|[[? ->]|[? (He & _ & ->)]]].

Ltac split_ws e apis nn :=
  let He := fresh "Hws" in
  destruct (startWS_run e (wsEndpoint nn) apis (WSModules (config nn))
              (WSOrigins (config nn)) (WSExposeAll (config nn)) nn)
    as [[_ ->]|[[? ->]|[? (He & _ & ->)]]].

Ltac listens_done :=
  cbn [snd];
  rewrite ?listens_app, ?listens_logs, ?listens_stopEvents;
  cbn [listens flat_map Transport_eqb app];
  rewrite ?app_nil_r;
  repeat split;
  first [ reflexivity
        | left; reflexivity
        | right; repeat split; first [assumption | reflexivity] ].

(** Whatever its outcome, [startRPC] binds at most one listener per
    transport, on the endpoint of the transport, which is not empty. *)
Lemma startRPC_listens e (svcs : ServiceMap) n :
  listens InProc (trace (startRPC e svcs n)) = [] /\
  (listens IPC (trace (startRPC e svcs n)) = [] \/
   ipcEndpoint n <> "" /\
   listens IPC (trace (startRPC e svcs n)) = [ipcEndpoint n]) /\
  (listens HTTP (trace (startRPC e svcs n)) = [] \/
   httpEndpoint n <> "" /\
   listens HTTP (trace (startRPC e svcs n)) = [httpEndpoint n]) /\
  (listens WS (trace (startRPC e svcs n)) = [] \/
   wsEndpoint n <> "" /\ httpEndpoint n <> wsEndpoint n /\
   listens WS (trace (startRPC e svcs n)) = [wsEndpoint n]).
Proof.
  rewrite startRPC_unfold. cbv zeta. unfold trace.
  generalize (allAPIs e svcs). intros apis.
  destruct (startInProc_run e apis n) as [[e1 ->]|[h1 ->]];
    [listens_done|].
  set (n1 := set_inprocHandler (Some h1) n).
  destruct (startIPC_run e apis n1) as [[_ ->]|[[e2 ->]|[h2 Hr]]].
  2:{ listens_done. }
  - split_http e apis n1.
    2:{ listens_done. }
    + destruct (String.eqb (httpEndpoint n1) (wsEndpoint n1)) eqn:Hsame;
        cbn [negb]; [listens_done|].
      apply String.eqb_neq in Hsame.
      split_ws e apis n1; listens_done.
    + set (n3 := set_httpHandler _ _).
      destruct (String.eqb (httpEndpoint n3) (wsEndpoint n3)) eqn:Hsame;
        cbn [negb]; [listens_done|].
      apply String.eqb_neq in Hsame.
      split_ws e apis n3; listens_done.
  - pose proof (@startIPC_listen_nonempty e apis n1 h2 Hr) as Hipc.
    rewrite Hr. set (n2 := set_ipcHandler _ _).
    split_http e apis n2.
    2:{ listens_done. }
    + destruct (String.eqb (httpEndpoint n2) (wsEndpoint n2)) eqn:Hsame;
        cbn [negb]; [listens_done|].
      apply String.eqb_neq in Hsame.
      split_ws e apis n2; listens_done.
    + set (n3 := set_httpHandler _ _).
      destruct (String.eqb (httpEndpoint n3) (wsEndpoint n3)) eqn:Hsame;
        cbn [negb]; [listens_done|].
      apply String.eqb_neq in Hsame.
      split_ws e apis n3; listens_done.
Qed.

Lemma listens_service_stops u (m : ServiceMap) :
  listens u (map (fun ks => EvServiceStop (fst ks)) m) = [].
Proof. induction m as [|ks m IH]; [reflexivity|exact IH]. Qed.

Lemma Start_listens e n u :
  isSome (server n) = false ->
  listens u (trace (Start e n)) = [] \/
  exists svcs n2,
    ipcEndpoint n2 = ipcEndpoint n /\ httpEndpoint n2 = httpEndpoint n /\
    wsEndpoint n2 = wsEndpoint n /\
    listens u (trace (Start e n)) = listens u (trace (startRPC e svcs n2)).
Proof.
  intros Hidle. rewrite (Start_unfold e n Hidle).
  pose proof (openDataDir_listens e n u) as Hl1.
  pose proof (openDataDir_facts e n) as Hf. cbv zeta in Hf.
  destruct Hf as (_ & _ & _ & _ & _ & _ & Hn1 & _).
  destruct (openDataDir e n) as [[[err|] n1] t1];
    cbn [trace final fst snd] in Hl1, Hn1; [now left|].
  cbv zeta.
  pose proof (constructServices_events
                (config (set_serverConfig (makeServerConfig e n1) n1))
                (serviceFuncs (set_serverConfig (makeServerConfig e n1) n1))
                0 []) as Hev.
  destruct (constructServices _ _ _ _) as [[err|svcs] tc]; cbn [fst snd] in *;
    destruct (calls_constructs _ Hev) as (_ & _ & Hl2).
  { left. cbn [trace snd]. now rewrite listens_app, Hl1, Hl2. }
  destruct (p2p_Server_Start e _) as [err|].
  { left. cbn [trace snd]. now rewrite !listens_app, Hl1, Hl2. }
  pose proof (startServices_events
                (runningServer e (set_serverConfig (makeServerConfig e n1) n1)
                   svcs) svcs (rangeOrder e RangeStart svcs) []) as Hlev.
  destruct (startServices _ _ _ _) as [[err|] ts]; cbn [fst snd] in *;
    pose proof (lifecycle_listens _ u Hlev) as Hl3.
  { left. cbn [trace snd]. now rewrite !listens_app, Hl1, Hl2, Hl3. }
  right. exists svcs, (set_serverConfig (makeServerConfig e n1) n1).
  split; [destruct Hn1 as [->| ->]; reflexivity|].
  split; [destruct Hn1 as [->| ->]; reflexivity|].
  split; [destruct Hn1 as [->| ->]; reflexivity|].
  destruct (startRPC e svcs _) as [[[err|] n3] t3]; cbn [trace snd];
    rewrite !listens_app, Hl1, Hl2, Hl3, ?listens_service_stops; cbn;
    now rewrite ?app_nil_r.
Qed.

(** X19.  Whatever its outcome, [Start] on an idle node binds at most one
    listener per transport, and only on the node's endpoint for that
    transport: never for an empty endpoint, never in-process, and for
    WebSocket only when its endpoint differs from the HTTP endpoint. *)
Theorem Start_binds_only_the_configured_endpoints (e : Env) (n : Node) :
  isSome (server n) = false ->
  listens InProc (trace (Start e n)) = [] /\
  (listens IPC (trace (Start e n)) = [] \/
   ipcEndpoint n <> "" /\ listens IPC (trace (Start e n)) = [ipcEndpoint n]) /\
  (listens HTTP (trace (Start e n)) = [] \/
   httpEndpoint n <> "" /\
   listens HTTP (trace (Start e n)) = [httpEndpoint n]) /\
  (listens WS (trace (Start e n)) = [] \/
   wsEndpoint n <> "" /\ httpEndpoint n <> wsEndpoint n /\
   listens WS (trace (Start e n)) = [wsEndpoint n]).
Proof.
  intros Hidle.
  assert (H : forall u,
             listens u (trace (Start e n)) = [] \/
             exists svcs n2,
               ipcEndpoint n2 = ipcEndpoint n /\
               httpEndpoint n2 = httpEndpoint n /\
               wsEndpoint n2 = wsEndpoint n /\
               listens u (trace (Start e n))
               = listens u (trace (startRPC e svcs n2)))
    by (intros u; now apply Start_listens).
  split; [|split; [|split]].
  - destruct (H InProc) as [->|(svcs & n2 & _ & _ & _ & ->)]; [reflexivity|].
    apply startRPC_listens.
  - destruct (H IPC) as [->|(svcs & n2 & Hi & _ & _ & ->)]; [now left|].
    rewrite <- Hi. apply startRPC_listens.
  - destruct (H HTTP) as [->|(svcs & n2 & _ & Hh & _ & ->)]; [now left|].
    rewrite <- Hh. apply startRPC_listens.
  - destruct (H WS) as [->|(svcs & n2 & _ & Hh & Hw & ->)]; [now left|].
    rewrite <- Hh, <- Hw. apply startRPC_listens.
Qed.

Lemma Start_binds_only_the_configured_endpoints_witness :
  listens InProc (trace (Start Demo.quiet (Demo.node Demo.bothConf))) = [] /\
  (listens IPC (trace (Start Demo.quiet (Demo.node Demo.bothConf))) = [] \/
   ipcEndpoint (Demo.node Demo.bothConf) <> "" /\
   listens IPC (trace (Start Demo.quiet (Demo.node Demo.bothConf)))
   = [ipcEndpoint (Demo.node Demo.bothConf)]) /\
  (listens HTTP (trace (Start Demo.quiet (Demo.node Demo.bothConf))) = [] \/
   httpEndpoint (Demo.node Demo.bothConf) <> "" /\
   listens HTTP (trace (Start Demo.quiet (Demo.node Demo.bothConf)))
   = [httpEndpoint (Demo.node Demo.bothConf)]) /\
  (listens WS (trace (Start Demo.quiet (Demo.node Demo.bothConf))) = [] \/
   wsEndpoint (Demo.node Demo.bothConf) <> "" /\
   httpEndpoint (Demo.node Demo.bothConf)
   <> wsEndpoint (Demo.node Demo.bothConf) /\
   listens WS (trace (Start Demo.quiet (Demo.node Demo.bothConf)))
   = [wsEndpoint (Demo.node Demo.bothConf)]).
Proof.
  apply (@Start_binds_only_the_configured_endpoints Demo.quiet
           (Demo.node Demo.bothConf)).
  reflexivity.
Defined.

(** ** [Start] followed by [Stop] *)

Lemma range_incl_envs e e' site site' (svcs : ServiceMap) :
  EnvOK e -> EnvOK e' ->
  incl (mapKeys (rangeOrder e site svcs))
       (mapKeys (rangeOrder e' site' svcs)).
Proof.
  intros He He' k Hin. eapply Permutation_in; [|exact Hin].
  apply Permutation_keys. etransitivity; [apply He|]. symmetry. apply He'.
Qed.

Lemma heldFrom_lockEvents_nil e n : heldFrom [] (lockEvents e n) = [].
Proof.
  unfold lockEvents. destruct (instanceDirLock n) as [lock|]; [|reflexivity].
  now destruct (isSome (Release e lock)).
Qed.

Lemma heldFrom_lockEvents_own e n lock :
  instanceDirLock n = Some lock ->
  heldFrom [RLock lock] (lockEvents e n) = [].
Proof.
  unfold lockEvents. intros ->. cbn. rewrite String.eqb_refl. cbn.
  now destruct (isSome (Release e lock)).
Qed.

Lemma heldFrom_keystoreEvents h n : heldFrom h (keystoreEvents n) = h.
Proof. unfold keystoreEvents. now destruct (negb _). Qed.

(** X20.  After a successful [Start] on an idle node, [Stop] calls the
    releasing operation of everything [Start] acquired: [Release] of the
    directory lock, [Stop] of the peer-transport server and of every
    started service, [Close] of every listener [Start] bound.  Each of
    these calls is made whatever the others return; whether a call
    succeeded is not part of the statement.  The in-process handler is
    not among them: [Stop] leaves it in place. *)
Theorem Stop_calls_every_release_of_Start (e e' : Env) (n : Node) :
  EnvOK e -> EnvOK e' ->
  isSome (server n) = false ->
  result (Start e n) = None ->
  held (trace (Start e n) ++ trace (Stop e' (final (Start e n)))) = [] /\
  isSome (inprocHandler (final (Stop e' (final (Start e n))))) = true.
Proof.
  intros Henv Henv' Hidle Hres.
  split; [|destruct (Start_success e n Hidle Hres)
             as (n1 & t1 & svcs & tc & ts & n3 & t3
                 & _ & _ & _ & _ & _ & Hrpc & HS);
           rewrite HS; cbn [final fst snd];
           rewrite Stop_unfold by reflexivity; cbn [final fst snd];
           destruct (startRPC_success_fields _ _ _ Hrpc)
             as ((h & _ & Hh) & _);
           cbn [inprocHandler stoppedNode set_stop set_instanceDirLock
                set_server set_services set_rpcAPIs set_ipcHandler
                set_ipcListener set_httpHandler set_wsHandler];
           now rewrite Hh].
  destruct (Start_success e n Hidle Hres)
    as (n1 & t1 & svcs & tc & ts & n3 & t3
        & Hopen & Hn1 & Hbuilt & Hp2p & Hstart & Hrpc & HS).
  rewrite HS. cbn [trace final fst snd].
  rewrite Stop_unfold by reflexivity. cbn [trace snd].
  destruct (startRPC_success_fields _ _ _ Hrpc)
    as (_ & _ & Hframe & Hipc & Hhttp & Hws & Hheld).
  destruct Hframe as (_ & _ & Hlock & _).
  (* what Start holds *)
  assert (Hts : ts = map (fun k => EvServiceStart k true)
                         (mapKeys (rangeOrder e RangeStart svcs))).
  { destruct (@startServices_run
                (runningServer e (set_serverConfig (makeServerConfig e n1) n1)
                   svcs) svcs (rangeOrder e RangeStart svcs) [])
      as [(_ & _ & Ht)|(pre & k & s & post & err & _ & _ & _ & Hfail & _)].
    - intros k Hk. cbn [app] in Hk.
      eapply range_known; [exact Henv|exact Hk].
    - rewrite Hstart in Ht. exact Ht.
    - rewrite Hstart in Hfail. discriminate. }
  pose proof (constructServices_events (config n) (serviceFuncs n) 0 [])
    as Hev. rewrite Hbuilt in Hev. cbn [snd] in Hev.
  unfold held. rewrite !heldFrom_app.
  rewrite (heldFrom_constructs _ Hev).
  change (heldFrom (heldFrom [] t1) [EvServerStart true])
    with (heldFrom [] t1 ++ [RPeerServer]).
  rewrite Hts, heldFrom_starts, Hheld.
  (* the lock *)
  assert (Hbase : onlyLocks (heldFrom [] t1) /\
                  heldFrom (heldFrom [] t1)
                    (lockEvents e'
                       (set_stop (Some false)
                          (set_server
                             (Some (runningServer e
                                      (set_serverConfig
                                         (makeServerConfig e n1) n1) svcs))
                             (set_services (Some svcs) n3)))) = []).
  { unfold lockEvents.
    cbn [instanceDirLock set_stop set_server set_services].
    rewrite Hlock. cbn [instanceDirLock set_serverConfig].
    destruct (openDataDir_run e n) as [[Hr _]|[[err Hr]|[[err Hr]|[Hr _]]]];
      cbv zeta in Hr; rewrite Hr in Hopen;
      apply triple_inv in Hopen as (Hres' & <- & <-);
      try discriminate Hres'.
    - split; [intros r []|].
      apply (heldFrom_lockEvents_nil e' n).
    - split.
      + intros r [<-|[]]. now eexists.
      + cbn [instanceDirLock set_instanceDirLock heldFrom fold_left holdStep
             app].
        cbn. rewrite String.eqb_refl. cbn.
        now destruct (isSome (Release e' _)). }
  destruct Hbase as [Hlocks Hrel].
  set (base := heldFrom [] t1) in *.
  set (keys := mapKeys (rangeOrder e RangeStart svcs)).
  assert (HnoL : noListener ((base ++ [RPeerServer]) ++ map RService keys)).
  { rewrite <- app_assoc. apply noListener_services, Hlocks. }
  (* the listeners *)
  assert (Hlisteners :
    heldFrom
      (((base ++ [RPeerServer]) ++ map RService keys)
       ++ (if String.eqb
                (ipcEndpoint (set_serverConfig (makeServerConfig e n1) n1)) ""
           then [] else [RListener IPC])
       ++ (if String.eqb
                (httpEndpoint (set_serverConfig (makeServerConfig e n1) n1)) ""
           then [] else [RListener HTTP])
       ++ (if String.eqb
                (wsEndpoint (set_serverConfig (makeServerConfig e n1) n1)) ""
              || String.eqb
                   (httpEndpoint (set_serverConfig (makeServerConfig e n1) n1))
                   (wsEndpoint (set_serverConfig (makeServerConfig e n1) n1))
           then [] else [RListener WS]))
      (stopEvents (isSome (wsHTTPServer n3)) (isSome (wsHandler n3)) WS
       ++ stopEvents (isSome (httpServer n3)) (isSome (httpHandler n3)) HTTP
       ++ stopEvents (isSome (ipcListener n3)) (isSome (ipcHandler n3)) IPC)
    = (base ++ [RPeerServer]) ++ map RService keys).
  { rewrite !heldFrom_app, !heldFrom_stopEvents.
    generalize dependent ((base ++ [RPeerServer]) ++ map RService keys).
    intros A HnoL.
    destruct (String.eqb (ipcEndpoint _) "");
      [destruct Hipc as (-> & _ & _)|destruct Hipc as (-> & _ & _)];
      (destruct (String.eqb (httpEndpoint _) "");
       [destruct Hhttp as (_ & -> & _)
       |destruct Hhttp as (_ & _ & (addr & -> & _) & _)]);
      (destruct (String.eqb (wsEndpoint _) "" || String.eqb _ _);
       [destruct Hws as (_ & -> & _)
       |destruct Hws as (_ & _ & (waddr & -> & _) & _)]);
      cbn [isSome app];
      repeat match goal with
             | |- context [if isSome ?x then _ else _] => destruct (isSome x)
             end;
      rewrite ?app_nil_r, ?release_app, ?(release_noListener _ HnoL);
      cbn; rewrite ?app_nil_r, ?(release_noListener _ HnoL);
      reflexivity. }
  cbn [wsHTTPServer wsHandler httpServer httpHandler ipcListener ipcHandler
       set_stop set_server set_services].
  rewrite !heldFrom_app in Hlisteners. rewrite Hlisteners.
  cbn [servicesOf services set_stop set_server set_services].
  replace ((base ++ [RPeerServer]) ++ map RService keys)
    with (base ++ RPeerServer :: map RService keys)
    by (now rewrite <- app_assoc).
  rewrite (@heldFrom_stop_services base
             (mapKeys (rangeOrder e' RangeStop svcs)) keys Hlocks
             (range_incl_envs RangeStart RangeStop svcs Henv Henv')).
  change (heldFrom (base ++ [RPeerServer]) [EvServerStop])
    with (release RPeerServer (base ++ [RPeerServer])).
  rewrite (release_server Hlocks), Hrel.
  change (heldFrom [] [EvCloseStop]) with (@nil Resource).
  apply heldFrom_keystoreEvents.
Qed.

Lemma Stop_calls_every_release_of_Start_witness :
  held
    (trace (Start Demo.quiet
              (Demo.registered Demo.bothConf
                 [Demo.healthy "A"; Demo.failingStop "B"]))
     ++ trace (Stop Demo.reversed
                 (final (Start Demo.quiet
                           (Demo.registered Demo.bothConf
                              [Demo.healthy "A"; Demo.failingStop "B"])))))
  = [].
Proof.
  apply (@Stop_calls_every_release_of_Start Demo.quiet Demo.reversed
           (Demo.registered Demo.bothConf
              [Demo.healthy "A"; Demo.failingStop "B"])).
  - exact quiet_ok.
  - exact reversed_ok.
  - reflexivity.
  - reflexivity.
Defined.

(** ** The administrative start and stop of HTTP and WebSocket *)

Lemma StartRPC_run e host port cors apis vhosts n :
  (isSome (httpHandler n) = true /\
   StartRPC e host port cors apis vhosts n
   = ((false, Some (ErrorString ("HTTP RPC already running on "
                                 ++ httpEndpoint n))), n, [])) \/
  (exists err t,
     forallb isLog t = true /\
     StartRPC e host port cors apis vhosts n = ((false, Some err), n, t)) \/
  (exists srv hs addr t,
     forallb isLog t = true /\
     StartRPC e host port cors apis vhosts n
     = ((true, None),
        set_httpHandler (Some srv)
          (set_httpServer (Some hs)
             (set_httpListenerAddr (Some addr)
                (set_httpEndpoint
                   (GoStrings.hostPort (effectiveHTTPHost n host)
                      (match port with
                       | Some p => p
                       | None => HTTPPort (config n)
                       end)) n))),
        t ++ [EvListen HTTP
                (GoStrings.hostPort (effectiveHTTPHost n host)
                   (match port with
                    | Some p => p
                    | None => HTTPPort (config n)
                    end))])).
Proof.
  destruct (isSome (httpHandler n)) eqn:Hh.
  { left. split; [reflexivity|]. unfold StartRPC, bind, get. now rewrite Hh. }
  right.
  assert (HS : StartRPC e host port cors apis vhosts n
               = match startHTTP e
                         (GoStrings.hostPort (effectiveHTTPHost n host)
                            (match port with
                             | Some p => p
                             | None => HTTPPort (config n)
                             end))
                         (rpcAPIs n)
                         (match apis with
                          | Some a => splitAndTrim a
                          | None => httpWhitelist n
                          end)
                         (match cors with
                          | Some c => splitAndTrim c
                          | None => HTTPCors (config n)
                          end)
                         (match vhosts with
                          | Some _ => splitAndTrim (effectiveHTTPHost n host)
                          | None => HTTPVirtualHosts (config n)
                          end)
                         (HTTPTimeouts (config n)) (WSOrigins (config n)) n
                 with
                 | (Some err, n', t') => ((false, Some err), n', t')
                 | (None, n', t') => ((true, None), n', t')
                 end).
  { unfold StartRPC. unfold bind at 1, get at 1. rewrite Hh.
    fold (effectiveHTTPHost n host). unfold bind, ret.
    destruct (startHTTP _ _ _ _ _ _ _ _ n) as [[[err|] n'] t'];
      now rewrite app_nil_r. }
  rewrite HS. clear HS.
  destruct (startHTTP_run e
              (GoStrings.hostPort (effectiveHTTPHost n host)
                 (match port with
                  | Some p => p
                  | None => HTTPPort (config n)
                  end))
              (rpcAPIs n)
              (match apis with
               | Some a => splitAndTrim a
               | None => httpWhitelist n
               end)
              (match cors with
               | Some c => splitAndTrim c
               | None => HTTPCors (config n)
               end)
              (match vhosts with
               | Some _ => splitAndTrim (effectiveHTTPHost n host)
               | None => HTTPVirtualHosts (config n)
               end)
              (HTTPTimeouts (config n)) (WSOrigins (config n)) n)
    as [[Hempty _]|[[err Hr]|[addr (_ & _ & Hr)]]].
  - now elim (hostPort_nonempty _ _ Hempty).
  - left. exists err. eexists. rewrite Hr. split; [|reflexivity].
    apply RegisterApis_trace.
  - right. do 4 eexists. rewrite Hr. split; [|reflexivity].
    apply RegisterApis_trace.
Qed.

Lemma StartWS_run e host port origins apis n :
  (isSome (wsHandler n) = true /\
   StartWS e host port origins apis n
   = ((false, Some (ErrorString ("WebSocket RPC already running on "
                                 ++ wsEndpoint n))), n, [])) \/
  (exists err t,
     forallb isLog t = true /\
     StartWS e host port origins apis n = ((false, Some err), n, t)) \/
  (exists srv hs addr t,
     forallb isLog t = true /\
     StartWS e host port origins apis n
     = ((true, None),
        set_wsHandler (Some srv)
          (set_wsHTTPServer (Some hs)
             (set_wsListenerAddr (Some addr)
                (set_wsEndpoint
                   (GoStrings.hostPort
                      (match host with
                       | Some h => h
                       | None =>
                           if negb (String.eqb (WSHost (config n)) "")
                           then WSHost (config n) else DefaultWSHost
                       end)
                      (match port with
                       | Some p => p
                       | None => WSPort (config n)
                       end)) n))),
        t ++ [EvListen WS
                (GoStrings.hostPort
                   (match host with
                    | Some h => h
                    | None =>
                        if negb (String.eqb (WSHost (config n)) "")
                        then WSHost (config n) else DefaultWSHost
                    end)
                   (match port with
                    | Some p => p
                    | None => WSPort (config n)
                    end))])).
Proof.
  destruct (isSome (wsHandler n)) eqn:Hh.
  { left. split; [reflexivity|]. unfold StartWS, bind, get. now rewrite Hh. }
  right.
  assert (HS : StartWS e host port origins apis n
               = match startWS e
                         (GoStrings.hostPort
                            (match host with
                             | Some h => h
                             | None =>
                                 if negb (String.eqb (WSHost (config n)) "")
                                 then WSHost (config n) else DefaultWSHost
                             end)
                            (match port with
                             | Some p => p
                             | None => WSPort (config n)
                             end))
                         (rpcAPIs n)
                         (match apis with
                          | Some a => splitAndTrim a
                          | None => WSModules (config n)
                          end)
                         (match origins with
                          | Some c => splitAndTrim c
                          | None => WSOrigins (config n)
                          end)
                         (WSExposeAll (config n)) n
                 with
                 | (Some err, n', t') => ((false, Some err), n', t')
                 | (None, n', t') => ((true, None), n', t')
                 end).
  { unfold StartWS. unfold bind at 1, get at 1. rewrite Hh.
    unfold bind, ret.
    destruct (startWS _ _ _ _ _ _ n) as [[[err|] n'] t'];
      now rewrite app_nil_r. }
  rewrite HS. clear HS.
  destruct (startWS_run e
              (GoStrings.hostPort
                 (match host with
                  | Some h => h
                  | None =>
                      if negb (String.eqb (WSHost (config n)) "")
                      then WSHost (config n) else DefaultWSHost
                  end)
                 (match port with
                  | Some p => p
                  | None => WSPort (config n)
                  end))
              (rpcAPIs n)
              (match apis with
               | Some a => splitAndTrim a
               | None => WSModules (config n)
               end)
              (match origins with
               | Some c => splitAndTrim c
               | None => WSOrigins (config n)
               end)
              (WSExposeAll (config n)) n)
    as [[Hempty _]|[[err Hr]|[addr (_ & _ & Hr)]]].
  - now elim (hostPort_nonempty _ _ Hempty).
  - left. exists err. eexists. rewrite Hr. split; [|reflexivity].
    apply RegisterApis_trace.
  - right. do 4 eexists. rewrite Hr. split; [|reflexivity].
    apply RegisterApis_trace.
Qed.

(** X21.  After [StartRPC] has returned true, the HTTP endpoint of the
    node is the host and port the call worked with and one HTTP listener
    is bound there; any further [StartRPC] fails with "already running"
    on that endpoint and changes nothing; [StopRPC] succeeds, closes the
    listener and stops the handler, so that nothing the two calls
    acquired is still held; and a second [StopRPC] fails with "not
    running". *)
Theorem StartRPC_StopRPC_cycle
  (e : Env) (host : option string) (port : option Z)
  (cors apis vhosts : option string) (n n1 : Node) (oerr : option Error)
  (t : list Event) :
  StartRPC e host port cors apis vhosts n = ((true, oerr), n1, t) ->
  oerr = None /\
  httpEndpoint n1
  = GoStrings.hostPort (effectiveHTTPHost n host)
      (match port with Some p => p | None => HTTPPort (config n) end) /\
  listens HTTP t = [httpEndpoint n1] /\
  (forall e2 host2 port2 cors2 apis2 vhosts2,
     StartRPC e2 host2 port2 cors2 apis2 vhosts2 n1
     = ((false, Some (ErrorString ("HTTP RPC already running on "
                                   ++ httpEndpoint n1))), n1, [])) /\
  StopRPC n1
  = ((true, None), set_httpHandler None n1,
     [EvListenerClose HTTP; EvHandlerStop HTTP]) /\
  held (t ++ trace (StopRPC n1)) = [] /\
  StopRPC (final (StopRPC n1))
  = ((false, Some (ErrorString "HTTP RPC not running")),
     final (StopRPC n1), []).
Proof.
  intros HS.
  destruct (StartRPC_run e host port cors apis vhosts n)
    as [[_ Hr]|[(err & t' & _ & Hr)|(srv & hs & addr & t' & Hlog & Hr)]];
    rewrite Hr in HS; try discriminate HS.
  apply triple_inv in HS as (Hres & <- & <-).
  injection Hres as <-.
  assert (Hstop : forall m, isSome (httpServer m) = true ->
                            isSome (httpHandler m) = true ->
            StopRPC m = ((true, None), set_httpHandler None m,
                         [EvListenerClose HTTP; EvHandlerStop HTTP])).
  { intros m Hm1 Hm2. unfold StopRPC, bind, get. rewrite Hm2. cbn [negb].
    rewrite stopHTTP_run, Hm1, Hm2. reflexivity. }
  split; [reflexivity|]. split; [reflexivity|].
  split.
  { rewrite listens_app. destruct (calls_logs _ Hlog) as (_ & _ & ->).
    reflexivity. }
  split.
  { intros. unfold StartRPC, bind, get. reflexivity. }
  rewrite Hstop by reflexivity.
  split; [reflexivity|]. split.
  - unfold held. rewrite !heldFrom_app, (heldFrom_logs _ Hlog). reflexivity.
  - reflexivity.
Qed.

Lemma StartRPC_StopRPC_cycle_witness :
  held (trace (StartRPC Demo.quiet None None None None None Demo.running)
        ++ trace (StopRPC
                    (final (StartRPC Demo.quiet None None None None None
                              Demo.running)))) = [].
Proof.
  destruct (@StartRPC_StopRPC_cycle Demo.quiet None None None None None
              Demo.running
              (final (StartRPC Demo.quiet None None None None None
                        Demo.running))
              None
              (trace (StartRPC Demo.quiet None None None None None
                        Demo.running)))
    as (_ & _ & _ & _ & _ & H & _).
  - reflexivity.
  - exact H.
Defined.

(** X22.  The same cycle for WebSocket: after [StartWS] has returned
    true, the WebSocket endpoint of the node is the host and port the
    call worked with and one WebSocket listener is bound there; a further
    [StartWS] fails with "already running"; [StopWS] closes the listener
    and stops the handler, after which nothing is held; a second
    [StopWS] fails with "not running". *)
Theorem StartWS_StopWS_cycle
  (e : Env) (host : option string) (port : option Z)
  (origins apis : option string) (n n1 : Node) (oerr : option Error)
  (t : list Event) :
  StartWS e host port origins apis n = ((true, oerr), n1, t) ->
  oerr = None /\
  wsEndpoint n1
  = GoStrings.hostPort
      (match host with
       | Some h => h
       | None => if negb (String.eqb (WSHost (config n)) "")
                 then WSHost (config n) else DefaultWSHost
       end)
      (match port with Some p => p | None => WSPort (config n) end) /\
  listens WS t = [wsEndpoint n1] /\
  (forall e2 host2 port2 origins2 apis2,
     StartWS e2 host2 port2 origins2 apis2 n1
     = ((false, Some (ErrorString ("WebSocket RPC already running on "
                                   ++ wsEndpoint n1))), n1, [])) /\
  StopWS n1
  = ((true, None), set_wsHandler None n1,
     [EvListenerClose WS; EvHandlerStop WS]) /\
  held (t ++ trace (StopWS n1)) = [] /\
  StopWS (final (StopWS n1))
  = ((false, Some (ErrorString "WebSocket RPC not running")),
     final (StopWS n1), []).
Proof.
  intros HS.
  destruct (StartWS_run e host port origins apis n)
    as [[_ Hr]|[(err & t' & _ & Hr)|(srv & hs & addr & t' & Hlog & Hr)]];
    rewrite Hr in HS; try discriminate HS.
  apply triple_inv in HS as (Hres & <- & <-).
  injection Hres as <-.
  assert (Hstop : forall m, isSome (wsHTTPServer m) = true ->
                            isSome (wsHandler m) = true ->
            StopWS m = ((true, None), set_wsHandler None m,
                        [EvListenerClose WS; EvHandlerStop WS])).
  { intros m Hm1 Hm2. unfold StopWS, bind, get. rewrite Hm2. cbn [negb].
    rewrite stopWS_run, Hm1, Hm2. reflexivity. }
  split; [reflexivity|]. split; [reflexivity|].
  split.
  { rewrite listens_app. destruct (calls_logs _ Hlog) as (_ & _ & ->).
    reflexivity. }
  split.
  { intros. unfold StartWS, bind, get. reflexivity. }
  rewrite Hstop by reflexivity.
  split; [reflexivity|]. split.
  - unfold held. rewrite !heldFrom_app, (heldFrom_logs _ Hlog). reflexivity.
  - reflexivity.
Qed.

Lemma StartWS_StopWS_cycle_witness :
  held (trace (StartWS Demo.quiet None None None None Demo.running)
        ++ trace (StopWS
                    (final (StartWS Demo.quiet None None None None
                              Demo.running)))) = [].
Proof.
  destruct (@StartWS_StopWS_cycle Demo.quiet None None None None
              Demo.running
              (final (StartWS Demo.quiet None None None None Demo.running))
              None
              (trace (StartWS Demo.quiet None None None None Demo.running)))
    as (_ & _ & _ & _ & _ & H & _).
  - reflexivity.
  - exact H.
Defined.

(** X23.  A [StartRPC] or [StartWS] that returns an error leaves the
    node exactly as it was and binds no listener: the only events of the
    call are log lines. *)
Theorem failing_admin_start_changes_nothing
  (e : Env) (host : option string) (port : option Z)
  (a1 a2 a3 : option string) (n : Node)
  (r : bool * option Error * Node * list Event) (err : Error) :
  r = StartRPC e host port a1 a2 a3 n \/ r = StartWS e host port a1 a2 n ->
  snd (result r) = Some err ->
  fst (result r) = false /\
  final r = n /\
  forallb isLog (trace r) = true /\
  held (trace r) = [].
Proof.
  intros [-> | ->] Herr.
  - destruct (StartRPC_run e host port a1 a2 a3 n)
      as [[_ Hr]|[(err' & t' & Hlog & Hr)|(srv & hs & addr & t' & Hlog & Hr)]];
      rewrite Hr in Herr |- *; cbn [result final trace fst snd] in *.
    + repeat split.
    + repeat split; [exact Hlog|]. unfold held. now apply heldFrom_logs.
    + discriminate Herr.
  - destruct (StartWS_run e host port a1 a2 n)
      as [[_ Hr]|[(err' & t' & Hlog & Hr)|(srv & hs & addr & t' & Hlog & Hr)]];
      rewrite Hr in Herr |- *; cbn [result final trace fst snd] in *.
    + repeat split.
    + repeat split; [exact Hlog|]. unfold held. now apply heldFrom_logs.
    + discriminate Herr.
Qed.

Lemma failing_admin_start_changes_nothing_witness :
  final (StartRPC Demo.quiet None None None None None
           (after Demo.quiet (CallStartRPC None None None None None)
              Demo.running))
  = after Demo.quiet (CallStartRPC None None None None None) Demo.running.
Proof.
  destruct (@failing_admin_start_changes_nothing Demo.quiet None None
              None None None
              (after Demo.quiet (CallStartRPC None None None None None)
                 Demo.running)
              (StartRPC Demo.quiet None None None None None
                 (after Demo.quiet (CallStartRPC None None None None None)
                    Demo.running))
              (ErrorString "HTTP RPC already running on localhost:8545"))
    as (_ & H & _).
  - left. reflexivity.
  - reflexivity.
  - exact H.
Defined.

(** ** What [Stop] leaves behind *)

(** X24.  [Stop] clears neither the in-process handler nor the listener
    addresses and servers of HTTP and WebSocket: after [Stop],
    [RPCHandler], [HTTPEndpoint] and [WSEndpoint] return what they
    returned before it, although [Service] now answers
    [ErrNodeStopped]. *)
Theorem Stop_keeps_inproc_handler_and_addresses (e : Env) (n : Node) :
  Node_RPCHandler (final (Stop e n)) = Node_RPCHandler n /\
  Node_HTTPEndpoint (final (Stop e n)) = Node_HTTPEndpoint n /\
  Node_WSEndpoint (final (Stop e n)) = Node_WSEndpoint n /\
  httpServer (final (Stop e n)) = httpServer n /\
  wsHTTPServer (final (Stop e n)) = wsHTTPServer n /\
  (forall kind, Node_Service (final (Stop e n)) kind = inl ErrNodeStopped).
Proof.
  destruct (isSome (server n)) eqn:Hrun.
  - rewrite (Stop_unfold e n Hrun). cbn [final fst snd].
    repeat split.
  - rewrite (Stop_idle e n Hrun). cbn [final fst snd].
    repeat split. intros kind. unfold Node_Service. now rewrite Hrun.
Qed.

(** ** The peer-transport server and the data directory *)

(** X25.  After a successful [Start], the node's server is the one that
    was started: its configuration is the node's [serverConfig], which
    carries the node key and node name of the configuration and the
    configured listen address, and keeps static nodes, trusted nodes and
    node database when the configuration sets them; its protocols are
    the protocols of all the services of the node, each service
    contributing once. *)
Theorem Start_success_configures_peer_server (e : Env) (n : Node) :
  EnvOK e ->
  isSome (server n) = false ->
  result (Start e n) = None ->
  exists running,
    Node_Server (final (Start e n)) = Some running /\
    p2p_Server_Start e running = None /\
    p2p.SrvConfig running = serverConfig (final (Start e n)) /\
    p2p.PrivateKey (p2p.SrvConfig running)
    = Some (Config_NodeKey e (config n)) /\
    p2p.Name (p2p.SrvConfig running) = Config_NodeName e (config n) /\
    p2p.ListenAddr (p2p.SrvConfig running) = p2p.ListenAddr (P2P (config n)) /\
    (forall l, p2p.StaticNodes (P2P (config n)) = Some l ->
               p2p.StaticNodes (p2p.SrvConfig running) = Some l) /\
    (forall l, p2p.TrustedNodes (P2P (config n)) = Some l ->
               p2p.TrustedNodes (p2p.SrvConfig running) = Some l) /\
    (String.eqb (p2p.NodeDatabase (P2P (config n))) "" = false ->
     p2p.NodeDatabase (p2p.SrvConfig running)
     = p2p.NodeDatabase (P2P (config n))) /\
    Permutation (p2p.Protocols running)
      (flat_map (fun ks => svcProtocols (snd ks))
                (servicesOf (final (Start e n)))).
Proof.
  intros Henv Hidle Hres.
  destruct (Start_success e n Hidle Hres)
    as (n1 & t1 & svcs & tc & ts & n3 & t3
        & Hopen & Hn1 & Hbuilt & Hp2p & Hstart & Hrpc & HS).
  rewrite HS. cbn [final fst snd].
  eexists. split; [reflexivity|]. split; [exact Hp2p|].
  assert (Hsc : serverConfig n3 = makeServerConfig e n1).
  { destruct (startRPC_success _ _ _ Hrpc)
      as (h & n2 & t2 & n3' & t3' & n4 & t4 & _ & H2 & H3 & H4 & -> & _).
    apply startIPC_ok in H2. apply startHTTP_ok in H3.
    assert (E2 : serverConfig n2 = makeServerConfig e n1).
    { destruct (String.eqb _ "") in H2;
        [destruct H2 as [-> _]|destruct H2 as (? & -> & _)]; reflexivity. }
    assert (E3 : serverConfig n3' = makeServerConfig e n1).
    { destruct (String.eqb _ "") in H3;
        [destruct H3 as [-> _]|destruct H3 as (_ & ? & -> & _)]; exact E2. }
    destruct (negb _) in H4.
    - apply startWS_ok in H4.
      destruct (String.eqb _ "") in H4;
        [destruct H4 as [-> _]|destruct H4 as (_ & ? & -> & _)]; exact E3.
    - apply triple_inv in H4 as (_ & <- & _). exact E3. }
  assert (Hcfg : config n1 = config n)
    by (destruct Hn1 as [->| ->]; reflexivity).
  cbn [serverConfig set_stop set_server set_services runningServer
       p2p.SrvConfig p2p.Protocols set_serverConfig servicesOf services].
  rewrite Hsc. unfold makeServerConfig. rewrite Hcfg.
  cbn [p2p.PrivateKey p2p.Name p2p.ListenAddr p2p.StaticNodes
       p2p.TrustedNodes p2p.NodeDatabase].
  repeat split.
  - intros l ->. reflexivity.
  - intros l ->. reflexivity.
  - intros ->. reflexivity.
  - apply Permutation_flat_map, Henv.
Qed.

Lemma Start_success_configures_peer_server_witness :
  exists running,
    Node_Server
      (final (Start Demo.reversed
                (Demo.registered Demo.conf
                   [Demo.healthy "A"; Demo.healthy "B"]))) = Some running /\
    p2p.Protocols running = ["A"; "B"].
Proof.
  destruct (@Start_success_configures_peer_server Demo.reversed
              (Demo.registered Demo.conf [Demo.healthy "A"; Demo.healthy "B"]))
    as (running & Hsrv & _).
  - exact reversed_ok.
  - reflexivity.
  - reflexivity.
  - exists running. split; [exact Hsrv|].
    cbv in Hsrv. injection Hsrv as <-. reflexivity.
Defined.

(** X26.  When the data directory is set and its lock cannot be taken,
    [Start] on an idle node returns the converted lock error right after
    creating the instance directory: no constructor is called, nothing
    is started and the struct is left as it was.  When the instance
    directory cannot be created, [Start] returns that error and does
    nothing at all. *)
Theorem Start_fails_fast_on_the_data_directory (e : Env) (n : Node)
  (err : Error) :
  isSome (server n) = false ->
  String.eqb (DataDir (config n)) "" = false ->
  (os_MkdirAll e
     (filepath_Join (DataDir (config n)) (Config_name e (config n)))
   = Some err ->
   Start e n = (Some err, n, [])) /\
  (os_MkdirAll e
     (filepath_Join (DataDir (config n)) (Config_name e (config n)))
   = None ->
   fileutil_Flock e (lockPath e n) = Some err ->
   Start e n
   = (Some (convertFileLockError e err), n,
      [EvMkdirAll
         (filepath_Join (DataDir (config n)) (Config_name e (config n)))])).
Proof.
  intros Hidle Hdir. rewrite (Start_unfold e n Hidle).
  unfold openDataDir, lockPath, bind, get, ret, emit. rewrite Hdir.
  split.
  - intros ->. reflexivity.
  - intros -> ->. reflexivity.
Qed.

Lemma Start_fails_fast_on_the_data_directory_witness :
  Start Demo.locked (Demo.registered Demo.conf [Demo.healthy "A"])
  = (Some ErrDatadirUsed, Demo.registered Demo.conf [Demo.healthy "A"],
     [EvMkdirAll "/data/test"]).
Proof.
  destruct (@Start_fails_fast_on_the_data_directory Demo.locked
              (Demo.registered Demo.conf [Demo.healthy "A"])
              (ErrorString "resource temporarily unavailable"))
    as [_ H].
  - reflexivity.
  - reflexivity.
  - apply H; reflexivity.
Defined.

Lemma forallb_weaken (A : Type) (p q : A -> bool) (l : list A) :
  (forall x, p x = true -> q x = true) ->
  forallb p l = true -> forallb q l = true.
Proof.
  intros Hpq. induction l as [|x l IH]; [reflexivity|].
  cbn. intros H. apply andb_true_iff in H as [Hx Hl].
  now rewrite (Hpq x Hx), (IH Hl).
Qed.

Lemma service_stops_no_file (m : ServiceMap) :
  forallb (fun ev => negb (isFileEvent ev))
          (map (fun ks => EvServiceStop (fst ks)) m) = true.
Proof. induction m as [|ks m IH]; [reflexivity|exact IH]. Qed.

(** X27.  With an empty data directory, [Start] on an idle node,
    whatever its outcome, creates no instance directory, takes no
    directory lock and leaves [instanceDirLock] as it was. *)
Theorem Start_without_data_directory_takes_no_lock (e : Env) (n : Node) :
  EnvOK e ->
  isSome (server n) = false ->
  String.eqb (DataDir (config n)) "" = true ->
  forallb (fun ev => negb (isFileEvent ev)) (trace (Start e n)) = true /\
  instanceDirLock (final (Start e n)) = instanceDirLock n.
Proof.
  intros Henv Hidle Hdir.
  assert (Hopen : openDataDir e n = (None, n, []))
    by (unfold openDataDir, bind, get; now rewrite Hdir).
  split.
  - rewrite (Start_unfold e n Hidle), Hopen. cbv zeta. cbn [app].
    pose proof (constructServices_events
                  (config (set_serverConfig (makeServerConfig e n) n))
                  (serviceFuncs (set_serverConfig (makeServerConfig e n) n))
                  0 []) as Hev.
    apply (@forallb_weaken _ _ (fun ev => negb (isFileEvent ev))) in Hev;
      [|intros ev Hx; now destruct ev].
    destruct (constructServices _ _ _ _) as [[err|svcs] tc];
      cbn [fst snd] in *; [exact Hev|].
    destruct (p2p_Server_Start e _) as [err|]; cbn [trace snd].
    { now rewrite forallb_app, Hev. }
    pose proof (startServices_events
                  (runningServer e (set_serverConfig (makeServerConfig e n) n)
                     svcs) svcs (rangeOrder e RangeStart svcs) []) as Hlev.
    apply (@forallb_weaken _ _ (fun ev => negb (isFileEvent ev))) in Hlev;
      [|intros ev Hx; now destruct ev].
    destruct (startServices _ _ _ _) as [[err|] ts]; cbn [fst snd] in *.
    { cbn [trace snd]. rewrite !forallb_app.
      cbn [forallb isFileEvent negb andb]. now rewrite Hev, Hlev. }
    pose proof (startRPC_events e svcs
                  (set_serverConfig (makeServerConfig e n) n)) as Heev.
    apply (@forallb_weaken _ _ (fun ev => negb (isFileEvent ev))) in Heev;
      [|intros ev Hx; now destruct ev].
    destruct (startRPC e svcs _) as [[[err|] n3] t3]; cbn [trace snd] in *;
      rewrite !forallb_app; cbn [forallb isFileEvent negb andb];
      rewrite ?forallb_app; cbn [forallb isFileEvent negb andb];
      now rewrite Hev, Hlev, Heev, ?service_stops_no_file.
  - destruct (result (Start e n)) as [err|] eqn:Hres.
    + destruct (Start e n) as [[o n'] t] eqn:HS.
      unfold result in Hres. cbn [fst snd] in Hres. subst o.
      destruct (@Start_failure e n err n' t Henv Hidle HS)
        as ((_ & _ & _ & Hl) & _).
      cbn [final fst snd]. now rewrite Hl, Hopen.
    + destruct (Start_success e n Hidle Hres)
        as (n1 & t1 & svcs & tc & ts & n3 & t3
            & Hopen' & _ & _ & _ & _ & Hrpc & HS).
      rewrite Hopen in Hopen'. apply triple_inv in Hopen' as (_ & <- & _).
      rewrite HS. cbn [final fst snd].
      destruct (startRPC_success_fields _ _ _ Hrpc)
        as (_ & _ & (_ & _ & Hlock & _) & _).
      cbn [instanceDirLock set_stop set_server set_services].
      now rewrite Hlock.
Qed.

Lemma Start_without_data_directory_takes_no_lock_witness :
  instanceDirLock (final (Start Demo.quiet (Demo.node Demo.sharedConf)))
  = None.
Proof.
  destruct (@Start_without_data_directory_takes_no_lock Demo.quiet
              (Demo.node Demo.sharedConf)) as [_ H].
  - exact quiet_ok.
  - reflexivity.
  - reflexivity.
  - rewrite H. reflexivity.
Defined.

(** ** From the configuration to the listeners *)

Lemma New_endpoints e conf n :
  New e conf = inr n ->
  isSome (server n) = false /\
  httpEndpoint n = Config_HTTPEndpoint conf /\
  wsEndpoint n = Config_WSEndpoint conf.
Proof.
  unfold New.
  destruct (negb (String.eqb (DataDir conf) ""));
    [destruct (filepath_Abs e (DataDir conf)) as [err|abs]; [discriminate|]|];
    (destruct (GoStrings.ContainsAny _ _); [discriminate|]);
    (destruct (String.eqb _ datadirDefaultKeyStore); [discriminate|]);
    (destruct (GoStrings.HasSuffix _ _); [discriminate|]);
    (destruct (makeAccountManager e _); [discriminate|]);
    intros [= <-]; repeat split.
Qed.

Lemma registerAllOf_frame funcs : forall n,
  isSome (server n) = false ->
  isSome (server (registerAllOf funcs n)) = false /\
  httpEndpoint (registerAllOf funcs n) = httpEndpoint n /\
  wsEndpoint (registerAllOf funcs n) = wsEndpoint n /\
  ipcEndpoint (registerAllOf funcs n) = ipcEndpoint n.
Proof.
  unfold registerAllOf.
  induction funcs as [|c funcs IH]; intros n Hidle; [now repeat split|].
  cbn [fold_left]. rewrite (Register_idle c n Hidle). cbn [final fst snd].
  destruct (IH (set_serviceFuncs (serviceFuncs n ++ [c]) n) Hidle)
    as (H1 & H2 & H3 & H4).
  now rewrite H1, H2, H3, H4.
Qed.

(** X28.  A transport whose host is empty in the configuration given to
    [New] stays closed: whatever constructors are registered on the new
    node and whatever the outcome of [Start], [Start] binds no HTTP
    listener when [HTTPHost] is empty and no WebSocket listener when
    [WSHost] is empty. *)
Theorem transport_without_host_is_never_bound
  (e e' : Env) (conf : Config) (n : Node) (funcs : list ServiceConstructor) :
  New e conf = inr n ->
  (String.eqb (HTTPHost conf) "" = true ->
   listens HTTP (trace (Start e' (registerAllOf funcs n))) = []) /\
  (String.eqb (WSHost conf) "" = true ->
   listens WS (trace (Start e' (registerAllOf funcs n))) = []).
Proof.
  intros HN. destruct (New_endpoints e conf HN) as (Hidle & Hh & Hw).
  destruct (registerAllOf_frame funcs n Hidle) as (Hidle' & Hh' & Hw' & _).
  rewrite Hh in Hh'. rewrite Hw in Hw'.
  unfold Config_HTTPEndpoint in Hh'. unfold Config_WSEndpoint in Hw'.
  split; intros Hoff.
  - rewrite Hoff in Hh'.
    destruct (Start_listens e' (registerAllOf funcs n) HTTP Hidle')
      as [->|(svcs & n2 & _ & E & _ & ->)]; [reflexivity|].
    destruct (startRPC_listens e' svcs n2) as (_ & _ & [H|[Hne _]] & _);
      [exact H|].
    elim Hne. now rewrite E.
  - rewrite Hoff in Hw'.
    destruct (Start_listens e' (registerAllOf funcs n) WS Hidle')
      as [->|(svcs & n2 & _ & _ & E & ->)]; [reflexivity|].
    destruct (startRPC_listens e' svcs n2) as (_ & _ & _ & [H|[Hne _]]);
      [exact H|].
    elim Hne. now rewrite E.
Qed.

Lemma transport_without_host_is_never_bound_witness :
  listens HTTP
    (trace (Start Demo.quiet
              (registerAllOf [Demo.healthy "A"] Demo.idle))) = [].
Proof.
  destruct (@transport_without_host_is_never_bound Demo.quiet Demo.quiet
              Demo.conf Demo.idle [Demo.healthy "A"]) as [H _].
  - reflexivity.
  - apply H. reflexivity.
Defined.
